(** * file_organizer.py: date resolution and routing of media files

    A shallow embedding of [src/file_organizer.py].  Python strings are
    Rocq strings read as sequences of code points below 256; on that range
    the regular-expression class [\d] is exactly the ten ASCII digits.
    Names with other characters (full-width digits, bytes that are not
    UTF-8 and reach Python as surrogate escapes) are not represented as
    text; what the database does with a row it cannot encode is left to
    the host.  The file system, the audit database and the probing
    libraries are explicit state and host tables; exceptions are values
    of [result]. *)

From Stdlib Require Import Ascii String.
From stdpp Require Import gmap strings list.

Local Open Scope string_scope.
Local Open Scope N_scope.

(** ** Python text: digits, [int], [str], [f"{n:02d}"] *)

Module Py.

Definition is_digit (c : ascii) : bool :=
  let n := N_of_ascii c in (48 <=? n) && (n <=? 57).

Definition digit_value (c : ascii) : N := N_of_ascii c - 48.

Definition digit_char (d : N) : ascii := ascii_of_N (48 + d).

(** [int(s)] on a string of decimal digits. *)
Fixpoint int_from (acc : N) (s : string) : N :=
  match s with
  | EmptyString => acc
  | String c s' => int_from (10 * acc + digit_value c) s'
  end.

Definition int (s : string) : N := int_from 0 s.

(** [str(n)]: decimal digits, most significant first, no leading zero. *)
Fixpoint digits (fuel : nat) (n : N) (acc : string) : string :=
  let acc' := String (digit_char (n mod 10)) acc in
  match fuel with
  | O => acc'
  | S fuel' => if n <? 10 then acc' else digits fuel' (n / 10) acc'
  end.

Definition str (n : N) : string := digits (N.to_nat (N.log2 n)) n "".

(** [f"{n:02d}"]: at least two characters, padded with a zero on the left. *)
Definition fmt_02d (n : N) : string :=
  if n <? 10 then String "0" (str n) else str n.

(** [s.startswith(p)] *)
Definition startswith (s p : string) : bool := String.prefix p s.

(** [p in s] for two strings. *)
Fixpoint contains (s p : string) : bool :=
  String.prefix p s ||
  match s with
  | EmptyString => false
  | String _ s' => contains s' p
  end.

End Py.

(** ** The fragment of [re] the program uses

    Every pattern in the source is a sequence of single-character classes
    with fixed repetition counts, some of them inside capturing groups. *)

Module Re.

Inductive cls :=
| Digit                     (* \d *)
| OneOf (cs : list ascii)   (* [...] *)
| Lit (c : ascii).          (* a literal character *)

Inductive piece :=
| Rep (c : cls) (n : nat)            (* c{n}, outside any group *)
| Group (body : list (cls * nat)).   (* ( c1{n1} c2{n2} ... ) *)

Definition pattern := list piece.

Definition cls_matches (c : cls) (a : ascii) : bool :=
  match c with
  | Digit => Py.is_digit a
  | OneOf cs => existsb (Ascii.eqb a) cs
  | Lit b => Ascii.eqb a b
  end.

(** Consume exactly [n] characters of class [c]: the characters matched
    and the rest of the text. *)
Fixpoint take_rep (c : cls) (n : nat) (s : string) : option (string * string) :=
  match n with
  | O => Some ("", s)
  | S n' =>
      match s with
      | String a s' =>
          if cls_matches c a then
            match take_rep c n' s' with
            | Some (m, rest) => Some (String a m, rest)
            | None => None
            end
          else None
      | EmptyString => None
      end
  end.

Fixpoint take_body (body : list (cls * nat)) (s : string) : option (string * string) :=
  match body with
  | [] => Some ("", s)
  | (c, n) :: body' =>
      match take_rep c n s with
      | Some (m, rest) =>
          match take_body body' rest with
          | Some (m', rest') => Some (m ++ m', rest')
          | None => None
          end
      | None => None
      end
  end.

(** Match the whole pattern at the head of [s]; the result is
    [match.groups()]. *)
Fixpoint match_here (p : pattern) (s : string) : option (list string) :=
  match p with
  | [] => Some []
  | Rep c n :: p' =>
      match take_rep c n s with
      | Some (_, rest) => match_here p' rest
      | None => None
      end
  | Group body :: p' =>
      match take_body body s with
      | Some (m, rest) =>
          match match_here p' rest with
          | Some gs => Some (m :: gs)
          | None => None
          end
      | None => None
      end
  end.

(** [re.search]: the leftmost start position at which the pattern matches. *)
Fixpoint search (p : pattern) (s : string) : option (list string) :=
  match match_here p s with
  | Some gs => Some gs
  | None =>
      match s with
      | EmptyString => None
      | String _ s' => search p s'
      end
  end.

(** The number of capturing groups of a pattern. *)
Fixpoint groups (p : pattern) : nat :=
  match p with
  | [] => O
  | Rep _ _ :: p' => groups p'
  | Group _ :: p' => S (groups p')
  end.

Definition d (n : nat) : piece := Rep Digit n.
Definition g (n : nat) : piece := Group [(Digit, n)].
Definition sep : piece := Rep (OneOf ["-"; "_"]%char) 1.
Definition lit (c : ascii) : piece := Rep (Lit c) 1.

End Re.

(** ** Exceptions and results *)

Inductive exn :=
| OSError
| FileNotFoundError
| FileExistsError
| ImportError
| SubprocessError
| JSONDecodeError
| ValueError
| TypeError
| KeyError
| AttributeError
| UnboundLocalError
| UnicodeEncodeError
| SqliteError
| OtherError (name : string).

Inductive result (A : Type) :=
| Ok (a : A)
| Raise (e : exn).
Arguments Ok {A} a.
Arguments Raise {A} e.

(** A [for] loop whose body may [return] a value ([Some]), fall through to
    the next iteration ([None]) or raise. *)
Fixpoint for_first {A B : Type} (body : A -> result (option B)) (l : list A)
  : result (option B) :=
  match l with
  | [] => Ok None
  | x :: l' =>
      match body x with
      | Ok None => for_first body l'
      | r => r
      end
  end.

(** ** Data *)

(** Paths are lists of components: [os.path.join] appends,
    [os.path.basename] is the last component. *)
Definition path := list string.

Definition join (folder : path) (name : string) : path := (folder ++ [name])%list.
Definition basename (p : path) : string := List.last p "".
Definition dirname (p : path) : path := removelast p.

(** DateEvidence as the code returns it: a pair of strings (year, month). *)
Definition evidence := (string * string)%type.

(** The two fields of a [datetime] that the program reads.  A [datetime]
    has a year from [MINYEAR = 1] to [MAXYEAR = 9999] and a month from 1
    to 12; its constructors refuse anything else. *)
Definition valid_date (year month : N) : bool :=
  (1 <=? year) && (year <=? 9999) && (1 <=? month) && (month <=? 12).

Record datetime := {
  dt_year : N;
  dt_month : N;
  dt_valid : Is_true (valid_date dt_year dt_month)
}.

(** What [Image.open(p)._getexif()] yields: an exception, or the EXIF
    dictionary (possibly [None]) as its items in iteration order. *)
Inductive exif_value :=
| ExifText (s : string)
| ExifOther.

Inductive image_read :=
| ImageRaises (e : exn)
| Exif (items : option (list (N * exif_value))).

(** What hachoir yields: [createParser], then [extractMetadata], then the
    attributes of the metadata object; [.value] is a datetime or not. *)
Inductive attr :=
| AttrDate (date : datetime)
| AttrOther.

Inductive container_read :=
| HachoirRaises (e : exn)
| NoParser
| NoMetadata
| Metadata (attrs : list (string * attr)).

(** What [subprocess.run] of ffprobe on the file yields when the tool is
    installed. *)
Inductive run_result :=
| RunRaises (e : exn)
| Completed (returncode : Z) (stdout : string).

(** Values of [json.loads]. *)
#[local] Unset Elimination Schemes.
Inductive json :=
| JNull
| JBool (b : bool)
| JNumber
| JStr (s : string)
| JList (l : list json)
| JDict (items : list (string * json)).
#[local] Set Elimination Schemes.

(** A regular file: its bytes (by identity) and what each probe reads
    from it. *)
Record file := {
  content : nat;
  image : image_read;
  container : container_read;
  ffprobe : run_result;
  st_ctime : datetime;   (* datetime.fromtimestamp(stat.st_ctime) *)
  st_mtime : datetime    (* datetime.fromtimestamp(stat.st_mtime) *)
}.

(** Rows of the two tables; the processing_timestamp_utc column is the wall
    clock at insertion and is left out. *)
Record process_row := { p_filename : string; p_target_folder : path }.

Record issue_row := {
  i_filename : string;
  i_warning_code : option Z;
  i_error_code : option Z;
  i_description : string
}.

Module ErrorCodes.
Definition UNPROCESSABLE_FILE : Z := 100.
Definition MISSING_DATE : Z := 200.
Definition MOVE_ERROR : Z := 300.
Definition DATABASE_ERROR : Z := 400.
End ErrorCodes.

Module WarningCodes.
Definition NO_DATE_METADATA : Z := 10.
Definition UNSUPPORTED_FILE : Z := 20.
Definition FILENAME_DATE_EXTRACTION : Z := 30.
End WarningCodes.

(** What a [shutil.move] that raised may leave behind.  [shutil.move]
    tries [os.rename]; on an [OSError] it copies the file to the
    destination and then unlinks the source.  So a failed move of a file
    leaves the disk as it was, or leaves the copy at the destination next
    to the source (the unlink failed), or leaves a part of the copy there
    (the copy broke off). *)
Inductive leftover :=
| Untouched
| Copied
| Damaged (partial : file).

(** The host: clock, library tables, and the faults of the outside world.
    The [n]-th mutating file-system call fails with [e] when
    [io_fault n = Some e], and [io_leftover n] is what it leaves behind
    when it is a move.  The [n]-th database insertion, of a row for the
    file called [name], fails with [e] when [db_fault n name = Some e]:
    with an [sqlite3.Error] (locked or full database) or with another
    exception ([UnicodeEncodeError] for a name the database cannot
    encode).  [message e] is [str(e)]. *)
Record host := {
  now_year : N;
  now_month : N;
  guess_type : path -> option string;       (* mimetypes.guess_type(p)[0] *)
  TAGS : N -> option string;                (* PIL.ExifTags.TAGS *)
  ffprobe_installed : bool;
  json_loads : string -> option json;       (* None: JSONDecodeError *)
  strptime : string -> string -> option datetime;  (* None: ValueError *)
  message : exn -> string;                  (* str(e) *)
  io_fault : nat -> option exn;
  io_leftover : nat -> leftover;
  db_fault : nat -> string -> option exn
}.

Record state := {
  files : gmap path file;
  dirs : gset path;
  moved : list (path * path);   (* journal of completed moves, oldest first *)
  process_log : list process_row;
  issues : list issue_row;
  io_tick : nat;
  db_tick : nat
}.

Definition set_files (fs : gmap path file) (st : state) : state :=
  {| files := fs; dirs := dirs st; moved := moved st;
     process_log := process_log st;
     issues := issues st; io_tick := io_tick st; db_tick := db_tick st |}.

Definition set_dirs (ds : gset path) (st : state) : state :=
  {| files := files st; dirs := ds; moved := moved st;
     process_log := process_log st;
     issues := issues st; io_tick := io_tick st; db_tick := db_tick st |}.

Definition add_process (r : process_row) (st : state) : state :=
  {| files := files st; dirs := dirs st; moved := moved st;
     process_log := (process_log st ++ [r])%list;
     issues := issues st; io_tick := io_tick st; db_tick := db_tick st |}.

Definition add_issue (r : issue_row) (st : state) : state :=
  {| files := files st; dirs := dirs st; moved := moved st;
     process_log := process_log st;
     issues := (issues st ++ [r])%list; io_tick := io_tick st; db_tick := db_tick st |}.

Definition add_moved (src dst : path) (st : state) : state :=
  {| files := files st; dirs := dirs st; moved := (moved st ++ [(src, dst)])%list;
     process_log := process_log st;
     issues := issues st; io_tick := io_tick st; db_tick := db_tick st |}.

Definition io_step (st : state) : state :=
  {| files := files st; dirs := dirs st; moved := moved st;
     process_log := process_log st;
     issues := issues st; io_tick := S (io_tick st); db_tick := db_tick st |}.

Definition db_step (st : state) : state :=
  {| files := files st; dirs := dirs st; moved := moved st;
     process_log := process_log st;
     issues := issues st; io_tick := io_tick st; db_tick := S (db_tick st) |}.

(** ** Statements with effects: state passing with exceptions

    The state survives a raise, as the effects of a Python statement do. *)

Definition M (A : Type) : Type := state -> result A * state.

Definition ret {A : Type} (a : A) : M A := fun st => (Ok a, st).

Definition bind {A B : Type} (c : M A) (k : A -> M B) : M B :=
  fun st =>
    match c st with
    | (Ok a, st') => k a st'
    | (Raise e, st') => (Raise e, st')
    end.

(** [try: c  except <classes> as e: handler e] *)
Definition try_except {A : Type} (c : M A) (catches : exn -> bool)
    (handler : exn -> M A) : M A :=
  fun st =>
    match c st with
    | (Ok a, st') => (Ok a, st')
    | (Raise e, st') => if catches e then handler e st' else (Raise e, st')
    end.

Definition gets {A : Type} (f : state -> A) : M A := fun st => (Ok (f st), st).

Definition lift {A : Type} (r : result A) : M A := fun st => (r, st).

Declare Scope py_scope.
Delimit Scope py_scope with py.
Notation "x <- c1 ;; c2" := (bind c1 (fun x => c2))
  (at level 100, c1 at next level, right associativity) : py_scope.
Notation "c1 ;; c2" := (bind c1 (fun _ => c2))
  (at level 100, c2 at level 200, right associativity) : py_scope.

(** [for x in l: body x] *)
Fixpoint for_each {A : Type} (l : list A) (body : A -> M unit) : M unit :=
  match l with
  | [] => ret tt
  | x :: l' => bind (body x) (fun _ => for_each l' body)
  end.

(** [except Exception] *)
Definition Exception (e : exn) : bool := true.

(** [except sqlite3.Error] *)
Definition sqlite3_Error (e : exn) : bool :=
  match e with SqliteError => true | _ => false end.

Local Open Scope py_scope.

Section Organizer.

Variable h : host.

(** *** File system calls *)

(** [os.path.exists(p)] *)
Definition exists_ (p : path) (st : state) : bool :=
  bool_decide (is_Some (files st !! p)) || bool_decide (p ∈ dirs st).

(** [os.path.isfile(p)] *)
Definition isfile (p : path) (st : state) : bool :=
  bool_decide (is_Some (files st !! p)).

(** The folder and every folder above it. *)
Definition ancestors (p : path) : list path :=
  (fun n => take n p) <$> seq 1 (length p).

(** [os.makedirs(folder)] (without [exist_ok]). *)
Definition os_makedirs (folder : path) : M unit :=
  fun st =>
    match io_fault h (io_tick st) with
    | Some e => (Raise e, io_step st)
    | None =>
        if exists_ folder st then (Raise FileExistsError, io_step st)
        else (Ok tt, set_dirs (list_to_set (ancestors folder) ∪ dirs st) (io_step st))
    end.

(** [shutil.move(src, dst)] with [dst] the path of a file.  When it
    returns, the source has been renamed onto the destination (or copied
    there and unlinked), replacing a file already there, and the move is
    entered in the journal [moved] of the file system.  When it raises
    (permissions, full disk, missing folder: a fault of [io_fault]), a
    source that is there stays there, and the destination is as
    [io_leftover] says: as it was, holding the copy, or holding a part of
    it; nothing is copied from a missing source or onto the source
    itself.  Destinations that name an existing folder are outside the
    model. *)
Definition shutil_move (src dst : path) : M unit :=
  fun st =>
    match io_fault h (io_tick st) with
    | Some e =>
        match files st !! src with
        | None => (Raise e, io_step st)
        | Some f =>
            if bool_decide (src = dst) then (Raise e, io_step st)
            else
              match io_leftover h (io_tick st) with
              | Untouched => (Raise e, io_step st)
              | Copied => (Raise e, set_files (<[dst := f]> (files st)) (io_step st))
              | Damaged partial =>
                  (Raise e, set_files (<[dst := partial]> (files st)) (io_step st))
              end
        end
    | None =>
        match files st !! src with
        | None => (Raise FileNotFoundError, io_step st)
        | Some f =>
            (Ok tt, add_moved src dst
                      (set_files (<[dst := f]> (delete src (files st))) (io_step st)))
        end
    end.

(** [os.listdir(folder)]: the names directly inside the folder. *)
Definition listdir (folder : path) (st : state) : list string :=
  basename <$>
    filter (fun p => p ≠ [] ∧ dirname p = folder)
           (elements (dom (files st) ∪ dirs st)).

(** *** Audit sink

    The console lines of [logger] are not part of the state. *)

(** [cursor.execute("INSERT ...", (filename, ...)); conn.commit()]: the
    row is written, or the insertion raises and nothing is written. *)
Definition db_insert (filename : string) (row : state -> state) : M unit :=
  fun st =>
    match db_fault h (db_tick st) filename with
    | Some e => (Raise e, db_step st)
    | None => (Ok tt, row (db_step st))
    end.

(** Only an [sqlite3.Error] is caught; any other exception of the
    insertion leaves the function. *)
Definition log_issue (filename : string) (warning_code error_code : option Z)
    (description : string) : M unit :=
  try_except
    (db_insert filename
       (add_issue {| i_filename := filename;
                     i_warning_code := warning_code;
                     i_error_code := error_code;
                     i_description := description |}))
    sqlite3_Error
    (fun e => ret tt).

Definition log_process (filename : string) (target_folder : path) : M unit :=
  try_except
    (db_insert filename
       (add_process {| p_filename := filename;
                       p_target_folder := target_folder |}))
    sqlite3_Error
    (fun e => log_issue filename None (Some ErrorCodes.DATABASE_ERROR)
                ("Failed to log process: " ++ message h e)).

(** *** Image extractor *)

(** r'(\d{4}):(\d{2}):\d{2}' *)
Definition date_pattern : Re.pattern :=
  [Re.g 4; Re.lit ":"; Re.g 2; Re.lit ":"; Re.d 2].

(** [TAGS.get(tag_id, tag_id) == 'DateTimeOriginal'] *)
Definition is_DateTimeOriginal (tag_id : N) : bool :=
  bool_decide (TAGS h tag_id = Some "DateTimeOriginal").

Definition image_tag (item : N * exif_value) : result (option evidence) :=
  let '(tag_id, value) := item in
  if is_DateTimeOriginal tag_id then
    match value with
    | ExifText s =>
        match Re.search date_pattern s with
        | Some [year; month] => Ok (Some (year, month))
        | Some _ => Raise ValueError
        | None => Ok None
        end
    | ExifOther => Raise TypeError
    end
  else Ok None.

(** The body of the [try] of [get_image_date_taken]. *)
Definition image_try (fs : gmap path file) (file_path : path)
  : result (option evidence) :=
  match fs !! file_path with
  | None => Raise FileNotFoundError
  | Some f =>
      match image f with
      | ImageRaises e => Raise e
      | Exif None => Ok None
      | Exif (Some []) => Ok None
      | Exif (Some items) => for_first image_tag items
      end
  end.

Definition get_image_date_taken (fs : gmap path file) (file_path : path)
  : option evidence :=
  match image_try fs file_path with
  | Ok r => r
  | Raise _ => None
  end.

(** *** Video extractor *)

Definition date_evidence (date : datetime) : evidence :=
  (Py.str (dt_year date), Py.fmt_02d (dt_month date)).

(** [hasattr(metadata, key)] and [getattr(metadata, key)] *)
Fixpoint getattr (attrs : list (string * attr)) (key : string) : option attr :=
  match attrs with
  | [] => None
  | (k, a) :: attrs' => if bool_decide (k = key) then Some a else getattr attrs' key
  end.

(** Strategy 1: the hachoir metadata fields. *)
Definition hachoir_strategy (f : file) : result (option evidence) :=
  match container f with
  | HachoirRaises e => Raise e
  | NoParser => Ok None
  | NoMetadata => Ok None
  | Metadata attrs =>
      for_first
        (fun key =>
           match getattr attrs key with
           | Some (AttrDate date) => Ok (Some (date_evidence date))
           | Some AttrOther => Raise AttributeError
           | None => Ok None
           end)
        ["creation_date"; "datetime_original"; "creation_datetime"]
  end.

(** [key in v] on a JSON value. *)
Definition py_in (key : string) (v : json) : result bool :=
  match v with
  | JDict items => Ok (bool_decide (key ∈ items.*1))
  | JList l =>
      Ok (existsb (fun x => match x with
                            | JStr s => bool_decide (s = key)
                            | _ => false
                            end) l)
  | JStr s => Ok (Py.contains s key)
  | JNull | JBool _ | JNumber => Raise TypeError
  end.

Fixpoint dict_get (items : list (string * json)) (key : string) : option json :=
  match items with
  | [] => None
  | (k, v) :: items' => if bool_decide (k = key) then Some v else dict_get items' key
  end.

(** [v[key]] with a string key. *)
Definition py_getitem (v : json) (key : string) : result json :=
  match v with
  | JDict items =>
      match dict_get items key with
      | Some x => Ok x
      | None => Raise KeyError
      end
  | _ => Raise TypeError
  end.

Definition formats : list string :=
  ["%Y-%m-%dT%H:%M:%S.%fZ"; "%Y-%m-%d %H:%M:%S"; "%Y:%m:%d %H:%M:%S"].

(** The loop over the three formats; a [ValueError] of [strptime] is the
    [continue] of the loop. *)
Definition parse_date (date_str : json) : result (option evidence) :=
  for_first
    (fun fmt =>
       match date_str with
       | JStr s =>
           match strptime h s fmt with
           | Some date => Ok (Some (date_evidence date))
           | None => Ok None
           end
       | _ => Raise TypeError
       end)
    formats.

Definition scan_tags (tags : json) : result (option evidence) :=
  for_first
    (fun date_tag =>
       match py_in date_tag tags with
       | Raise e => Raise e
       | Ok false => Ok None
       | Ok true =>
           match py_getitem tags date_tag with
           | Raise e => Raise e
           | Ok date_str => parse_date date_str
           end
       end)
    ["creation_time"; "date"; "DateTimeOriginal"].

Definition scan_item (item : json) : result (option evidence) :=
  match py_in "tags" item with
  | Raise e => Raise e
  | Ok false => Ok None
  | Ok true =>
      match py_getitem item "tags" with
      | Raise e => Raise e
      | Ok tags => scan_tags tags
      end
  end.

Definition scan_section (data : json) (section : string) : result (option evidence) :=
  match py_in section data with
  | Raise e => Raise e
  | Ok false => Ok None
  | Ok true =>
      match py_getitem data section with
      | Raise e => Raise e
      | Ok (JList items) => for_first scan_item items
      | Ok x => for_first scan_item [x]
      end
  end.

(** The body of the inner [try]: its outcome, and whether the local name
    [json] has been bound by [import json] when the body ends. *)
Definition ffprobe_try (f : file) : result (option evidence) * bool :=
  if ffprobe_installed h then
    match ffprobe f with
    | RunRaises e => (Raise e, false)
    | Completed returncode stdout =>
        if bool_decide (returncode = 0%Z) then
          match json_loads h stdout with
          | None => (Raise JSONDecodeError, true)
          | Some data => (for_first (scan_section data) ["format"; "streams"], true)
          end
        else (Ok None, false)
    end
  else (Raise FileNotFoundError, false).

(** [(ImportError, FileNotFoundError, subprocess.SubprocessError,
     json.JSONDecodeError)] *)
Definition ffprobe_errors (e : exn) : bool :=
  match e with
  | ImportError | FileNotFoundError | SubprocessError | JSONDecodeError => true
  | _ => false
  end.

(** Strategy 2, with its [except] clause.  The tuple of the clause is
    evaluated when an exception reaches it; [json] is a local name of the
    function, so reading it before [import json] has run raises
    [UnboundLocalError] in place of the handler. *)
Definition ffprobe_strategy (f : file) : result (option evidence) :=
  match ffprobe_try f with
  | (Ok r, _) => Ok r
  | (Raise e, json_bound) =>
      if json_bound then
        if ffprobe_errors e then Ok None else Raise e
      else Raise UnboundLocalError
  end.

(** Strategy 3: creation time, then modification time. *)
Definition stat_strategy (f : file) : result (option evidence) :=
  for_first
    (fun date =>
       if 1980 <? dt_year date then Ok (Some (date_evidence date)) else Ok None)
    [st_ctime f; st_mtime f].

(** The body of the outer [try] of [get_video_date_created]. *)
Definition video_try (fs : gmap path file) (file_path : path)
  : result (option evidence) :=
  match fs !! file_path with
  | None => Raise FileNotFoundError
  | Some f =>
      match hachoir_strategy f with
      | Ok None =>
          match ffprobe_strategy f with
          | Ok None => stat_strategy f
          | r => r
          end
      | r => r
      end
  end.

Definition get_video_date_created (fs : gmap path file) (file_path : path)
  : option evidence :=
  match video_try fs file_path with
  | Ok r => r
  | Raise _ => None
  end.

(** *** Filename extractor *)

(** r'(\d{4})[-_](\d{2})[-_]\d{2}': YYYY-MM-DD or YYYY_MM_DD *)
Definition ymd_pattern : Re.pattern := [Re.g 4; Re.sep; Re.g 2; Re.sep; Re.d 2].

(** r'\d{2}[-_](\d{2})[-_](\d{4})': DD-MM-YYYY or DD_MM_YYYY *)
Definition dmy_pattern : Re.pattern := [Re.d 2; Re.sep; Re.g 2; Re.sep; Re.g 4].

(** r'(\d{4})(\d{2})\d{2}': YYYYMMDD *)
Definition compact_pattern : Re.pattern := [Re.g 4; Re.g 2; Re.d 2].

(** r'IMG[-_](\d{4})(\d{2})\d{2}': IMG-YYYYMMDD or IMG_YYYYMMDD *)
Definition img_pattern : Re.pattern :=
  [Re.lit "I"; Re.lit "M"; Re.lit "G"; Re.sep; Re.g 4; Re.g 2; Re.d 2].

(** r'VID[-_](\d{4})(\d{2})\d{2}': VID-YYYYMMDD or VID_YYYYMMDD *)
Definition vid_pattern : Re.pattern :=
  [Re.lit "V"; Re.lit "I"; Re.lit "D"; Re.sep; Re.g 4; Re.g 2; Re.d 2].

Definition patterns : list Re.pattern :=
  [ymd_pattern; dmy_pattern; compact_pattern; img_pattern; vid_pattern].

(** [(year < current_year) or (year == current_year and month <= current_month)] *)
Definition not_future (year month : N) : bool :=
  (year <? now_year h) || ((year =? now_year h) && (month <=? now_month h)).

(** The body of the loop over the patterns. *)
Definition try_pattern (filename : string) (pattern : Re.pattern)
  : result (option evidence) :=
  match Re.search pattern filename with
  | Some [year; month] =>
      let year := Py.int year in
      let month := Py.int month in
      if not_future year month then Ok (Some (Py.str year, Py.fmt_02d month))
      else Ok None
  | Some _ => Raise ValueError
  | None => Ok None
  end.

Definition extract_timestamp_from_filename (filename : string)
  : result (option evidence) :=
  for_first (try_pattern filename) patterns.

(** *** Classifier *)

Definition is_image_file (file_path : path) : bool :=
  match guess_type h file_path with
  | Some mime => Py.startswith mime "image/"
  | None => false
  end.

Definition is_video_file (file_path : path) : bool :=
  match guess_type h file_path with
  | Some mime => Py.startswith mime "video/"
  | None => false
  end.

(** *** Phase 1: one file *)

(** [os.path.join(target_root, year, month)] *)
Definition year_month (target_root : path) (year month : string) : path :=
  join (join target_root year) month.

(** [if not os.path.exists(folder): os.makedirs(folder)] *)
Definition ensure_folder (folder : path) : M unit :=
  folder_exists <- gets (exists_ folder) ;;
  if folder_exists then ret tt else os_makedirs folder.

(** The body of the [try] of [process_file]. *)
Definition process_file_try
    (file_path target_root to_sort_folder unprocessable_folder : path) : M unit :=
  let file_name := basename file_path in
  found <-
    (if is_image_file file_path then
       date_info <- gets (fun st => get_image_date_taken (files st) file_path) ;;
       ret (Some (date_info, "image"))
     else if is_video_file file_path then
       date_info <- gets (fun st => get_video_date_created (files st) file_path) ;;
       ret (Some (date_info, "video"))
     else
       let target_path := join unprocessable_folder file_name in
       shutil_move file_path target_path ;;
       log_process file_name target_path ;;
       log_issue file_name (Some WarningCodes.UNSUPPORTED_FILE) None
         ("File is neither image nor video: " ++ file_name) ;;
       ret None) ;;
  match found with
  | None => ret tt
  | Some (date_info, file_type) =>
      target_path <-
        match date_info with
        | Some (year, month) =>
            let year_month_folder := year_month target_root year month in
            ensure_folder year_month_folder ;;
            ret (join year_month_folder file_name)
        | None =>
            log_issue file_name (Some WarningCodes.NO_DATE_METADATA) None
              ("No date metadata found for " ++ file_type ++ " file: " ++ file_name) ;;
            ret (join to_sort_folder file_name)
        end ;;
      shutil_move file_path target_path ;;
      log_process file_name target_path
  end.

(** The handler of [process_file]: [except Exception as e]. *)
Definition process_file_except (file_path unprocessable_folder : path) (e : exn)
  : M unit :=
  let file_name := basename file_path in
  try_except
    (let target_path := join unprocessable_folder file_name in
     shutil_move file_path target_path ;;
     log_process file_name target_path)
    Exception
    (fun move_error =>
       log_issue file_name None (Some ErrorCodes.MOVE_ERROR)
         ("Failed to move file to unprocessable folder: " ++ message h move_error)) ;;
  log_issue file_name None (Some ErrorCodes.UNPROCESSABLE_FILE)
    ("Error processing file: " ++ message h e).

Definition process_file
    (file_path target_root to_sort_folder unprocessable_folder : path) : M unit :=
  try_except
    (process_file_try file_path target_root to_sort_folder unprocessable_folder)
    Exception
    (process_file_except file_path unprocessable_folder).

(** *** Phase 2: the holding folder *)

(** The body of the loop of [process_unsorted_files]. *)
Definition resort_entry (to_sort_folder target_root : path) (filename : string)
  : M unit :=
  let file_path := join to_sort_folder filename in
  is_file <- gets (isfile file_path) ;;
  if negb is_file then ret tt
  else
    date_info <- lift (extract_timestamp_from_filename filename) ;;
    match date_info with
    | Some (year, month) =>
        let year_month_folder := year_month target_root year month in
        ensure_folder year_month_folder ;;
        let target_path := join year_month_folder filename in
        try_except
          (shutil_move file_path target_path ;;
           log_process filename target_path ;;
           log_issue filename (Some WarningCodes.NO_DATE_METADATA) None
             ("Moved based on filename timestamp: " ++ year ++ "-" ++ month))
          Exception
          (fun e =>
             log_issue filename None (Some ErrorCodes.MOVE_ERROR)
               ("Failed to move file from to_sort folder: " ++ message h e))
    | None => ret tt
    end.

Definition process_unsorted_files (to_sort_folder target_root : path) : M unit :=
  folder_exists <- gets (exists_ to_sort_folder) ;;
  if negb folder_exists then ret tt
  else
    names <- gets (listdir to_sort_folder) ;;
    for_each names (resort_entry to_sort_folder target_root).

(** *** The two sweeps of [main]

    [main] after the arguments are parsed and the database is opened;
    [walk] is the enumeration [os.walk(source_dir)] hands out. *)
Definition primary_sweep (walk : list path) (target_dir : path) : M unit :=
  let to_sort_folder := join target_dir "to_sort" in
  let unprocessable_folder := join target_dir "unprocessable" in
  for_each walk
    (fun file_path =>
       process_file file_path target_dir to_sort_folder unprocessable_folder).

Definition main_sweeps (walk : list path) (target_dir : path) : M unit :=
  let to_sort_folder := join target_dir "to_sort" in
  let unprocessable_folder := join target_dir "unprocessable" in
  for_each [target_dir; to_sort_folder; unprocessable_folder] ensure_folder ;;
  try_except (primary_sweep walk target_dir) Exception (fun e => ret tt) ;;
  try_except
    (process_unsorted_files to_sort_folder target_dir)
    Exception
    (fun e => ret tt).

End Organizer.

(** ** Vocabulary of the statements *)

(** The audit database accepts every insertion. *)
Definition sink_reliable (h : host) : Prop := ∀ n name, db_fault h n name = None.

(** Every failure of the audit database is an [sqlite3.Error], the class
    the logging functions catch. *)
Definition sink_quiet (h : host) : Prop :=
  ∀ n name e, db_fault h n name = Some e → sqlite3_Error e = true.

Fixpoint all_digits (s : string) : bool :=
  match s with
  | EmptyString => true
  | String c s' => Py.is_digit c && all_digits s'
  end.

(** A string of exactly [n] decimal digits. *)
Definition is_digits (n : nat) (s : string) : bool :=
  Nat.eqb (String.length s) n && all_digits s.

(** The text begins with [YYYY:MM:DD]. *)
Definition date_prefixed (v yyyy mm : string) : Prop :=
  ∃ dd rest,
    v = yyyy ++ ":" ++ mm ++ ":" ++ dd ++ rest ∧
    is_digits 4 yyyy = true ∧ is_digits 2 mm = true ∧ is_digits 2 dd = true.

(** The text holds [YYYY:MM:DD] somewhere. *)
Definition date_inside (v : string) : Prop :=
  ∃ before after yyyy mm, v = before ++ after ∧ date_prefixed after yyyy mm.

(** The bounds of the data model on a piece of evidence. *)
Definition in_bounds (ev : evidence) : Prop :=
  1900 ≤ Py.int ev.1 ∧ 1 ≤ Py.int ev.2 ≤ 12 ∧ String.length ev.2 = 2%nat.

(** C5 as the claim words it: whatever an extractor hands out is within
    the bounds. *)
Definition image_bounded (h : host) : Prop :=
  ∀ fs p ev, get_image_date_taken h fs p = Some ev → in_bounds ev.

Definition video_bounded (h : host) : Prop :=
  ∀ fs p ev, get_video_date_created h fs p = Some ev → in_bounds ev.

Definition filename_bounded (h : host) : Prop :=
  ∀ filename ev,
    extract_timestamp_from_filename h filename = Ok (Some ev) → in_bounds ev.

Definition evidence_bounded (h : host) : Prop :=
  image_bounded h ∧ video_bounded h ∧ filename_bounded h.



(** A result that, when it is evidence, was rendered from a [datetime]. *)
Definition dated (r : result (option evidence)) : Prop :=
  ∀ ev, r = Ok (Some ev) → ∃ date, ev = date_evidence date.

(** A pattern that leaves the result to the patterns after it: no match,
    or a match whose pair lies after the current month. *)
Definition skipped (h : host) (filename : string) (q : Re.pattern) : Prop :=
  Re.search q filename = None ∨
  ∃ year month,
    Re.search q filename = Some [year; month] ∧
    not_future h (Py.int year) (Py.int month) = false.

(** The pair of the first pattern, in the order of the list, that matches. *)
Definition first_match (filename : string) : option (list string) :=
  list_find (fun gs : option (list string) => is_Some gs)
            ((fun q => Re.search q filename) <$> patterns) ≫= snd.

(** C4 as the claim words it: the first pattern that matches decides, and
    when its pair lies in the future the answer is [None]. *)
Definition first_match_decides (h : host) : Prop :=
  ∀ filename year month,
    first_match filename = Some [year; month] →
    not_future h (Py.int year) (Py.int month) = false →
    extract_timestamp_from_filename h filename = Ok None.

(** The row [log_process] writes for a move of [file_path] to [dst]. *)
Definition process_event (move : path * path) : process_row :=
  {| p_filename := basename move.1; p_target_folder := move.2 |}.

(** The terminal dispositions of a file in phase 1. *)
Inductive disposition :=
| Organized (year month : string)
| NeedsSort
| Unprocessable
| Failed.

(** Where a disposition puts a file called [name]. *)
Definition destination (target_root to_sort_folder unprocessable_folder : path)
    (name : string) (d : disposition) : option path :=
  match d with
  | Organized year month => Some (join (year_month target_root year month) name)
  | NeedsSort => Some (join to_sort_folder name)
  | Unprocessable => Some (join unprocessable_folder name)
  | Failed => None
  end.

(** The Router: the disposition the classification and the evidence call
    for, before any move is tried. *)
Definition route (h : host) (fs : gmap path file) (file_path : path) : disposition :=
  let dated (date_info : option evidence) :=
    match date_info with
    | Some (year, month) => Organized year month
    | None => NeedsSort
    end in
  if is_image_file h file_path then dated (get_image_date_taken h fs file_path)
  else if is_video_file h file_path then dated (get_video_date_created h fs file_path)
  else Unprocessable.

Definition error_issue (name : string) (code : Z) (r : issue_row) : Prop :=
  i_filename r = name ∧ i_error_code r = Some code ∧ i_warning_code r = None.


(** [st1] is [st] after a move from [src] to [dst] that raised: only the
    files can differ, and of them only the destination, the source being
    as it was; nothing at all differs when there was no source. *)
Definition move_failed (src dst : path) (st st1 : state) : Prop :=
  dirs st1 = dirs st ∧ moved st1 = moved st ∧
  process_log st1 = process_log st ∧ issues st1 = issues st ∧
  io_tick st1 = S (io_tick st) ∧ db_tick st1 = db_tick st ∧
  files st1 !! src = files st !! src ∧
  (∀ q, q ≠ dst → files st1 !! q = files st !! q) ∧
  (files st !! src = None → files st1 = files st).

(** [st'] is [st] after the file at [file_path] met disposition [d], left
    overs of failed moves apart: either one move of it was completed, to
    the destination, journalled and logged, and the file is there and no
    longer at its old path; or no move was completed, the file is where it
    was and error issues for it were recorded. *)
Definition meets (file_path target_root to_sort_folder unprocessable_folder : path)
    (st st' : state) (d : disposition) : Prop :=
  match destination target_root to_sort_folder unprocessable_folder
          (basename file_path) d with
  | Some dst =>
      ∃ f, files st !! file_path = Some f ∧
           files st' !! dst = Some f ∧
           (file_path ≠ dst → files st' !! file_path = None) ∧
           moved st' = (moved st ++ [(file_path, dst)])%list ∧
           process_log st' = (process_log st ++ [process_event (file_path, dst)])%list
  | None =>
      files st' !! file_path = files st !! file_path ∧ moved st' = moved st ∧
      process_log st' = process_log st ∧
      ∃ news r1 r2,
        issues st' = (issues st ++ news ++ [r1; r2])%list ∧
        error_issue (basename file_path) ErrorCodes.MOVE_ERROR r1 ∧
        error_issue (basename file_path) ErrorCodes.UNPROCESSABLE_FILE r2
  end.

(** The paths a call of [process_file] may write to besides the path of
    the file: where the Router sends it, and quarantine. *)
Definition targets (h : host) (file_path target_root to_sort_folder
    unprocessable_folder : path) (st : state) : list path :=
  match destination target_root to_sort_folder unprocessable_folder
          (basename file_path) (route h (files st) file_path) with
  | Some dst => [dst; join unprocessable_folder (basename file_path)]
  | None => [join unprocessable_folder (basename file_path)]
  end.

(** The warning written for a file that is neither image nor video. *)
Definition unsupported_issue (name : string) : issue_row :=
  {| i_filename := name;
     i_warning_code := Some WarningCodes.UNSUPPORTED_FILE;
     i_error_code := None;
     i_description := "File is neither image nor video: " ++ name |}.

(** C1 as the claim words it: after the primary sweep every file that
    was enumerated is still somewhere on the disk. *)
Definition no_file_lost (h : host) (walk : list path) (target_dir : path)
    (st : state) : Prop :=
  ∀ p f, p ∈ walk → files st !! p = Some f →
         ∃ q, files (primary_sweep h walk target_dir st).2 !! q = Some f.

(** What the handler leaves behind when the [try] block raised in [st1]:
    one more file-system call was made, the move to quarantine, and either
    the file went there, or it is where it was, nothing but the quarantine
    path can have changed, and, when the database accepts the insertions,
    error issues were written. *)
Definition quarantined_or_kept (h : host) (p unprocessable_folder : path)
    (st st1 st' : state) : Prop :=
  io_tick st' = S (io_tick st1) ∧
  files st1 !! p = files st !! p ∧
  ((∃ f, io_fault h (io_tick st1) = None ∧ files st !! p = Some f ∧
         files st' = <[join unprocessable_folder (basename p) := f]>
                       (delete p (files st1)))
   ∨
   ((io_fault h (io_tick st1) = None → files st !! p = None) ∧
    files st' !! p = files st !! p ∧
    (∀ q, q ≠ join unprocessable_folder (basename p) →
          files st' !! q = files st1 !! q) ∧
    moved st' = moved st ∧
    (sink_reliable h →
       ∃ news r1 r2,
         issues st' = (issues st ++ news ++ [r1; r2])%list ∧
         error_issue (basename p) ErrorCodes.MOVE_ERROR r1 ∧
         error_issue (basename p) ErrorCodes.UNPROCESSABLE_FILE r2))).

(** C6 as the claim words it.  No exception leaves the per-file handler,
    so a sweep runs to its end. *)
Definition errors_stay_inside (h : host) : Prop :=
  ∀ walk root ts un st,
    ∃ st', for_each walk (fun fp => process_file h fp root ts un) st = (Ok tt, st').

(** And when the [try] block raised and the file is still at its path
    afterwards, an error issue for it has been recorded. *)
Definition failures_are_recorded (h : host) : Prop :=
  ∀ p root ts un st e st1 f,
    process_file_try h p root ts un st = (Raise e, st1) →
    files (process_file h p root ts un st).2 !! p = Some f →
    ∃ news row,
      issues (process_file h p root ts un st).2 = (issues st ++ news)%list ∧
      row ∈ news ∧ i_filename row = basename p ∧ is_Some (i_error_code row).

(** C7 as the claim words it: a file that is neither image nor video is
    in quarantine after its call of [process_file], and an issue for it
    has been recorded. *)
Definition others_reach_quarantine (h : host) : Prop :=
  ∀ p root ts un st f,
    files st !! p = Some f →
    is_image_file h p = false → is_video_file h p = false →
    files (process_file h p root ts un st).2 !! join un (basename p) = Some f.

Definition others_get_an_issue (h : host) : Prop :=
  ∀ p root ts un st f,
    files st !! p = Some f →
    is_image_file h p = false → is_video_file h p = false →
    ∃ news row,
      issues (process_file h p root ts un st).2 = (issues st ++ news)%list ∧
      row ∈ news ∧ i_filename row = basename p.

(** A move of the resort sweep: a file of the holding folder whose name
    yields evidence, taken to the year/month folder of that evidence. *)
Definition dated_move (h : host) (to_sort_folder target_root : path)
    (move : path * path) : Prop :=
  ∃ name year month,
    extract_timestamp_from_filename h name = Ok (Some (year, month)) ∧
    move = (join to_sort_folder name, join (year_month target_root year month) name).

Definition dated_name (h : host) (name : string) : Prop :=
  ∃ ev, extract_timestamp_from_filename h name = Ok (Some ev).

(** What the resort sweep may change between [st] and [st']: paths that
    are an end of a dated move, and rows for dated names. *)
Definition resorted (h : host) (to_sort_folder target_root : path)
    (st st' : state) : Prop :=
  (∀ q, files st' !! q = files st !! q ∨
        ∃ move, dated_move h to_sort_folder target_root move ∧
                (q = move.1 ∨ q = move.2)) ∧
  (∃ moves, moved st' = (moved st ++ moves)%list ∧
            Forall (dated_move h to_sort_folder target_root) moves) ∧
  (∃ rows, issues st' = (issues st ++ rows)%list ∧
           Forall (fun r => dated_name h (i_filename r)) rows) ∧
  (∃ rows, process_log st' = (process_log st ++ rows)%list ∧
           Forall (fun r => dated_name h (p_filename r)) rows).

(** The moves of a run and the rows of the process log it wrote agree. *)
Definition logged (st st' : state) : Prop :=
  ∃ news,
    moved st' = (moved st ++ news)%list ∧
    process_log st' = (process_log st ++ (process_event <$> news))%list.

(** C10 as the claim words it: whatever the host, the rows a run adds to
    the process log are the moves completed during it. *)
Definition moves_are_logged (h : host) : Prop :=
  ∀ walk target st, logged st (main_sweeps h walk target st).2.

(** Only the audit tables differ between the two states. *)
Definition audit_only (st st' : state) : Prop :=
  files st' = files st ∧ dirs st' = dirs st ∧ moved st' = moved st ∧
  io_tick st' = io_tick st ∧
  (∃ rows, process_log st' = (process_log st ++ rows)%list) ∧
  (∃ rows, issues st' = (issues st ++ rows)%list).

(** ** Sample hosts and files *)

Module Sample.

Definition ends_with (suffix s : string) : bool :=
  String.prefix (String.rev suffix) (String.rev s).

Definition mime (p : path) : option string :=
  if ends_with ".jpg" (basename p) then Some "image/jpeg"
  else if ends_with ".mp4" (basename p) then Some "video/mp4"
  else None.

Definition tags (tag_id : N) : option string :=
  if tag_id =? 36867 then Some "DateTimeOriginal" else None.

(** The messages of the sample hosts: the name of the class. *)
Definition class_name (e : exn) : string :=
  match e with
  | OSError => "OSError"
  | FileNotFoundError => "FileNotFoundError"
  | FileExistsError => "FileExistsError"
  | ImportError => "ImportError"
  | SubprocessError => "SubprocessError"
  | JSONDecodeError => "JSONDecodeError"
  | ValueError => "ValueError"
  | TypeError => "TypeError"
  | KeyError => "KeyError"
  | AttributeError => "AttributeError"
  | UnboundLocalError => "UnboundLocalError"
  | UnicodeEncodeError => "UnicodeEncodeError"
  | SqliteError => "sqlite3.Error"
  | OtherError name => name
  end.

(** A host in month [year]-[month] without ffprobe, whose failed moves
    leave nothing behind. *)
Definition host_at (year month : N) (io : nat -> option exn)
    (db : nat -> string -> option exn) : host :=
  {| now_year := year; now_month := month;
     guess_type := mime; TAGS := tags;
     ffprobe_installed := false;
     json_loads := fun _ => None;
     strptime := fun _ _ => None;
     message := class_name;
     io_fault := io; io_leftover := fun _ => Untouched; db_fault := db |}.

Definition quiet : host := host_at 2024 6 (fun _ => None) (fun _ _ => None).

(** Every file-system call fails. *)
Definition readonly : host := host_at 2024 6 (fun _ => Some OSError) (fun _ _ => None).

(** The database refuses every insertion (it is locked). *)
Definition deaf : host := host_at 2024 6 (fun _ => None) (fun _ _ => Some SqliteError).

(** Every file-system call fails and the database refuses every insertion. *)
Definition stuck : host :=
  host_at 2024 6 (fun _ => Some OSError) (fun _ _ => Some SqliteError).

(** The database cannot encode the rows of the file called [name]. *)
Definition picky (name : string) : host :=
  host_at 2024 6 (fun _ => None)
    (fun _ row => if bool_decide (row = name) then Some UnicodeEncodeError else None).

(** The source folder is read-only: of every move the copy is made and
    the source cannot be removed. *)
Definition sticky : host :=
  {| now_year := 2024; now_month := 6;
     guess_type := mime; TAGS := tags;
     ffprobe_installed := false;
     json_loads := fun _ => None;
     strptime := fun _ _ => None;
     message := class_name;
     io_fault := fun _ => Some OSError; io_leftover := fun _ => Copied;
     db_fault := fun _ _ => None |}.

Definition may_2019 : datetime := {| dt_year := 2019; dt_month := 5; dt_valid := I |}.

(** A file without metadata, last changed in May 2019. *)
Definition blank (n : nat) : file :=
  {| content := n; image := Exif None; container := NoParser;
     ffprobe := Completed 1 "";
     st_ctime := may_2019; st_mtime := may_2019 |}.

Definition photo (n : nat) (taken : string) : file :=
  {| content := n; image := Exif (Some [(271, ExifText "ACME"); (36867, ExifText taken)]);
     container := NoParser; ffprobe := Completed 1 "";
     st_ctime := may_2019; st_mtime := may_2019 |}.


(** One clip without container metadata. *)
Definition clips : gmap path file := {[ ["src"; "c.mp4"] := blank 3 ]}.

(** A text file. *)
Definition notes : gmap path file := {[ ["src"; "notes.txt"] := blank 4 ]}.

(** Two text files of the same name in two source folders. *)
Definition twins : gmap path file :=
  {[ ["src"; "a"; "x.txt"] := blank 1; ["src"; "b"; "x.txt"] := blank 2 ]}.

(** The holding folder with one dated and one undated name. *)
Definition holding : gmap path file :=
  {[ ["out"; "to_sort"; "holiday.jpg"] := blank 5;
     ["out"; "to_sort"; "IMG_20230714.jpg"] := blank 6 ]}.

(** One photograph taken in March 2021. *)
Definition album : gmap path file :=
  {[ ["src"; "a.jpg"] := photo 1 "2021:03:15 10:00:00" ]}.

Definition disk (fs : gmap path file) : state :=
  {| files := fs;
     dirs := {[ ["out"]; ["out"; "to_sort"]; ["out"; "unprocessable"] ]};
     moved := []; process_log := []; issues := []; io_tick := 0; db_tick := 0 |}.

End Sample.

(** ** Further code and vocabulary *)

(** [is_network_path]: [system] is what [platform.system()] answers. *)
Definition is_network_path (system : string) (path : string) : bool :=
  if bool_decide (system = "Windows") then Py.startswith path "\\" else false.

(** What of a state is on the disk: files, folders, the journal of moves
    and the count of file-system calls. *)
Definition on_disk (st : state) : gmap path file * gset path * list (path * path) * nat :=
  (files st, dirs st, moved st, io_tick st).

(** The host with another behaviour of the audit database. *)
Definition with_db (h : host) (db : nat -> string -> option exn) : host :=
  {| now_year := now_year h; now_month := now_month h;
     guess_type := guess_type h; TAGS := TAGS h;
     ffprobe_installed := ffprobe_installed h;
     json_loads := json_loads h; strptime := strptime h;
     message := message h;
     io_fault := io_fault h; io_leftover := io_leftover h; db_fault := db |}.

(** Two statements that, run on states with the same disk, give the same
    result and leave the same disk. *)
Definition same_on_disk {A : Type} (c c' : M A) : Prop :=
  ∀ st st', on_disk st = on_disk st' →
            (c st).1 = (c' st').1 ∧ on_disk (c st).2 = on_disk (c' st').2.

(** Every run of [c] relates the state before to the state after. *)
Definition keeps {A : Type} (R : state → state → Prop) (c : M A) : Prop :=
  ∀ st r st', c st = (r, st') → R st st'.

(** Nothing is created, copied or removed from the folders: each file
    after was a file before, there are no more files than before, and
    every folder is still there. *)
Definition conserved (st st' : state) : Prop :=
  (∀ q f, files st' !! q = Some f → ∃ q', files st !! q' = Some f) ∧
  (size (files st') ≤ size (files st))%nat ∧
  dirs st ⊆ dirs st'.

(** The tables and the journal only grow at their ends. *)
Definition appended (st st' : state) : Prop :=
  (∃ rows, process_log st' = (process_log st ++ rows)%list) ∧
  (∃ rows, issues st' = (issues st ++ rows)%list) ∧
  (∃ moves, moved st' = (moved st ++ moves)%list) ∧
  (io_tick st ≤ io_tick st')%nat ∧ (db_tick st ≤ db_tick st')%nat.

(** No file-system call of the host fails. *)
Definition io_reliable (h : host) : Prop := ∀ n, io_fault h n = None.

(** A move that fails leaves nothing behind. *)
Definition moves_atomic (h : host) : Prop := ∀ n, io_leftover h n = Untouched.

(** A warning row for a file, whatever its text. *)
Definition warning_issue (name : string) (code : Z) (r : issue_row) : Prop :=
  i_filename r = name ∧ i_warning_code r = Some code ∧ i_error_code r = None.

(** One photograph without any date in it. *)
Definition undated : gmap path file := {[ ["src"; "d.jpg"] := Sample.blank 7 ]}.

(** The two rows of the resort sweep for a file called [name]. *)
Definition resorted_issue (name year month : string) : issue_row :=
  {| i_filename := name;
     i_warning_code := Some WarningCodes.NO_DATE_METADATA;
     i_error_code := None;
     i_description := "Moved based on filename timestamp: " ++ year ++ "-" ++ month |}.

Definition resort_failed_issue (h : host) (name : string) (e : exn) : issue_row :=
  {| i_filename := name;
     i_warning_code := None;
     i_error_code := Some ErrorCodes.MOVE_ERROR;
     i_description := "Failed to move file from to_sort folder: " ++ message h e |}.

(** What the handling of the file at [x] may do to the files: paths
    with another name keep what they hold; the file is still at [x], or
    it is gone from there and some path with its name holds it; and
    nothing changes once there is no file at [x]. *)
Definition own_name (x : path) (st st' : state) : Prop :=
  (∀ q, basename q ≠ basename x → files st' !! q = files st !! q) ∧
  (∀ f, files st !! x = Some f →
        files st' !! x = Some f ∨
        (files st' !! x = None ∧
         ∃ q, basename q = basename x ∧ files st' !! q = Some f)) ∧
  (files st !! x = None → files st' = files st).

(** The first of the three fields of the hachoir metadata that is there. *)
Definition first_field (attrs : list (string * attr)) : option attr :=
  match getattr attrs "creation_date" with
  | Some a => Some a
  | None =>
      match getattr attrs "datetime_original" with
      | Some a => Some a
      | None => getattr attrs "creation_datetime"
      end
  end.

(** A host with ffprobe whose output is always parsed as [data]. *)
Definition probing (data : option json) : host :=
  {| now_year := 2024; now_month := 6;
     guess_type := Sample.mime; TAGS := Sample.tags;
     ffprobe_installed := true;
     json_loads := fun _ => data;
     strptime := fun s fmt =>
       if bool_decide (fmt = "%Y-%m-%d %H:%M:%S") then
         Some {| dt_year := 2018; dt_month := 11; dt_valid := I |}
       else None;
     message := Sample.class_name;
     io_fault := fun _ => None; io_leftover := fun _ => Untouched;
     db_fault := fun _ _ => None |}.

(** A clip whose container has the given fields and on which ffprobe
    exits with [returncode]. *)
Definition clip (attrs : option (list (string * attr))) (returncode : Z) : file :=
  {| content := 8; image := Exif None;
     container := match attrs with Some l => Metadata l | None => NoParser end;
     ffprobe := Completed returncode "{}";
     st_ctime := {| dt_year := 1970; dt_month := 1; dt_valid := I |};
     st_mtime := Sample.may_2019 |}.

Definition two_fields : list (string * attr) :=
  [("creation_datetime", AttrOther);
   ("datetime_original", AttrDate {| dt_year := 2017; dt_month := 2; dt_valid := I |})].

Definition tagged_clips : gmap path file :=
  {[ ["src"; "e.mp4"] := clip (Some two_fields) 0 ]}.

Definition bare_clips : gmap path file := {[ ["src"; "e.mp4"] := clip None 0 ]}.

(** What ffprobe prints for a file whose container tags hold [value] as
    creation time. *)
Definition probe_output (value : json) : json :=
  JDict [("streams", JList []);
         ("format", JDict [("filename", JStr "e.mp4");
                           ("tags", JDict [("creation_time", value)])])].

(** One photograph without metadata whose name carries a date. *)
Definition unsorted_photo : gmap path file :=
  {[ ["src"; "IMG_20230714.jpg"] := Sample.blank 9 ]}.

(** Two text files of different names in two source folders. *)
Definition two_notes : gmap path file :=
  {[ ["src"; "a"; "x.txt"] := Sample.blank 1; ["src"; "b"; "y.txt"] := Sample.blank 2 ]}.

(** The number of decimal digits in a text. *)
Fixpoint digit_count (s : string) : nat :=
  match s with
  | EmptyString => O
  | String c s' => ((if Py.is_digit c then 1 else 0) + digit_count s')%nat
  end.




(** A text file whose name the database cannot encode, and one it can. *)
Definition odd_and_even : gmap path file :=
  {[ ["src"; "odd.txt"] := Sample.blank 1; ["src"; "even.txt"] := Sample.blank 2 ]}.

(** The answer of the last strategy of the video extractor. *)
Definition file_times (f : file) : option evidence :=
  if 1980 <? dt_year (st_ctime f) then Some (date_evidence (st_ctime f))
  else if 1980 <? dt_year (st_mtime f) then Some (date_evidence (st_mtime f))
  else None.

(** * Properties *)

(** ** Loops with early return *)

Lemma for_first_None {A B} (body : A → result (option B)) (l : list A) :
  for_first body l = Ok None ↔ ∀ x, x ∈ l → body x = Ok None.
Proof.
  induction l as [|x l IH]; simpl.
  - split; [intros _ x Hx; by apply elem_of_nil in Hx | done].
  - destruct (body x) as [[b|]|e] eqn:E.
    + split; [discriminate|]. intros H.
      specialize (H x ltac:(left)). congruence.
    + rewrite IH. split.
      * intros H y Hy. apply elem_of_cons in Hy as [->|Hy]; auto.
      * intros H y Hy. apply H. by right.
    + split; [discriminate|]. intros H.
      specialize (H x ltac:(left)). congruence.
Qed.

Lemma for_first_Some {A B} (body : A → result (option B)) (l : list A) (b : B) :
  for_first body l = Ok (Some b) ↔
  ∃ i x, l !! i = Some x ∧ body x = Ok (Some b) ∧
         ∀ j y, (j < i)%nat → l !! j = Some y → body y = Ok None.
Proof.
  induction l as [|x l IH]; simpl.
  - split; [discriminate|]. intros (i & x & Hi & _). by rewrite lookup_nil in Hi.
  - destruct (body x) as [[b'|]|e] eqn:E.
    + split.
      * intros [= ->]. exists O, x. repeat split; auto. intros; lia.
      * intros (i & y & Hi & Hy & Hlt). destruct i as [|i].
        -- simpl in Hi. injection Hi as <-. congruence.
        -- specialize (Hlt O x ltac:(lia) eq_refl). congruence.
    + rewrite IH. split.
      * intros (i & y & Hi & Hy & Hlt). exists (S i), y. repeat split; auto.
        intros [|j] z Hj Hz; simpl in Hz; [congruence|].
        apply (Hlt j); [lia|done].
      * intros (i & y & Hi & Hy & Hlt). destruct i as [|i].
        -- simpl in Hi. injection Hi as <-. congruence.
        -- exists i, y. repeat split; auto.
           intros j z Hj Hz. apply (Hlt (S j)); [lia|done].
    + split; [discriminate|].
      intros (i & y & Hi & Hy & Hlt). destruct i as [|i].
      * simpl in Hi. injection Hi as <-. congruence.
      * specialize (Hlt O x ltac:(lia) eq_refl). congruence.
Qed.


Lemma for_first_no_raise {A B} (body : A → result (option B)) (l : list A) :
  (∀ x e, x ∈ l → body x ≠ Raise e) → ∀ e, for_first body l ≠ Raise e.
Proof.
  induction l as [|x l IH]; simpl; intros H e; [done|].
  destruct (body x) as [[b|]|e'] eqn:E; [done| |].
  - apply IH. intros y e' Hy. apply H. by right.
  - exfalso. eapply (H x e'); [by left|done].
Qed.

(** A relation that every iteration keeps holds across the loop, also
    when an iteration raises. *)
Lemma for_each_preserves {A} (R : state → state → Prop) (body : A → M unit)
    (l : list A) :
  (∀ st, R st st) →
  (∀ st1 st2 st3, R st1 st2 → R st2 st3 → R st1 st3) →
  (∀ x st r st', body x st = (r, st') → R st st') →
  ∀ st r st', for_each l body st = (r, st') → R st st'.
Proof.
  intros Hrefl Htrans Hbody. induction l as [|x l IH]; intros st r st'; cbn [for_each].
  - intros [= <- <-]. apply Hrefl.
  - unfold bind. destruct (body x st) as [[[]|e] st1] eqn:E.
    + intros H. eapply Htrans; [by eapply Hbody|by eapply IH].
    + intros [= <- <-]. by eapply Hbody.
Qed.

(** ** Decimal text *)

Lemma digit_char_is_digit (d : N) : d < 10 → Py.is_digit (Py.digit_char d) = true.
Proof.
  intros H. destruct d as [|p]; [reflexivity|].
  do 4 (destruct p as [p|p|]; try reflexivity; try lia).
Qed.

Lemma digits_all_digits (fuel : nat) (n : N) (acc : string) :
  all_digits acc = true → all_digits (Py.digits fuel n acc) = true.
Proof.
  revert n acc. induction fuel as [|fuel IH]; intros n acc Hacc; simpl.
  - rewrite digit_char_is_digit by (apply N.mod_lt; lia). done.
  - destruct (n <? 10).
    + simpl. rewrite digit_char_is_digit by (apply N.mod_lt; lia). done.
    + apply IH. simpl. rewrite digit_char_is_digit by (apply N.mod_lt; lia). done.
Qed.

Lemma digits_length (fuel : nat) (n : N) (acc : string) :
  (String.length acc < String.length (Py.digits fuel n acc))%nat.
Proof.
  revert n acc. induction fuel as [|fuel IH]; intros n acc; simpl.
  - lia.
  - destruct (n <? 10); simpl; [lia|].
    specialize (IH (n / 10) (String (Py.digit_char (n mod 10)) acc)). simpl in IH. lia.
Qed.

Lemma str_all_digits (n : N) : all_digits (Py.str n) = true.
Proof. by apply digits_all_digits. Qed.

Lemma str_nonempty (n : N) : (1 ≤ String.length (Py.str n))%nat.
Proof. pose proof (digits_length (N.to_nat (N.log2 n)) n ""). simpl in *. unfold Py.str. lia. Qed.

Lemma fmt_02d_all_digits (n : N) : all_digits (Py.fmt_02d n) = true.
Proof.
  unfold Py.fmt_02d. destruct (n <? 10); simpl; rewrite ?str_all_digits; done.
Qed.

Lemma fmt_02d_length (n : N) : (2 ≤ String.length (Py.fmt_02d n))%nat.
Proof.
  unfold Py.fmt_02d. destruct (n <? 10) eqn:E; simpl.
  - pose proof (str_nonempty n). lia.
  - apply N.ltb_ge in E. unfold Py.str.
    assert (3 ≤ N.log2 n) as Hlog.
    { change 3 with (N.log2 8). apply N.log2_le_mono. lia. }
    destruct (N.to_nat (N.log2 n)) as [|fuel] eqn:F; [lia|].
    simpl. apply N.ltb_ge in E. rewrite E.
    pose proof (digits_length fuel (n / 10) (String (Py.digit_char (n mod 10)) "")).
    simpl in *. lia.
Qed.

Lemma fmt_02d_small (n : N) : n < 100 → String.length (Py.fmt_02d n) = 2%nat.
Proof.
  intros H. assert (Hn : (N.to_nat n < 100)%nat) by lia.
  rewrite <- (N2Nat.id n). generalize dependent (N.to_nat n). clear.
  intros k Hk. do 100 (destruct k as [|k]; [reflexivity|]). lia.
Qed.

Example text_examples :
  Py.str 2021 = "2021" ∧ Py.str 0 = "0" ∧ Py.int "03" = 3 ∧
  Py.fmt_02d 7 = "07" ∧ Py.fmt_02d 12 = "12".
Proof. repeat split. Qed.

(** ** Matching *)

Lemma take_rep_length (c : Re.cls) (n : nat) (s m rest : string) :
  Re.take_rep c n s = Some (m, rest) → String.length m = n ∧ s = m ++ rest.
Proof.
  revert s m rest. induction n as [|n IH]; intros s m rest; simpl.
  - intros [= <- <-]. done.
  - destruct s as [|a s]; [done|]. destruct (Re.cls_matches c a); [|done].
    destruct (Re.take_rep c n s) as [[m' rest']|] eqn:E; [|done].
    intros [= <- <-]. apply IH in E as [E1 E2]. subst. done.
Qed.

Lemma take_rep_digits (n : nat) (s m rest : string) :
  Re.take_rep Re.Digit n s = Some (m, rest) → is_digits n m = true.
Proof.
  revert s m rest. induction n as [|n IH]; intros s m rest; simpl.
  - intros [= <- <-]. done.
  - destruct s as [|a s]; [done|]. destruct (Py.is_digit a) eqn:D; [|done].
    destruct (Re.take_rep Re.Digit n s) as [[m' rest']|] eqn:E; [|done].
    intros [= <- <-]. apply IH in E. unfold is_digits in *. simpl. by rewrite D.
Qed.

Lemma take_rep_digits_intro (n : nat) (m rest : string) :
  is_digits n m = true → Re.take_rep Re.Digit n (m ++ rest) = Some (m, rest).
Proof.
  revert m. induction n as [|n IH]; intros m; unfold is_digits.
  - destruct m; [done|]. simpl. done.
  - destruct m as [|a m]; [done|]. simpl.
    intros H. apply andb_true_iff in H as [H1 H2].
    apply andb_true_iff in H2 as [H2 H3]. rewrite H2.
    rewrite IH; [done|]. unfold is_digits. by rewrite H1, H3.
Qed.

Lemma match_here_groups (p : Re.pattern) (s : string) (gs : list string) :
  Re.match_here p s = Some gs → length gs = Re.groups p.
Proof.
  revert s gs. induction p as [|[c n|body] p IH]; intros s gs; simpl.
  - by intros [= <-].
  - destruct (Re.take_rep c n s) as [[m rest]|]; [|done]. apply IH.
  - destruct (Re.take_body body s) as [[m rest]|]; [|done].
    destruct (Re.match_here p rest) as [gs'|] eqn:E; [|done].
    intros [= <-]. simpl. f_equal. by eapply IH.
Qed.

Lemma search_groups (p : Re.pattern) (s : string) (gs : list string) :
  Re.search p s = Some gs → length gs = Re.groups p.
Proof.
  induction s as [|a s IH]; simpl.
  - destruct (Re.match_here p "") eqn:E; [|done].
    intros [= <-]. by eapply match_here_groups.
  - destruct (Re.match_here p (String a s)) eqn:E.
    + intros [= <-]. by eapply match_here_groups.
    + done.
Qed.

(** [re.search] finds a match exactly when the pattern matches at the head
    of some suffix, and it reports the leftmost one. *)
Lemma search_here (p : Re.pattern) (s : string) (gs : list string) :
  Re.match_here p s = Some gs → Re.search p s = Some gs.
Proof. intros H. destruct s; simpl; by rewrite H. Qed.

Lemma search_Some (p : Re.pattern) (s : string) (gs : list string) :
  Re.search p s = Some gs →
  ∃ before after, s = before ++ after ∧ Re.match_here p after = Some gs.
Proof.
  induction s as [|a s IH]; simpl.
  - destruct (Re.match_here p "") eqn:E; [|done].
    intros [= <-]. by exists "", "".
  - destruct (Re.match_here p (String a s)) eqn:E.
    + intros [= <-]. by exists "", (String a s).
    + intros H. apply IH in H as (before & after & -> & H).
      by exists (String a before), after.
Qed.

Lemma search_None (p : Re.pattern) (before after : string) :
  Re.search p (before ++ after) = None → Re.match_here p after = None.
Proof.
  induction before as [|a before IH]; simpl.
  - destruct after; simpl; destruct (Re.match_here p _); done.
  - destruct (Re.match_here p (String a (before ++ after))); [done|]. apply IH.
Qed.

Lemma append_cons (a : ascii) (s t : string) : String a s ++ t = String a (s ++ t).
Proof. reflexivity. Qed.

Lemma append_empty_r (s : string) : s ++ "" = s.
Proof. induction s as [|a s IH]; [done|]. by rewrite append_cons, IH. Qed.

Lemma take_group_digits (n : nat) (s m rest : string) :
  Re.take_body [(Re.Digit, n)] s = Some (m, rest) ↔
  is_digits n m = true ∧ s = m ++ rest.
Proof.
  simpl. split.
  - destruct (Re.take_rep Re.Digit n s) as [[m' rest']|] eqn:E; [|done].
    intros [= <- <-]. rewrite append_empty_r. split.
    + by eapply take_rep_digits.
    + by apply take_rep_length in E as [_ ->].
  - intros [Hm ->]. rewrite take_rep_digits_intro by done.
    by rewrite append_empty_r.
Qed.

Lemma take_lit (c : ascii) (s m rest : string) :
  Re.take_rep (Re.Lit c) 1 s = Some (m, rest) ↔ m = String c "" ∧ s = String c rest.
Proof.
  simpl. destruct s as [|a s]; [split; [done|by intros [_ [=]]]|].
  destruct (Ascii.eqb a c) eqn:E.
  - apply Ascii.eqb_eq in E as ->. split.
    + by intros [= <- <-].
    + by intros [-> [= ->]].
  - split; [done|]. intros [_ [= -> _]]. by rewrite Ascii.eqb_refl in E.
Qed.

(** ** Text of two and of four digits *)

Lemma is_digit_cases (c : ascii) :
  Py.is_digit c = true →
  In c ["0"; "1"; "2"; "3"; "4"; "5"; "6"; "7"; "8"; "9"]%char.
Proof.
  destruct c as [[] [] [] [] [] [] [] []]; intros H; vm_compute in H;
    try discriminate H; simpl; tauto.
Qed.

Lemma two_digits_checked :
  forallb (fun a => forallb (fun b =>
    String.eqb (Py.fmt_02d (Py.int (String a (String b "")))) (String a (String b "")))
    ["0"; "1"; "2"; "3"; "4"; "5"; "6"; "7"; "8"; "9"]%char)
    ["0"; "1"; "2"; "3"; "4"; "5"; "6"; "7"; "8"; "9"]%char = true.
Proof. vm_compute. reflexivity. Qed.

Lemma four_digits_checked :
  forallb (fun a => forallb (fun b => forallb (fun c => forallb (fun d =>
    (Py.int (String a (String b (String c (String d "")))) <? 1000) ||
    String.eqb (Py.str (Py.int (String a (String b (String c (String d ""))))))
               (String a (String b (String c (String d "")))))
    ["0"; "1"; "2"; "3"; "4"; "5"; "6"; "7"; "8"; "9"]%char)
    ["0"; "1"; "2"; "3"; "4"; "5"; "6"; "7"; "8"; "9"]%char)
    ["0"; "1"; "2"; "3"; "4"; "5"; "6"; "7"; "8"; "9"]%char)
    ["0"; "1"; "2"; "3"; "4"; "5"; "6"; "7"; "8"; "9"]%char = true.
Proof. vm_compute. reflexivity. Qed.

(** [f"{int(mm):02d}"] gives back a text of two digits. *)
Lemma fmt_int_two_digits (mm : string) :
  is_digits 2 mm = true → Py.fmt_02d (Py.int mm) = mm.
Proof.
  unfold is_digits. destruct mm as [|a [|b [|c mm]]]; try discriminate.
  simpl. intros H.
  apply andb_true_iff in H as [Ha H]. apply andb_true_iff in H as [Hb _].
  apply is_digit_cases in Ha, Hb.
  pose proof two_digits_checked as Hall.
  rewrite forallb_forall in Hall. specialize (Hall a Ha).
  rewrite forallb_forall in Hall. specialize (Hall b Hb).
  by apply String.eqb_eq in Hall.
Qed.

(** [str(int(yyyy))] gives back a text of four digits from 1000 on. *)
Lemma str_int_four_digits (yyyy : string) :
  is_digits 4 yyyy = true → 1000 ≤ Py.int yyyy → Py.str (Py.int yyyy) = yyyy.
Proof.
  unfold is_digits. destruct yyyy as [|a [|b [|c [|d [|e yyyy]]]]]; try discriminate.
  simpl. intros H Hge.
  apply andb_true_iff in H as [Ha H]. apply andb_true_iff in H as [Hb H].
  apply andb_true_iff in H as [Hc H]. apply andb_true_iff in H as [Hd _].
  apply is_digit_cases in Ha, Hb, Hc, Hd.
  pose proof four_digits_checked as Hall.
  rewrite forallb_forall in Hall. specialize (Hall a Ha).
  rewrite forallb_forall in Hall. specialize (Hall b Hb).
  rewrite forallb_forall in Hall. specialize (Hall c Hc).
  rewrite forallb_forall in Hall. specialize (Hall d Hd).
  apply orb_true_iff in Hall as [Hlt|Heq].
  - apply N.ltb_lt in Hlt. lia.
  - by apply String.eqb_eq in Heq.
Qed.

Ltac split_match H :=
  repeat match type of H with
  | context [Re.take_body ?b ?s] =>
      let E := fresh "E" in
      destruct (Re.take_body b s) as [[? ?]|] eqn:E; [|discriminate H];
      apply take_group_digits in E as [E _]
  | context [Re.take_rep ?c ?n ?s] =>
      destruct (Re.take_rep c n s) as [[? ?]|]; [|discriminate H]
  end.

(** Every pattern but the second captures four digits and then two. *)
Lemma year_first_groups (q : Re.pattern) (s yyyy mm : string) :
  q ∈ patterns → q ≠ dmy_pattern →
  Re.match_here q s = Some [yyyy; mm] →
  is_digits 4 yyyy = true ∧ is_digits 2 mm = true.
Proof.
  unfold patterns. rewrite !elem_of_cons, elem_of_nil.
  intros [->|[->|[->|[->|[->|[]]]]]] Hq H; [|done| | |];
    unfold ymd_pattern, compact_pattern, img_pattern, vid_pattern,
           Re.d, Re.sep, Re.g, Re.lit in H;
    cbn [Re.match_here] in H; split_match H;
    injection H as <- <-; done.
Qed.

(** ** Filename extractor *)

Lemma try_pattern_Some (h : host) (filename : string) (q : Re.pattern) (ev : evidence) :
  try_pattern h filename q = Ok (Some ev) ↔
  ∃ year month,
    Re.search q filename = Some [year; month] ∧
    not_future h (Py.int year) (Py.int month) = true ∧
    ev = (Py.str (Py.int year), Py.fmt_02d (Py.int month)).
Proof.
  unfold try_pattern.
  destruct (Re.search q filename) as [[|y [|m [|x gs]]]|]; split;
    try discriminate; try (intros (? & ? & [=] & _); fail).
  - destruct (not_future h (Py.int y) (Py.int m)) eqn:E; [|done].
    intros [= <-]. by exists y, m.
  - intros (y' & m' & [= <- <-] & -> & ->). done.
Qed.

Lemma try_pattern_None (h : host) (filename : string) (q : Re.pattern) :
  try_pattern h filename q = Ok None ↔ skipped h filename q.
Proof.
  unfold try_pattern, skipped.
  destruct (Re.search q filename) as [[|y [|m [|x gs]]]|]; split;
    try discriminate; try (intros [[=]|(? & ? & [=] & _)]; fail); auto.
  - destruct (not_future h (Py.int y) (Py.int m)) eqn:E; [done|].
    intros _. right. by exists y, m.
  - intros [[=]|(y' & m' & [= <- <-] & ->)]. done.
Qed.

Lemma patterns_two_groups (q : Re.pattern) : q ∈ patterns → Re.groups q = 2%nat.
Proof.
  unfold patterns. rewrite !elem_of_cons, elem_of_nil.
  intros [->|[->|[->|[->|[->|[]]]]]]; reflexivity.
Qed.

Lemma try_pattern_no_raise (h : host) (filename : string) (q : Re.pattern) (e : exn) :
  q ∈ patterns → try_pattern h filename q ≠ Raise e.
Proof.
  intros Hq. unfold try_pattern.
  destruct (Re.search q filename) as [gs|] eqn:E; [|done].
  apply search_groups in E. rewrite (patterns_two_groups q Hq) in E.
  destruct gs as [|y [|m [|x gs]]]; try discriminate.
  destruct (not_future _ _ _); done.
Qed.

Lemma extract_no_raise (h : host) (filename : string) (e : exn) :
  extract_timestamp_from_filename h filename ≠ Raise e.
Proof.
  apply for_first_no_raise. intros q e' Hq. by apply try_pattern_no_raise.
Qed.

Lemma dmy_pattern_groups (s : string) (gs : list string) :
  Re.match_here dmy_pattern s = Some gs →
  ∃ mm yyyy, gs = [mm; yyyy] ∧ is_digits 2 mm = true ∧ is_digits 4 yyyy = true.
Proof.
  unfold dmy_pattern, Re.d, Re.sep, Re.g. cbn [Re.match_here].
  destruct (Re.take_rep Re.Digit 2 s) as [[dd r1]|]; [|done].
  destruct (Re.take_rep _ 1 r1) as [[c1 r2]|]; [|done].
  destruct (Re.take_body _ r2) as [[mm r3]|] eqn:E3; [|done].
  apply take_group_digits in E3 as [Hm _].
  destruct (Re.take_rep _ 1 r3) as [[c2 r4]|]; [|done].
  destruct (Re.take_body _ r4) as [[yyyy r5]|] eqn:E5; [|done].
  apply take_group_digits in E5 as [Hy _].
  intros [= <-]. by exists mm, yyyy.
Qed.

(** C3 (the code departs from the claim): on a name that the first pattern
    does not match and the [DD-MM-YYYY] pattern does, the groups are the
    two-digit middle group and then the four-digit group, and the
    extractor unpacks them in that order as (year, month): the year it
    answers is the two-digit group and the month the four-digit one. *)
Theorem dmy_name_swaps_year_and_month (h : host) (filename mm yyyy : string) :
  Re.search ymd_pattern filename = None →
  Re.search dmy_pattern filename = Some [mm; yyyy] →
  is_digits 2 mm = true ∧ is_digits 4 yyyy = true ∧
  (not_future h (Py.int mm) (Py.int yyyy) = true →
   extract_timestamp_from_filename h filename
     = Ok (Some (Py.str (Py.int mm), Py.fmt_02d (Py.int yyyy)))).
Proof.
  intros H1 H2. split; [|split].
  - apply search_Some in H2 as (before & after & _ & H2).
    by apply dmy_pattern_groups in H2 as (? & ? & [= <- <-] & ? & ?).
  - apply search_Some in H2 as (before & after & _ & H2).
    by apply dmy_pattern_groups in H2 as (? & ? & [= <- <-] & ? & ?).
  - intros Hn. unfold extract_timestamp_from_filename, patterns.
    cbn [for_first]. unfold try_pattern at 1. rewrite H1.
    unfold try_pattern at 1. by rewrite H2, Hn.
Qed.

Lemma dmy_name_swaps_year_and_month_witness :
  extract_timestamp_from_filename Sample.quiet "15-03-2021.jpg"
    = Ok (Some ("3", "2021")).
Proof.
  apply (dmy_name_swaps_year_and_month Sample.quiet "15-03-2021.jpg" "03" "2021");
    reflexivity.
Defined.

Example img_name_2023_07 :
  extract_timestamp_from_filename Sample.quiet "IMG_20230714.jpg"
    = Ok (Some ("2023", "07")).
Proof. reflexivity. Qed.

(** C4 as stated fails: in [2099-01-01 20200101.jpg] the first pattern that
    matches reads 2099-01, a future month in June 2024, yet the extractor
    goes on to the third pattern and answers ("2020", "01"). *)
Lemma future_first_match_is_not_final : ¬ first_match_decides Sample.quiet.
Proof.
  intros H.
  specialize (H "2099-01-01 20200101.jpg" "2099" "01" eq_refl eq_refl).
  vm_compute in H. discriminate.
Qed.

Lemma dmy_or_not (q : Re.pattern) : q ∈ patterns → q = dmy_pattern ∨ q ≠ dmy_pattern.
Proof.
  unfold patterns. rewrite !elem_of_cons, elem_of_nil.
  intros [->|[->|[->|[->|[->|[]]]]]]; (by left) || (right; discriminate).
Qed.

(** C4 (amended): the patterns are tried in the order of the list.  A
    match of [YYYY-MM-DD] that is not later than the current month
    decides.  For a name that [DD-MM-YYYY] does not match, every match
    is four digits of year and two of month, the result is that of the
    first pattern whose match is not later than the current month, a
    match that lies in the future being passed over like no match, and
    the answer is [None] exactly when every pattern is passed over.  The
    extractor never raises. *)
Theorem first_accepted_pattern_decides (h : host) (filename : string) :
  (∀ yyyy mm,
     Re.search ymd_pattern filename = Some [yyyy; mm] →
     not_future h (Py.int yyyy) (Py.int mm) = true →
     extract_timestamp_from_filename h filename
       = Ok (Some (Py.str (Py.int yyyy), Py.fmt_02d (Py.int mm)))) ∧
  (Re.search dmy_pattern filename = None →
     (∀ ev,
        extract_timestamp_from_filename h filename = Ok (Some ev) ↔
        ∃ i q yyyy mm,
          patterns !! i = Some q ∧ q ≠ dmy_pattern ∧
          Re.search q filename = Some [yyyy; mm] ∧
          is_digits 4 yyyy = true ∧ is_digits 2 mm = true ∧
          not_future h (Py.int yyyy) (Py.int mm) = true ∧
          ev = (Py.str (Py.int yyyy), Py.fmt_02d (Py.int mm)) ∧
          ∀ j q', (j < i)%nat → patterns !! j = Some q' → q' ≠ dmy_pattern →
                  skipped h filename q') ∧
     (extract_timestamp_from_filename h filename = Ok None ↔
        ∀ q, q ∈ patterns → q ≠ dmy_pattern → skipped h filename q)) ∧
  (∀ e, extract_timestamp_from_filename h filename ≠ Raise e).
Proof.
  split; [|split; [|apply extract_no_raise]].
  - intros yyyy mm Hs Hn. unfold extract_timestamp_from_filename, patterns.
    cbn [for_first]. unfold try_pattern at 1. by rewrite Hs, Hn.
  - intros Hd.
    assert (Hdmy : ∀ q, q = dmy_pattern → skipped h filename q)
      by (intros q ->; by left).
    unfold extract_timestamp_from_filename. split; [intros ev; split|split].
    + rewrite for_first_Some. intros (i & q & Hi & Hq & Hlt).
      apply try_pattern_Some in Hq as (y & m & Hs & Hn & ->).
      assert (Hne : q ≠ dmy_pattern) by (intros ->; congruence).
      pose proof Hs as Hs'. apply search_Some in Hs' as (before & after & _ & Hm).
      apply year_first_groups in Hm as [Hy4 Hm2];
        [|by eapply list_elem_of_lookup_2|done].
      exists i, q, y, m. repeat split; auto.
      intros j q' Hj Hq' _. apply try_pattern_None. by eapply Hlt.
    + intros (i & q & y & m & Hi & Hne & Hs & _ & _ & Hn & -> & Hlt).
      apply for_first_Some. exists i, q. repeat split; auto.
      * apply try_pattern_Some. by exists y, m.
      * intros j q' Hj Hq'. apply try_pattern_None.
        destruct (dmy_or_not q') as [Heq|Hne'];
          [by eapply list_elem_of_lookup_2|by apply Hdmy|].
        by eapply Hlt.
    + rewrite for_first_None. intros H q Hq _. apply try_pattern_None. by apply H.
    + intros H. apply for_first_None. intros q Hq. apply try_pattern_None.
      destruct (dmy_or_not q Hq) as [Heq|Hne]; [by apply Hdmy|].
      by apply H.
Qed.

(** ** The date pattern of the image extractor *)

Lemma date_pattern_here (s : string) (gs : list string) :
  Re.match_here date_pattern s = Some gs ↔
  ∃ yyyy mm, gs = [yyyy; mm] ∧ date_prefixed s yyyy mm.
Proof.
  unfold date_pattern, Re.g, Re.lit, Re.d, date_prefixed.
  cbn [Re.match_here]. split.
  - destruct (Re.take_body _ s) as [[yyyy r1]|] eqn:E1; [|done].
    apply take_group_digits in E1 as [Hy ->].
    destruct (Re.take_rep (Re.Lit ":") 1 r1) as [[c1 r2]|] eqn:E2; [|done].
    apply take_lit in E2 as [_ ->].
    destruct (Re.take_body _ r2) as [[mm r3]|] eqn:E3; [|done].
    apply take_group_digits in E3 as [Hm ->].
    destruct (Re.take_rep (Re.Lit ":") 1 r3) as [[c2 r4]|] eqn:E4; [|done].
    apply take_lit in E4 as [_ ->].
    destruct (Re.take_rep Re.Digit 2 r4) as [[dd r5]|] eqn:E5; [|done].
    pose proof (take_rep_digits _ _ _ _ E5) as Hd.
    apply take_rep_length in E5 as [_ ->].
    intros [= <-]. exists yyyy, mm. split; [done|]. by exists dd, r5.
  - intros (yyyy & mm & -> & dd & rest & -> & Hy & Hm & Hd).
    rewrite (proj2 (take_group_digits 4 _ yyyy (":" ++ mm ++ ":" ++ dd ++ rest)))
      by done.
    rewrite (proj2 (take_lit ":" _ ":" (mm ++ ":" ++ dd ++ rest))) by done.
    rewrite (proj2 (take_group_digits 2 _ mm (":" ++ dd ++ rest))) by done.
    rewrite (proj2 (take_lit ":" _ ":" (dd ++ rest))) by done.
    by rewrite take_rep_digits_intro.
Qed.

(** A tag that begins with the date is matched at position 0. *)
Lemma search_date_prefixed (v yyyy mm : string) :
  date_prefixed v yyyy mm → Re.search date_pattern v = Some [yyyy; mm].
Proof.
  intros H. apply search_here, date_pattern_here. by exists yyyy, mm.
Qed.

Lemma search_date_Some (v : string) (gs : list string) :
  Re.search date_pattern v = Some gs →
  ∃ yyyy mm, gs = [yyyy; mm] ∧ is_digits 4 yyyy = true ∧ is_digits 2 mm = true ∧
             date_inside v.
Proof.
  intros H. apply search_Some in H as (before & after & -> & H).
  apply date_pattern_here in H as (yyyy & mm & -> & H).
  exists yyyy, mm. repeat split.
  - by destruct H as (? & ? & _ & ? & _).
  - by destruct H as (? & ? & _ & _ & ? & _).
  - by exists before, after, yyyy, mm.
Qed.

Lemma search_date_None (v : string) :
  ¬ date_inside v → Re.search date_pattern v = None.
Proof.
  intros H. destruct (Re.search date_pattern v) as [gs|] eqn:E; [|done].
  exfalso. apply H. by apply search_date_Some in E as (? & ? & _ & _ & _ & ?).
Qed.

(** ** Image extractor *)

Lemma image_of_items (h : host) (fs : gmap path file) (p : path) (f : file)
    (items : list (N * exif_value)) :
  fs !! p = Some f → image f = Exif (Some items) →
  get_image_date_taken h fs p =
    match for_first (image_tag h) items with Ok r => r | Raise _ => None end.
Proof.
  intros Hp Hi. unfold get_image_date_taken, image_try. rewrite Hp, Hi.
  by destruct items.
Qed.

Lemma image_tag_other (h : host) (item : N * exif_value) :
  TAGS h item.1 ≠ Some "DateTimeOriginal" → image_tag h item = Ok None.
Proof.
  destruct item as [tag_id value]. unfold image_tag, is_DateTimeOriginal. simpl.
  intros H. by rewrite bool_decide_eq_false_2.
Qed.

(** The items of a dictionary have distinct keys, so the one item whose key
    the table names [DateTimeOriginal] decides the loop. *)
Lemma image_tag_decides (h : host) (items : list (N * exif_value))
    (tag_id : N) (value : exif_value) :
  NoDup items.*1 →
  (tag_id, value) ∈ items →
  (∀ other, TAGS h other = Some "DateTimeOriginal" → other = tag_id) →
  for_first (image_tag h) items = image_tag h (tag_id, value).
Proof.
  intros Hnd Hin Huniq.
  assert (Hothers : ∀ l : list (N * exif_value),
             tag_id ∉ l.*1 → for_first (image_tag h) l = Ok None).
  { intros l Hl. apply for_first_None. intros [k v] Hkv. apply image_tag_other.
    simpl. intros Hk. apply Huniq in Hk as ->. apply Hl.
    apply list_elem_of_fmap. by exists (tag_id, v). }
  induction items as [|[k v] items IH]; [by apply elem_of_nil in Hin|].
  apply NoDup_cons in Hnd as [Hk Hnd]. simpl in Hk.
  apply elem_of_cons in Hin as [[= <- <-]|Hin].
  - cbn [for_first]. rewrite (Hothers items Hk).
    by destruct (image_tag h (tag_id, value)) as [[?|]|?].
  - cbn [for_first]. rewrite image_tag_other.
    + by apply IH.
    + simpl. intros Hkt. apply Huniq in Hkt as ->. apply Hk.
      apply list_elem_of_fmap. by exists (tag_id, value).
Qed.

(** C8: an image whose [DateTimeOriginal] tag begins with [YYYY:MM:DD]
    yields exactly ([YYYY], [MM]), whatever follows the date; the
    extractor answers [None], and raises nothing, when opening the image
    fails, when it has no metadata, when the tag is absent, and when the
    tag is not text or holds no date. *)
Theorem image_date_taken (h : host) (fs : gmap path file) (p : path) (f : file) :
  fs !! p = Some f →
  (∀ items tag_id v yyyy mm,
     image f = Exif (Some items) → NoDup items.*1 →
     (tag_id, ExifText v) ∈ items →
     TAGS h tag_id = Some "DateTimeOriginal" →
     (∀ other, TAGS h other = Some "DateTimeOriginal" → other = tag_id) →
     date_prefixed v yyyy mm →
     get_image_date_taken h fs p = Some (yyyy, mm)) ∧
  (∀ e, image f = ImageRaises e → get_image_date_taken h fs p = None) ∧
  (image f = Exif None ∨ image f = Exif (Some []) →
     get_image_date_taken h fs p = None) ∧
  (∀ items,
     image f = Exif (Some items) →
     (∀ item, item ∈ items → TAGS h item.1 ≠ Some "DateTimeOriginal") →
     get_image_date_taken h fs p = None) ∧
  (∀ items tag_id value,
     image f = Exif (Some items) → NoDup items.*1 →
     (tag_id, value) ∈ items →
     TAGS h tag_id = Some "DateTimeOriginal" →
     (∀ other, TAGS h other = Some "DateTimeOriginal" → other = tag_id) →
     (∀ v, value = ExifText v → ¬ date_inside v) →
     get_image_date_taken h fs p = None).
Proof.
  intros Hp. repeat split.
  - intros items tag_id v yyyy mm Hi Hnd Hin Htag Huniq Hv.
    rewrite (image_of_items h fs p f items Hp Hi).
    rewrite (image_tag_decides h items tag_id (ExifText v) Hnd Hin Huniq).
    unfold image_tag, is_DateTimeOriginal.
    rewrite bool_decide_eq_true_2 by done.
    by rewrite (search_date_prefixed v yyyy mm Hv).
  - intros e Hi. unfold get_image_date_taken, image_try. by rewrite Hp, Hi.
  - intros [Hi|Hi]; unfold get_image_date_taken, image_try; by rewrite Hp, Hi.
  - intros items Hi Hnone. rewrite (image_of_items h fs p f items Hp Hi).
    replace (for_first (image_tag h) items) with (@Ok (option evidence) None); [done|].
    symmetry. apply for_first_None. intros item Hitem.
    apply image_tag_other. by apply Hnone.
  - intros items tag_id value Hi Hnd Hin Htag Huniq Hv.
    rewrite (image_of_items h fs p f items Hp Hi).
    rewrite (image_tag_decides h items tag_id value Hnd Hin Huniq).
    unfold image_tag, is_DateTimeOriginal.
    rewrite bool_decide_eq_true_2 by done.
    destruct value as [v|]; [|done].
    by rewrite (search_date_None v (Hv v eq_refl)).
Qed.

Lemma image_date_taken_witness :
  get_image_date_taken Sample.quiet Sample.album ["src"; "a.jpg"]
    = Some ("2021", "03").
Proof.
  apply (proj1 (image_date_taken Sample.quiet Sample.album ["src"; "a.jpg"]
                  (Sample.photo 1 "2021:03:15 10:00:00") eq_refl)
           [(271, ExifText "ACME"); (36867, ExifText "2021:03:15 10:00:00")]
           36867 "2021:03:15 10:00:00").
  - reflexivity.
  - apply (bool_decide_unpack _). vm_compute. exact I.
  - right. left.
  - reflexivity.
  - intros other. unfold TAGS, Sample.quiet, Sample.host_at, Sample.tags.
    destruct (N.eqb_spec other 36867); [done|discriminate].
  - exists "15", " 10:00:00". repeat split.
Defined.

(** ** Video extractor *)


Lemma dated_evidence (date : datetime) : dated (Ok (Some (date_evidence date))).
Proof. intros ev [= <-]. by exists date. Qed.

Lemma dated_None : dated (Ok None).
Proof. by intros ev. Qed.

Lemma dated_Raise (e : exn) : dated (Raise e).
Proof. by intros ev. Qed.

Create HintDb dated.
#[local] Hint Resolve dated_evidence dated_None dated_Raise : dated.









(** Without ffprobe the [except] clause itself fails. *)
Lemma ffprobe_absent (h : host) (f : file) :
  ffprobe_installed h = false → ffprobe_strategy h f = Raise UnboundLocalError.
Proof. intros H. unfold ffprobe_strategy, ffprobe_try. by rewrite H. Qed.

(** C2 (the code departs from the claim): on a host without ffprobe, a
    video in which hachoir finds no date gets no evidence, whatever its
    file times are: the failure of the tool is not swallowed by the inner
    handler, whose own clause raises [UnboundLocalError], the outer
    handler answers [None], and the fallback on the file times is never
    reached. *)
Theorem missing_ffprobe_skips_file_times (h : host) (fs : gmap path file)
    (p : path) (f : file) :
  fs !! p = Some f →
  ffprobe_installed h = false →
  hachoir_strategy f = Ok None →
  ffprobe_try h f = (Raise FileNotFoundError, false) ∧
  ffprobe_strategy h f = Raise UnboundLocalError ∧
  get_video_date_created h fs p = None.
Proof.
  intros Hp Hf Hh. split; [|split].
  - unfold ffprobe_try. by rewrite Hf.
  - by apply ffprobe_absent.
  - unfold get_video_date_created, video_try. by rewrite Hp, Hh, ffprobe_absent.
Qed.

Lemma missing_ffprobe_skips_file_times_witness :
  stat_strategy (Sample.blank 3) = Ok (Some ("2019", "05")) ∧
  get_video_date_created Sample.quiet Sample.clips ["src"; "c.mp4"] = None.
Proof.
  split; [reflexivity|].
  apply (missing_ffprobe_skips_file_times Sample.quiet Sample.clips
           ["src"; "c.mp4"] (Sample.blank 3)); reflexivity.
Defined.

(** ** Bounds of the evidence *)











(** ** Audit sink and file system calls *)

Lemma sink_reliable_quiet (h : host) : sink_reliable h → sink_quiet h.
Proof. intros H n name e He. by rewrite H in He. Qed.

Lemma log_issue_reliable (h : host) (filename : string) (w e : option Z)
    (description : string) (st : state) :
  sink_reliable h →
  log_issue h filename w e description st =
    (Ok tt, add_issue {| i_filename := filename; i_warning_code := w;
                         i_error_code := e; i_description := description |}
              (db_step st)).
Proof. intros H. unfold log_issue, try_except, db_insert. by rewrite H. Qed.

Lemma log_process_reliable (h : host) (filename : string) (target : path) (st : state) :
  sink_reliable h →
  log_process h filename target st =
    (Ok tt, add_process {| p_filename := filename; p_target_folder := target |}
              (db_step st)).
Proof. intros H. unfold log_process, try_except, db_insert. by rewrite H. Qed.

Lemma audit_only_refl (st : state) : audit_only st st.
Proof. repeat split; by exists []; rewrite app_nil_r. Qed.

Lemma audit_only_db_step (st : state) : audit_only st (db_step st).
Proof. repeat split; by exists []; rewrite app_nil_r. Qed.

Lemma audit_only_trans (st1 st2 st3 : state) :
  audit_only st1 st2 → audit_only st2 st3 → audit_only st1 st3.
Proof.
  intros (?&?&?&?&[p1 Hp1]&[i1 Hi1]) (?&?&?&?&[p2 Hp2]&[i2 Hi2]).
  repeat split; try congruence.
  - exists (p1 ++ p2)%list. by rewrite Hp2, Hp1, app_assoc.
  - exists (i1 ++ i2)%list. by rewrite Hi2, Hi1, app_assoc.
Qed.

(** Whatever the database does, [log_issue] changes the audit tables
    only: it adds no process row, and issue rows only for the name it was
    given.  It raises only what the database raises that is no
    [sqlite3.Error]. *)
Lemma log_issue_any (h : host) (filename : string) (w e : option Z)
    (description : string) (st : state) :
  ∃ r st' rows,
    log_issue h filename w e description st = (r, st') ∧
    audit_only st st' ∧ process_log st' = process_log st ∧
    issues st' = (issues st ++ rows)%list ∧
    Forall (fun row => i_filename row = filename) rows ∧
    (db_tick st ≤ db_tick st')%nat ∧
    (sink_quiet h → r = Ok tt).
Proof.
  unfold log_issue, try_except, db_insert.
  destruct (db_fault h (db_tick st) filename) as [x|] eqn:E.
  - destruct (sqlite3_Error x) eqn:S; cbn [ret].
    + exists (Ok tt), (db_step st), []. rewrite app_nil_r.
      split; [done|]. split; [apply audit_only_db_step|].
      split; [done|]. split; [done|]. split; [constructor|]. split; [cbn; lia|done].
    + exists (Raise x), (db_step st), []. rewrite app_nil_r.
      split; [done|]. split; [apply audit_only_db_step|].
      split; [done|]. split; [done|]. split; [constructor|]. split; [cbn; lia|].
      intros Hq. apply Hq in E. congruence.
  - eexists (Ok tt), _, [_]. split; [done|]. split.
    { repeat split; [by exists []; rewrite app_nil_r|by eexists]. }
    split; [done|]. split; [done|]. split; [by repeat constructor|].
    split; [cbn; lia|done].
Qed.

Lemma log_process_any (h : host) (filename : string) (target : path) (st : state) :
  ∃ r st' prows irows,
    log_process h filename target st = (r, st') ∧
    audit_only st st' ∧
    process_log st' = (process_log st ++ prows)%list ∧
    Forall (fun row => p_filename row = filename) prows ∧
    issues st' = (issues st ++ irows)%list ∧
    Forall (fun row => i_filename row = filename) irows ∧
    (db_tick st ≤ db_tick st')%nat ∧
    (sink_quiet h → r = Ok tt).
Proof.
  unfold log_process, try_except, db_insert.
  destruct (db_fault h (db_tick st) filename) as [x|] eqn:E.
  - destruct (sqlite3_Error x) eqn:S.
    + match goal with
      | |- context [log_issue ?a ?b ?c ?d ?e ?f] =>
          destruct (log_issue_any a b c d e f)
            as (r & st' & rows & Hrun & A & P & I & R & T & Q)
      end.
      exists r, st', [], rows. rewrite app_nil_r.
      split; [done|]. split.
      { apply (audit_only_trans st (db_step st) st'); [apply audit_only_db_step|done]. }
      split; [done|]. split; [constructor|]. split; [done|]. split; [done|].
      split; [cbn in T; lia|done].
    + exists (Raise x), (db_step st), [], []. rewrite !app_nil_r.
      split; [done|]. split; [apply audit_only_db_step|].
      split; [done|]. split; [constructor|]. split; [done|]. split; [constructor|].
      split; [cbn; lia|]. intros Hq. apply Hq in E. congruence.
  - eexists (Ok tt), _, [_], []. rewrite app_nil_r. split; [done|]. split.
    { repeat split; [by eexists|by exists []; rewrite app_nil_r]. }
    split; [done|]. split; [by repeat constructor|]. split; [done|].
    split; [constructor|]. split; [cbn; lia|done].
Qed.

(** With a database that fails only with [sqlite3.Error] the logging
    functions return. *)
Lemma log_issue_returns (h : host) (filename : string) (w e : option Z)
    (description : string) (st : state) :
  sink_quiet h →
  ∃ st', log_issue h filename w e description st = (Ok tt, st') ∧
         audit_only st st' ∧ process_log st' = process_log st.
Proof.
  intros Hq.
  destruct (log_issue_any h filename w e description st)
    as (r & st' & rows & Hrun & A & P & _ & _ & _ & Q).
  rewrite (Q Hq) in Hrun. by exists st'.
Qed.

Lemma log_process_returns (h : host) (filename : string) (target : path) (st : state) :
  sink_quiet h →
  ∃ st', log_process h filename target st = (Ok tt, st') ∧ audit_only st st'.
Proof.
  intros Hq.
  destruct (log_process_any h filename target st)
    as (r & st' & prows & irows & Hrun & A & _ & _ & _ & _ & _ & Q).
  rewrite (Q Hq) in Hrun. by exists st'.
Qed.

(** [shutil.move] either raises, leaving at most a copy or a part of it at
    the destination, or renames. *)
Lemma shutil_move_cases (h : host) (src dst : path) (st : state) :
  (∃ e st1, shutil_move h src dst st = (Raise e, st1) ∧
            move_failed src dst st st1 ∧
            (io_fault h (io_tick st) = None → files st !! src = None) ∧
            (io_leftover h (io_tick st) = Untouched → files st1 = files st)) ∨
  (∃ f, io_fault h (io_tick st) = None ∧ files st !! src = Some f ∧
        shutil_move h src dst st =
          (Ok tt, add_moved src dst
                    (set_files (<[dst := f]> (delete src (files st))) (io_step st)))).
Proof.
  assert (Hsame : move_failed src dst st (io_step st)) by (by repeat split).
  assert (Hstain : ∀ g, files st !! src = Some g → src ≠ dst →
             ∀ f, move_failed src dst st (set_files (<[dst := f]> (files st)) (io_step st))).
  { intros g Hg Hne f. repeat split; cbn.
    - by rewrite lookup_insert_ne.
    - intros q Hq. by rewrite lookup_insert_ne.
    - intros Hn. congruence. }
  unfold shutil_move. destruct (io_fault h (io_tick st)) as [e|] eqn:E.
  - left. destruct (files st !! src) as [f|] eqn:F.
    + destruct (bool_decide (src = dst)) eqn:B.
      { exists e, (io_step st). by repeat split. }
      apply bool_decide_eq_false in B.
      destruct (io_leftover h (io_tick st)) as [| |partial] eqn:L.
      * exists e, (io_step st). by repeat split.
      * eexists e, _. split; [done|]. split; [by eapply Hstain|]. by split.
      * eexists e, _. split; [done|]. split; [by eapply Hstain|]. by split.
    + exists e, (io_step st). by repeat split.
  - destruct (files st !! src) as [f|] eqn:F.
    + right. by exists f.
    + left. exists FileNotFoundError, (io_step st). by repeat split.
Qed.

(** The folder check touches folders and the tick only. *)
Lemma ensure_folder_cases (h : host) (folder : path) (st : state) :
  ∃ r st', ensure_folder h folder st = (r, st') ∧
           files st' = files st ∧ moved st' = moved st ∧
           process_log st' = process_log st ∧ issues st' = issues st ∧
           db_tick st' = db_tick st.
Proof.
  unfold ensure_folder, bind, gets, ret, os_makedirs.
  destruct (exists_ folder st) eqn:E; [by eexists _, _|].
  destruct (io_fault h (io_tick st)); [by eexists _, _|].
  rewrite E. by eexists _, _.
Qed.

(** ** Phase 1: one file *)

(** Run the next call of the audit sink in the goal. *)
Ltac run_log_issue Hq st' Hrun Haudit Hlog :=
  match goal with
  | |- context [log_issue ?a ?b ?c ?d ?e ?f] =>
      destruct (log_issue_returns a b c d e f Hq) as (st' & Hrun & Haudit & Hlog);
      rewrite Hrun
  end.

Ltac run_log_process Hq st' Hrun Haudit :=
  match goal with
  | |- context [log_process ?a ?b ?c ?d] =>
      destruct (log_process_returns a b c d Hq) as (st' & Hrun & Haudit);
      rewrite Hrun
  end.

(** With a database that fails only with [sqlite3.Error], the handler
    returns; it makes one more file-system call, the move to quarantine,
    and either that move happens or the file is where it was, nothing but
    the quarantine path has changed, and two error issues are written. *)
Lemma process_file_except_cases (h : host) (p un : path) (e : exn) (st1 : state) :
  sink_quiet h →
  ∃ st', process_file_except h p un e st1 = (Ok tt, st') ∧
    io_tick st' = S (io_tick st1) ∧
    ((∃ f, io_fault h (io_tick st1) = None ∧ files st1 !! p = Some f ∧
           files st' = <[join un (basename p) := f]> (delete p (files st1)) ∧
           moved st' = (moved st1 ++ [(p, join un (basename p))])%list ∧
           (sink_reliable h →
              process_log st' =
                (process_log st1 ++ [process_event (p, join un (basename p))])%list ∧
              ∃ r, issues st' = (issues st1 ++ [r])%list ∧
                   error_issue (basename p) ErrorCodes.UNPROCESSABLE_FILE r))
     ∨
     ((io_fault h (io_tick st1) = None → files st1 !! p = None) ∧
      files st' !! p = files st1 !! p ∧
      (∀ q, q ≠ join un (basename p) → files st' !! q = files st1 !! q) ∧
      (files st1 !! p = None → files st' = files st1) ∧
      (io_leftover h (io_tick st1) = Untouched → files st' = files st1) ∧
      moved st' = moved st1 ∧
      (sink_reliable h →
         process_log st' = process_log st1 ∧
         ∃ r1 r2, issues st' = (issues st1 ++ [r1; r2])%list ∧
                  error_issue (basename p) ErrorCodes.MOVE_ERROR r1 ∧
                  error_issue (basename p) ErrorCodes.UNPROCESSABLE_FILE r2))).
Proof.
  intros Hq. unfold process_file_except, bind, try_except.
  destruct (shutil_move_cases h p (join un (basename p)) st1)
    as [(e' & s1 & Hm & Hfail & Hwhy & Hatom)|(f & Hio & Hf & Hm)];
    rewrite Hm; cbn [Exception].
  - destruct Hfail as (D1 & M1 & P1 & I1 & T1 & U1 & Fsrc & Fother & Fnone).
    run_log_issue Hq st2 H2 A2 L2. run_log_issue Hq st3 H3 A3 L3.
    exists st3. split; [done|].
    destruct A2 as (F2 & _ & M2 & T2 & _), A3 as (F3 & _ & M3 & T3 & _).
    split; [by rewrite T3, T2|]. right.
    split; [done|]. split; [by rewrite F3, F2|].
    split; [intros q Hne; rewrite F3, F2; by apply Fother|].
    split; [intros Hn; rewrite F3, F2; by apply Fnone|].
    split; [intros Hl; rewrite F3, F2; by apply Hatom|].
    split; [by rewrite M3, M2|].
    intros Hs. rewrite log_issue_reliable in H2, H3 by done.
    injection H2 as <-. injection H3 as <-. cbn. rewrite P1, I1. split; [done|].
    eexists _, _. split; [rewrite <- app_assoc; reflexivity|]. by split.
  - run_log_process Hq st2 H2 A2. run_log_issue Hq st3 H3 A3 L3.
    exists st3. split; [done|].
    destruct A2 as (F2 & _ & M2 & T2 & _), A3 as (F3 & _ & M3 & T3 & _).
    split; [by rewrite T3, T2|]. left. exists f.
    split; [done|]. split; [done|]. split; [by rewrite F3, F2|].
    split; [by rewrite M3, M2|].
    intros Hs. rewrite log_process_reliable in H2 by done.
    rewrite log_issue_reliable in H3 by done.
    injection H2 as <-. injection H3 as <-. split; [done|]. by eexists.
Qed.

(** With such a database, the [try] block either raises before any move
    is completed or logged, leaving at most a left-over at the
    destination, or moves the file where the Router says and logs the
    move. *)
Lemma process_file_try_cases (h : host) (p root ts un : path) (st : state) :
  sink_quiet h →
  ∃ r st1, process_file_try h p root ts un st = (r, st1) ∧
    match r with
    | Raise e =>
        moved st1 = moved st ∧ process_log st1 = process_log st ∧
        (∃ news, issues st1 = (issues st ++ news)%list) ∧
        files st1 !! p = files st !! p ∧
        (∀ q, Some q ≠ destination root ts un (basename p) (route h (files st) p) →
              files st1 !! q = files st !! q) ∧
        (files st !! p = None → files st1 = files st) ∧
        (moves_atomic h → files st1 = files st)
    | Ok _ =>
        ∃ f dst,
          destination root ts un (basename p) (route h (files st) p) = Some dst ∧
          files st !! p = Some f ∧
          files st1 = <[dst := f]> (delete p (files st)) ∧
          moved st1 = (moved st ++ [(p, dst)])%list ∧
          (sink_reliable h →
             process_log st1 = (process_log st ++ [process_event (p, dst)])%list ∧
             (route h (files st) p = Unprocessable →
              issues st1 = (issues st ++ [unsupported_issue (basename p)])%list))
    end.
Proof.
  intros Hq.
  assert (Hmove : ∀ (d : disposition) (dst : path) (st0 : state),
             d ≠ Unprocessable →
             destination root ts un (basename p) d = Some dst →
             files st0 = files st → moved st0 = moved st →
             process_log st0 = process_log st →
             (∃ news, issues st0 = (issues st ++ news)%list) →
             ∃ r st1,
               bind (shutil_move h p dst) (fun _ => log_process h (basename p) dst) st0
                 = (r, st1) ∧
               match r with
               | Raise e =>
                   moved st1 = moved st ∧ process_log st1 = process_log st ∧
                   (∃ news, issues st1 = (issues st ++ news)%list) ∧
                   files st1 !! p = files st !! p ∧
                   (∀ q, Some q ≠ destination root ts un (basename p) d →
                         files st1 !! q = files st !! q) ∧
                   (files st !! p = None → files st1 = files st) ∧
                   (moves_atomic h → files st1 = files st)
               | Ok _ =>
                   ∃ f dst',
                     destination root ts un (basename p) d = Some dst' ∧
                     files st !! p = Some f ∧
                     files st1 = <[dst' := f]> (delete p (files st)) ∧
                     moved st1 = (moved st ++ [(p, dst')])%list ∧
                     (sink_reliable h →
                        process_log st1 =
                          (process_log st ++ [process_event (p, dst')])%list ∧
                        (d = Unprocessable →
                         issues st1 =
                           (issues st ++ [unsupported_issue (basename p)])%list))
               end).
  { intros d dst st0 Hne Hd F0 M0 P0 I0. unfold bind.
    destruct (shutil_move_cases h p dst st0)
      as [(e' & s1 & Hm & Hfail & _ & Hatom)|(f & Hio & Hf & Hm)]; rewrite Hm.
    - destruct Hfail as (D1 & M1 & P1 & I1 & T1 & U1 & Fsrc & Fother & Fnone).
      eexists _, _. split; [done|]. cbn beta iota.
      split; [congruence|]. split; [congruence|]. split; [by rewrite I1|].
      split; [by rewrite Fsrc, F0|]. split; [|split].
      + intros q Hq'. rewrite Hd in Hq'. rewrite Fother; [by rewrite F0|].
        intros ->. by apply Hq'.
      + intros Hn. rewrite Fnone; [done|]. by rewrite F0.
      + intros Ha. rewrite Hatom; [done|apply Ha].
    - run_log_process Hq st2 H2 A2. eexists _, _. split; [done|].
      destruct A2 as (F2 & _ & M2 & _).
      exists f, dst. split; [done|]. split; [by rewrite <- F0|].
      split; [by rewrite F2; cbn; rewrite F0|].
      split; [by rewrite M2; cbn; rewrite M0|].
      intros Hs. rewrite log_process_reliable in H2 by done.
      injection H2 as <-. cbn. by rewrite P0. }
  unfold process_file_try, route. cbv zeta.
  destruct (is_image_file h p); [|destruct (is_video_file h p)].
  1, 2: unfold bind at 1; unfold bind at 1; unfold gets, ret.
  1: destruct (get_image_date_taken h (files st) p) as [[year month]|].
  3: destruct (get_video_date_created h (files st) p) as [[year month]|].
  1, 3: unfold bind at 1; unfold bind at 1;
    destruct (ensure_folder_cases h (year_month root year month) st)
      as (r & st0 & Hrun & F0 & M0 & P0 & I0 & _); rewrite Hrun;
    destruct r as [[]|e];
    [ apply (Hmove (Organized year month)); auto;
      by exists []; rewrite I0, app_nil_r
    | eexists _, _; split; [done|]; cbn beta iota;
      split; [done|]; split; [done|];
      split; [by exists []; rewrite I0, app_nil_r|];
      split; [by rewrite F0|]; split; [by intros; rewrite F0|];
      split; by intros; rewrite F0 ].
  1, 2: unfold bind at 1; unfold bind at 1;
    run_log_issue Hq st0 H0 A0 L0; destruct A0 as (F0 & _ & M0 & _ & _ & I0);
    by apply (Hmove NeedsSort).
  unfold bind at 1. unfold bind at 1.
  destruct (shutil_move_cases h p (join un (basename p)) st)
    as [(e' & s1 & Hm & Hfail & _ & Hatom)|(f & Hio & Hf & Hm)]; rewrite Hm.
  - destruct Hfail as (D1 & M1 & P1 & I1 & T1 & U1 & Fsrc & Fother & Fnone).
    eexists _, _. split; [done|]. cbn beta iota.
    split; [done|]. split; [done|].
    split; [by exists []; rewrite I1, app_nil_r|]. split; [done|].
    split; [|split].
    + intros q Hq'. cbn [destination] in Hq'. apply Fother. intros ->. by apply Hq'.
    + done.
    + intros Ha. apply Hatom, Ha.
  - unfold bind, ret. run_log_process Hq st2 H2 A2. run_log_issue Hq st3 H3 A3 L3.
    eexists _, _. split; [done|].
    destruct A2 as (F2 & _ & M2 & _), A3 as (F3 & _ & M3 & _).
    exists f, (join un (basename p)). split; [done|]. split; [done|].
    split; [by rewrite F3, F2|]. split; [by rewrite M3, M2|].
    intros Hs. rewrite log_process_reliable in H2 by done.
    rewrite log_issue_reliable in H3 by done.
    injection H2 as <-. injection H3 as <-. split; [done|]. by intros _.
Qed.

Lemma targets_routed (h : host) (p root ts un : path) (st : state) (q : path) :
  q ∉ targets h p root ts un st →
  Some q ≠ destination root ts un (basename p) (route h (files st) p) ∧
  q ≠ join un (basename p).
Proof.
  unfold targets. intros H.
  destruct (destination _ _ _ _ _) as [dst|].
  - apply not_elem_of_cons in H as [H1 H2]. apply not_elem_of_cons in H2 as [H2 _].
    split; [|done]. intros [= ->]. by apply H1.
  - apply not_elem_of_cons in H as [H1 _]. by split.
Qed.

(** With a database that accepts the insertions every call of
    [process_file] returns and the file meets one disposition: the
    Router's, or quarantine or failure after an error; nothing changes
    outside the path of the file and its two possible destinations. *)
Lemma process_file_meets (h : host) (p root ts un : path) (st : state) :
  sink_reliable h →
  ∃ st' d, process_file h p root ts un st = (Ok tt, st') ∧
           meets p root ts un st st' d ∧
           (d = route h (files st) p ∨ d = Unprocessable ∨ d = Failed) ∧
           (∀ q, q ≠ p → q ∉ targets h p root ts un st →
                 files st' !! q = files st !! q) ∧
           (files st !! p = None → files st' = files st) ∧
           (moves_atomic h →
            ∀ f q, files st !! p = Some f → q ≠ p →
                   files st' !! q = files st !! q ∨ files st' !! q = Some f).
Proof.
  intros Hs. pose proof (sink_reliable_quiet h Hs) as Hq.
  unfold process_file, try_except.
  destruct (process_file_try_cases h p root ts un st Hq) as (r & st1 & Hrun & Hr).
  rewrite Hrun. destruct r as [[]|e]; cbn [Exception].
  - destruct Hr as (f & dst & Hd & Hf & F1 & M1 & L1).
    exists st1, (route h (files st) p). split; [done|]. split.
    { unfold meets. rewrite Hd. exists f. destruct (L1 Hs) as [P1 _].
      rewrite F1. split; [done|]. split; [apply lookup_insert_eq|].
      split; [|done]. intros Hne.
      rewrite lookup_insert_ne by done. apply lookup_delete_eq. }
    split; [by left|]. split; [|split].
    + intros q Hqp Hqt. apply targets_routed in Hqt as [Hqt _]. rewrite Hd in Hqt.
      rewrite F1, lookup_insert_ne by (intros ->; by apply Hqt).
      by rewrite lookup_delete_ne.
    + intros Hn. congruence.
    + intros _ g q Hg Hqp. rewrite F1.
      destruct (decide (dst = q)) as [->|Hne].
      * right. rewrite lookup_insert_eq. congruence.
      * left. by rewrite lookup_insert_ne, lookup_delete_ne.
  - destruct Hr as (M1 & P1 & (news & I1) & Fp & Fother & Fnone & Fatom).
    destruct (process_file_except_cases h p un e st1 Hq)
      as (st' & Hex & _ & [(f & _ & Hf & F' & M' & L')
                          |(_ & Fp' & Fother' & Fnone' & Fatom' & M' & L')]).
    + exists st', Unprocessable. split; [done|]. split.
      { unfold meets. cbn [destination]. exists f. destruct (L' Hs) as [P' _].
        split; [by rewrite <- Fp|]. rewrite F'.
        split; [apply lookup_insert_eq|]. split; [|by rewrite M', M1, P', P1].
        intros Hne. rewrite lookup_insert_ne by done. apply lookup_delete_eq. }
      split; [by right; left|]. split; [|split].
      * intros q Hqp Hqt. apply targets_routed in Hqt as [Hqt Hqu].
        rewrite F', lookup_insert_ne by done. rewrite lookup_delete_ne by done.
        by apply Fother.
      * intros Hn. rewrite Fp in Hf. congruence.
      * intros Ha g q Hg Hqp. rewrite F', (Fatom Ha).
        destruct (decide (join un (basename p) = q)) as [<-|Hne].
        -- right. rewrite lookup_insert_eq. congruence.
        -- left. by rewrite lookup_insert_ne, lookup_delete_ne.
    + exists st', Failed. split; [done|]. split.
      { unfold meets. cbn [destination].
        destruct (L' Hs) as (P' & r1 & r2 & I' & E1 & E2).
        split; [congruence|]. split; [congruence|]. split; [congruence|].
        exists news, r1, r2. by rewrite I', I1, <- app_assoc. }
      split; [by right; right|]. split; [|split].
      * intros q Hqp Hqt. apply targets_routed in Hqt as [Hqt Hqu].
        rewrite Fother' by done. by apply Fother.
      * intros Hn. rewrite Fnone' by congruence. by apply Fnone.
      * intros Ha g q Hg Hqp. left.
        rewrite (Fatom' (Ha _)). by rewrite (Fatom Ha).
Qed.

(** ** C6: errors of one file *)

(** C6 as stated fails twice.  A database that cannot encode the rows of
    [odd.txt] raises [UnicodeEncodeError] in [log_process] and again in
    the handler, where nothing catches it: the call of [process_file]
    raises, and a sweep over [odd.txt] and [even.txt] stops there, with
    [even.txt] where it was.  And when every move fails and the database
    refuses the insertions, the file stays where it is and no issue is
    recorded. *)
Lemma errors_escape_or_go_unrecorded :
  ¬ errors_stay_inside (Sample.picky "odd.txt") ∧
  files (primary_sweep (Sample.picky "odd.txt")
           [["src"; "odd.txt"]; ["src"; "even.txt"]] ["out"]
           (Sample.disk odd_and_even)).2 !! ["src"; "even.txt"]
    = Some (Sample.blank 2) ∧
  ¬ failures_are_recorded Sample.stuck.
Proof.
  split; [|split].
  - intros H.
    destruct (H [["src"; "odd.txt"]] ["out"] ["out"; "to_sort"] ["out"; "unprocessable"]
                (Sample.disk odd_and_even)) as [st' Hrun].
    apply (f_equal fst) in Hrun. vm_compute in Hrun. discriminate Hrun.
  - vm_compute. reflexivity.
  - intros H.
    destruct (H ["src"; "notes.txt"] ["out"] ["out"; "to_sort"] ["out"; "unprocessable"]
                (Sample.disk Sample.notes) OSError (io_step (Sample.disk Sample.notes))
                (Sample.blank 4))
      as (news & row & Hissues & Hin & _).
    + vm_compute. reflexivity.
    + vm_compute. reflexivity.
    + assert (Hnone : issues (process_file Sample.stuck ["src"; "notes.txt"] ["out"]
                                ["out"; "to_sort"] ["out"; "unprocessable"]
                                (Sample.disk Sample.notes)).2 = [])
        by (vm_compute; reflexivity).
      rewrite Hnone in Hissues. cbn in Hissues. subst news.
      by apply elem_of_nil in Hin.
Qed.

(** C6 (amended): with a database whose failures are [sqlite3.Error]s,
    [process_file] returns normally whatever happens inside the [try]
    block; when the block raised, the handler tried the move to
    quarantine, and if that move failed as well the file is where it was,
    at most the quarantine path holds a left-over of the move, and, when
    the database accepts the insertions, the issues MOVE_ERROR and
    UNPROCESSABLE_FILE are recorded; the sweep over any enumeration runs
    to its end. *)
Theorem per_file_errors_are_contained (h : host) (p root ts un : path) (st : state) :
  sink_quiet h →
  (∃ st', process_file h p root ts un st = (Ok tt, st')) ∧
  (∀ e st1,
     process_file_try h p root ts un st = (Raise e, st1) →
     ∃ st', process_file h p root ts un st = (Ok tt, st') ∧
            quarantined_or_kept h p un st st1 st') ∧
  (∀ walk st0,
     ∃ st', for_each walk (fun fp => process_file h fp root ts un) st0 = (Ok tt, st')).
Proof.
  intros Hq.
  assert (Hret : ∀ q st0, ∃ st', process_file h q root ts un st0 = (Ok tt, st')).
  { intros q st0. unfold process_file, try_except.
    destruct (process_file_try_cases h q root ts un st0 Hq) as (r & st1 & Hrun & _).
    rewrite Hrun. destruct r as [[]|e]; [by exists st1|]. cbn [Exception].
    destruct (process_file_except_cases h q un e st1 Hq) as (st' & Hex & _).
    by exists st'. }
  split; [apply Hret|]. split.
  - intros e st1 Hrun. unfold process_file, try_except. rewrite Hrun. cbn [Exception].
    destruct (process_file_try_cases h p root ts un st Hq) as (r & st1' & Hrun' & Hr).
    rewrite Hrun in Hrun'. injection Hrun' as <- <-.
    destruct Hr as (M1 & P1 & (news & I1) & Fp & _).
    destruct (process_file_except_cases h p un e st1 Hq)
      as (st' & Hex & T' & [(f & Hio & Hf & F' & M' & L')
                           |(Hwhy & Fp' & Fother' & _ & _ & M' & L')]).
    + exists st'. split; [done|]. split; [done|]. split; [done|]. left. exists f.
      by rewrite <- Fp.
    + exists st'. split; [done|]. split; [done|]. split; [done|]. right.
      split; [by rewrite <- Fp|]. split; [congruence|]. split; [done|].
      split; [congruence|]. intros Hs.
      destruct (L' Hs) as (_ & r1 & r2 & I' & E1 & E2).
      exists news, r1, r2. by rewrite I', I1, <- app_assoc.
  - intros walk. induction walk as [|q walk IH]; intros st0; [by exists st0|].
    cbn [for_each]. unfold bind.
    destruct (Hret q st0) as (st1 & ->). apply IH.
Qed.

Lemma per_file_errors_are_contained_witness :
  ∃ st',
    process_file Sample.sticky ["src"; "notes.txt"] ["out"]
      ["out"; "to_sort"] ["out"; "unprocessable"] (Sample.disk Sample.notes)
      = (Ok tt, st') ∧
    quarantined_or_kept Sample.sticky ["src"; "notes.txt"] ["out"; "unprocessable"]
      (Sample.disk Sample.notes)
      (process_file_try Sample.sticky ["src"; "notes.txt"] ["out"]
         ["out"; "to_sort"] ["out"; "unprocessable"] (Sample.disk Sample.notes)).2
      st'.
Proof.
  refine (proj1 (proj2 (per_file_errors_are_contained Sample.sticky
                          ["src"; "notes.txt"] ["out"] ["out"; "to_sort"]
                          ["out"; "unprocessable"] (Sample.disk Sample.notes) _))
            OSError _ _).
  - intros n name e H. discriminate H.
  - vm_compute. reflexivity.
Defined.

(** ** C7: files that are neither image nor video *)

(** C7 as stated fails twice: when every move fails, a text file is not
    in quarantine afterwards; and when the database refuses the
    insertions, it is in quarantine and no issue is recorded for it. *)
Lemma other_files_can_miss_quarantine :
  ¬ others_reach_quarantine Sample.readonly ∧ ¬ others_get_an_issue Sample.deaf.
Proof.
  split.
  - intros H.
    specialize (H ["src"; "notes.txt"] ["out"] ["out"; "to_sort"]
                  ["out"; "unprocessable"] (Sample.disk Sample.notes)
                  (Sample.blank 4) eq_refl eq_refl eq_refl).
    vm_compute in H. discriminate H.
  - intros H.
    destruct (H ["src"; "notes.txt"] ["out"] ["out"; "to_sort"]
                ["out"; "unprocessable"] (Sample.disk Sample.notes)
                (Sample.blank 4) eq_refl eq_refl eq_refl)
      as (news & row & Hissues & Hin & _).
    assert (Hnone : issues (process_file Sample.deaf ["src"; "notes.txt"] ["out"]
                              ["out"; "to_sort"] ["out"; "unprocessable"]
                              (Sample.disk Sample.notes)).2 = [])
      by (vm_compute; reflexivity).
    rewrite Hnone in Hissues. cbn in Hissues. subst news.
    by apply elem_of_nil in Hin.
Qed.

(** C7 (amended): a file that is neither image nor video is routed to
    quarantine whatever its metadata and its name say: it is never
    organized and never held for sorting.  With a database that accepts
    the insertions, it ends in the unprocessable folder with a process
    row and an issue for it, at once when the first move goes through,
    and by the handler when only the first move fails; only when both
    moves fail does it stay where it was, with error issues. *)
Theorem other_files_go_to_quarantine (h : host) (p root ts un : path)
    (st : state) (f : file) :
  files st !! p = Some f →
  is_image_file h p = false → is_video_file h p = false →
  sink_reliable h →
  route h (files st) p = Unprocessable ∧
  ∃ st' d,
    process_file h p root ts un st = (Ok tt, st') ∧
    meets p root ts un st st' d ∧
    ((d = Unprocessable ∧
      ∃ news r, issues st' = (issues st ++ news ++ [r])%list ∧
                i_filename r = basename p)
     ∨ (d = Failed ∧ io_fault h (io_tick st) ≠ None ∧
        io_fault h (S (io_tick st)) ≠ None)) ∧
    (io_fault h (io_tick st) = None →
       d = Unprocessable ∧
       issues st' = (issues st ++ [unsupported_issue (basename p)])%list).
Proof.
  intros Hf Hi Hv Hs. pose proof (sink_reliable_quiet h Hs) as Hq.
  split; [unfold route; by rewrite Hi, Hv|].
  unfold process_file, try_except, process_file_try. rewrite Hi, Hv.
  unfold bind at 1. unfold bind at 1.
  destruct (shutil_move_cases h p (join un (basename p)) st)
    as [(e' & s1 & Hm & Hfail & Hwhy & _)|(f' & Hio & Hf' & Hm)]; rewrite Hm.
  - cbn [Exception].
    destruct Hfail as (D1 & M1 & P1 & I1 & T1 & U1 & Fsrc & Fother & Fnone).
    assert (Hio1 : io_fault h (io_tick st) ≠ None).
    { intros Hio. rewrite (Hwhy Hio) in Hf. discriminate Hf. }
    destruct (process_file_except_cases h p un e' s1 Hq)
      as (st' & Hex & _ & [(f' & _ & Hf' & F' & M' & L')
                          |(Hwhy' & Fp' & _ & _ & _ & M' & L')]);
      rewrite Hex.
    + destruct (L' Hs) as (P' & r & I' & E').
      exists st', Unprocessable. split; [done|]. split; [|split].
      * unfold meets. cbn [destination]. exists f'.
        split; [by rewrite <- Fsrc|]. rewrite F'.
        split; [apply lookup_insert_eq|]. split; [|by rewrite M', M1, P', P1].
        intros Hne. rewrite lookup_insert_ne by done. apply lookup_delete_eq.
      * left. split; [done|]. exists [], r. rewrite I', I1.
        split; [done|]. by destruct E'.
      * intros Hio. by destruct Hio1.
    + destruct (L' Hs) as (P' & r1 & r2 & I' & E1 & E2).
      exists st', Failed. split; [done|]. split; [|split].
      * unfold meets. cbn [destination].
        split; [congruence|]. split; [congruence|]. split; [congruence|].
        exists [], r1, r2. by rewrite I', I1.
      * right. split; [done|]. split; [done|]. rewrite <- T1.
        intros Hio. rewrite (Hwhy' Hio) in Fsrc. congruence.
      * intros Hio. by destruct Hio1.
  - unfold bind, ret.
    rewrite log_process_reliable by done. rewrite log_issue_reliable by done.
    eexists _, Unprocessable. split; [done|]. split; [|split].
    + unfold meets. cbn [destination]. exists f'. cbn.
      split; [done|]. split; [apply lookup_insert_eq|]. split; [|done].
      intros Hne. rewrite lookup_insert_ne by done. apply lookup_delete_eq.
    + left. split; [done|]. by exists [], (unsupported_issue (basename p)).
    + done.
Qed.

Lemma other_files_go_to_quarantine_witness :
  route Sample.quiet (files (Sample.disk Sample.notes)) ["src"; "notes.txt"]
    = Unprocessable ∧
  ∃ st' d,
    process_file Sample.quiet ["src"; "notes.txt"] ["out"] ["out"; "to_sort"]
      ["out"; "unprocessable"] (Sample.disk Sample.notes) = (Ok tt, st') ∧
    meets ["src"; "notes.txt"] ["out"] ["out"; "to_sort"] ["out"; "unprocessable"]
      (Sample.disk Sample.notes) st' d ∧
    ((d = Unprocessable ∧
      ∃ news r, issues st' = (issues (Sample.disk Sample.notes) ++ news ++ [r])%list ∧
                i_filename r = basename ["src"; "notes.txt"])
     ∨ (d = Failed ∧
        io_fault Sample.quiet (io_tick (Sample.disk Sample.notes)) ≠ None ∧
        io_fault Sample.quiet (S (io_tick (Sample.disk Sample.notes))) ≠ None)) ∧
    (io_fault Sample.quiet (io_tick (Sample.disk Sample.notes)) = None →
       d = Unprocessable ∧
       issues st' = (issues (Sample.disk Sample.notes)
                     ++ [unsupported_issue (basename ["src"; "notes.txt"])])%list).
Proof.
  apply (other_files_go_to_quarantine Sample.quiet ["src"; "notes.txt"] ["out"]
           ["out"; "to_sort"] ["out"; "unprocessable"] (Sample.disk Sample.notes)
           (Sample.blank 4)).
  - reflexivity.
  - reflexivity.
  - reflexivity.
  - intros n name. reflexivity.
Defined.

(** ** Dispositions *)

Lemma destination_main_inj (root : path) (name : string) (d d' : disposition)
    (dst : path) :
  destination root (join root "to_sort") (join root "unprocessable") name d = Some dst →
  destination root (join root "to_sort") (join root "unprocessable") name d' = Some dst →
  d = d'.
Proof.
  destruct d, d'; cbn [destination]; try discriminate;
    intros H1 H2; rewrite <- H2 in H1; apply (inj Some) in H1;
    unfold year_month, join in H1; rewrite <- ?app_assoc in H1;
    apply app_inv_head in H1; by simplify_eq.
Qed.

Lemma meets_unique (p root : path) (st st' : state) (d d' : disposition) :
  meets p root (join root "to_sort") (join root "unprocessable") st st' d →
  meets p root (join root "to_sort") (join root "unprocessable") st st' d' →
  d = d'.
Proof.
  unfold meets.
  destruct (destination _ _ _ _ d) as [dst|] eqn:D;
    destruct (destination _ _ _ _ d') as [dst'|] eqn:D'.
  - intros (f & _ & _ & _ & _ & L) (f' & _ & _ & _ & _ & L').
    rewrite L in L'. apply app_inv_head in L'. injection L' as ->.
    by eapply destination_main_inj.
  - intros (f & _ & _ & _ & _ & L) (_ & _ & L' & _). rewrite L' in L.
    apply (f_equal length) in L. rewrite length_app in L. simpl in L. lia.
  - intros (_ & _ & L & _) (f' & _ & _ & _ & _ & L'). rewrite L in L'.
    apply (f_equal length) in L'. rewrite length_app in L'. simpl in L'. lia.
  - intros _ _. by destruct d, d'.
Qed.

(** C1 as stated fails: two text files named [x.txt] in two source folders
    have the same destination in the quarantine folder; the second move
    replaces the first file, whose bytes are then nowhere on the disk.
    And a file that stays at its location has no issue recorded when the
    database refuses the insertions. *)
Lemma same_name_files_overwrite :
  ¬ no_file_lost Sample.quiet [["src"; "a"; "x.txt"]; ["src"; "b"; "x.txt"]]
      ["out"] (Sample.disk Sample.twins) ∧
  files (process_file Sample.stuck ["src"; "notes.txt"] ["out"] ["out"; "to_sort"]
           ["out"; "unprocessable"] (Sample.disk Sample.notes)).2
    !! ["src"; "notes.txt"] = Some (Sample.blank 4) ∧
  issues (process_file Sample.stuck ["src"; "notes.txt"] ["out"] ["out"; "to_sort"]
            ["out"; "unprocessable"] (Sample.disk Sample.notes)).2 = [].
Proof.
  split; [|split; vm_compute; reflexivity].
  intros H.
  destruct (H ["src"; "a"; "x.txt"] (Sample.blank 1)) as [q Hq].
  - left.
  - reflexivity.
  - apply elem_of_map_to_list in Hq.
    match type of Hq with
    | _ ∈ ?l =>
        assert (Hfinal : l = [(["out"; "unprocessable"; "x.txt"], Sample.blank 2)])
          by (vm_compute; reflexivity)
    end.
    rewrite Hfinal in Hq. clear Hfinal H.
    apply list_elem_of_singleton in Hq.
    apply (f_equal (fun x : path * file => content x.2)) in Hq.
    cbn in Hq. discriminate Hq.
Qed.

(** C1 (amended): with a database that accepts the insertions, processing
    a file that is on the disk returns and the file meets exactly one
    disposition: one move of it is completed, to the year/month folder,
    the holding folder or the quarantine folder, and logged, or no move
    is completed, the file stays where it is and error issues for it are
    recorded.  The file itself is never lost.  Nothing changes outside
    the path of the file and its two possible destinations, where a file
    that was there before is replaced and where a move that failed may
    leave a copy; when failed moves leave nothing behind, every other
    path keeps its content, except that the destination now holds the
    file. *)
Theorem every_file_meets_one_disposition (h : host) (p root : path)
    (st : state) (f : file) :
  files st !! p = Some f →
  sink_reliable h →
  ∃ st',
    process_file h p root (join root "to_sort") (join root "unprocessable") st
      = (Ok tt, st') ∧
    (∃ d,
       meets p root (join root "to_sort") (join root "unprocessable") st st' d ∧
       ∀ d', meets p root (join root "to_sort") (join root "unprocessable")
               st st' d' → d' = d) ∧
    (∃ q, files st' !! q = Some f) ∧
    (∀ q, q ≠ p →
          q ∉ targets h p root (join root "to_sort") (join root "unprocessable") st →
          files st' !! q = files st !! q) ∧
    (moves_atomic h →
     ∀ q, q ≠ p → files st' !! q = files st !! q ∨ files st' !! q = Some f).
Proof.
  intros Hf Hs.
  destruct (process_file_meets h p root (join root "to_sort")
              (join root "unprocessable") st Hs)
    as (st' & d & Hrun & Hd & _ & Hframe & _ & Hatomic).
  exists st'. split; [done|]. split; [|split; [|split]].
  - exists d. split; [done|]. intros d' Hd'. by eapply meets_unique.
  - unfold meets in Hd. destruct (destination _ _ _ _ d) as [dst|].
    + destruct Hd as (f' & Hf' & F' & _). exists dst. congruence.
    + destruct Hd as (F' & _). exists p. congruence.
  - exact Hframe.
  - intros Ha q Hq. by apply Hatomic.
Qed.

Lemma every_file_meets_one_disposition_witness :
  ∃ st',
    process_file Sample.quiet ["src"; "a.jpg"] ["out"] (join ["out"] "to_sort")
      (join ["out"] "unprocessable") (Sample.disk Sample.album) = (Ok tt, st') ∧
    (∃ d,
       meets ["src"; "a.jpg"] ["out"] (join ["out"] "to_sort")
         (join ["out"] "unprocessable") (Sample.disk Sample.album) st' d ∧
       ∀ d', meets ["src"; "a.jpg"] ["out"] (join ["out"] "to_sort")
               (join ["out"] "unprocessable") (Sample.disk Sample.album) st' d'
             → d' = d) ∧
    (∃ q, files st' !! q = Some (Sample.photo 1 "2021:03:15 10:00:00")) ∧
    (∀ q, q ≠ ["src"; "a.jpg"] →
          q ∉ targets Sample.quiet ["src"; "a.jpg"] ["out"] (join ["out"] "to_sort")
                (join ["out"] "unprocessable") (Sample.disk Sample.album) →
          files st' !! q = files (Sample.disk Sample.album) !! q) ∧
    (moves_atomic Sample.quiet →
     ∀ q, q ≠ ["src"; "a.jpg"] →
          files st' !! q = files (Sample.disk Sample.album) !! q ∨
          files st' !! q = Some (Sample.photo 1 "2021:03:15 10:00:00")).
Proof.
  apply (every_file_meets_one_disposition Sample.quiet ["src"; "a.jpg"] ["out"]
           (Sample.disk Sample.album)).
  - reflexivity.
  - intros n name. reflexivity.
Defined.

(** ** Moves and the process log *)

Lemma logged_refl (st : state) : logged st st.
Proof. exists []. by rewrite !app_nil_r. Qed.

Lemma logged_trans (st1 st2 st3 : state) :
  logged st1 st2 → logged st2 st3 → logged st1 st3.
Proof.
  intros (n1 & M1 & P1) (n2 & M2 & P2). exists (n1 ++ n2)%list.
  rewrite M2, M1, P2, P1, fmap_app, !app_assoc. done.
Qed.

(** A step that neither moves nor logs a move. *)
Lemma logged_same (st st' : state) :
  moved st' = moved st → process_log st' = process_log st → logged st st'.
Proof. intros M P. exists []. by rewrite M, P, !app_nil_r. Qed.

Lemma process_file_logged (h : host) (p root ts un : path) (st : state)
    (r : result unit) (st' : state) :
  sink_reliable h →
  process_file h p root ts un st = (r, st') → logged st st'.
Proof.
  intros Hs Hrun.
  destruct (process_file_meets h p root ts un st Hs) as (st2 & d & Hrun' & Hd & _).
  rewrite Hrun in Hrun'. injection Hrun' as -> ->.
  unfold meets in Hd. destruct (destination _ _ _ _ d) as [dst|].
  - destruct Hd as (f & _ & _ & _ & M & P). by exists [(p, dst)].
  - destruct Hd as (_ & M & P & _). by apply logged_same.
Qed.

Lemma ensure_folder_logged (h : host) (folder : path) (st : state)
    (r : result unit) (st' : state) :
  ensure_folder h folder st = (r, st') → logged st st'.
Proof.
  intros Hrun.
  destruct (ensure_folder_cases h folder st) as (r' & st1 & Hrun' & _ & M & P & _).
  rewrite Hrun in Hrun'. injection Hrun' as -> ->. by apply logged_same.
Qed.

Lemma resort_entry_logged (h : host) (ts root : path) (filename : string)
    (st : state) (r : result unit) (st' : state) :
  sink_reliable h →
  resort_entry h ts root filename st = (r, st') → logged st st'.
Proof.
  intros Hs. unfold resort_entry. unfold bind at 1. unfold gets.
  destruct (isfile (join ts filename) st); cbn [negb];
    [|intros [= <- <-]; apply logged_refl].
  unfold bind at 1. unfold lift.
  destruct (extract_timestamp_from_filename h filename) as [[[year month]|]|e];
    [|intros [= <- <-]; apply logged_refl..].
  unfold bind at 1.
  destruct (ensure_folder_cases h (year_month root year month) st)
    as (r0 & st0 & Hrun0 & _ & M0 & P0 & _).
  rewrite Hrun0. destruct r0 as [[]|e];
    [|intros [= <- <-]; by apply logged_same].
  unfold try_except, bind.
  destruct (shutil_move_cases h (join ts filename)
              (join (year_month root year month) filename) st0)
    as [(e' & s1 & Hm & Hfail & _)|(f & _ & _ & Hm)]; rewrite Hm; cbn [Exception].
  - destruct Hfail as (_ & M1 & P1 & _).
    rewrite log_issue_reliable by done. intros [= <- <-].
    apply logged_same; cbn; congruence.
  - rewrite log_process_reliable by done. rewrite log_issue_reliable by done.
    intros [= <- <-].
    exists [(join ts filename, join (year_month root year month) filename)].
    cbn. rewrite M0, P0. unfold process_event, basename, join. cbn.
    by rewrite last_last.
Qed.

Lemma process_unsorted_files_logged (h : host) (ts root : path) (st : state)
    (r : result unit) (st' : state) :
  sink_reliable h →
  process_unsorted_files h ts root st = (r, st') → logged st st'.
Proof.
  intros Hs. unfold process_unsorted_files. unfold bind at 1. unfold gets.
  destruct (exists_ ts st); cbn [negb]; [|intros [= <- <-]; apply logged_refl].
  unfold bind. apply (for_each_preserves logged _ _ logged_refl logged_trans).
  intros name st1 r1 st1'. by apply resort_entry_logged.
Qed.

(** C10 as stated fails: when the database refuses the insertions, the
    photograph is moved to its year/month folder and the process log
    stays empty. *)
Lemma refused_rows_leave_moves_unlogged : ¬ moves_are_logged Sample.deaf.
Proof.
  intros H.
  destruct (H [["src"; "a.jpg"]] ["out"] (Sample.disk Sample.album))
    as (news & Hmoved & Hlog).
  assert (Hm : moved (main_sweeps Sample.deaf [["src"; "a.jpg"]] ["out"]
                        (Sample.disk Sample.album)).2
               = [(["src"; "a.jpg"], ["out"; "2021"; "03"; "a.jpg"])])
    by (vm_compute; reflexivity).
  assert (Hl : process_log (main_sweeps Sample.deaf [["src"; "a.jpg"]] ["out"]
                              (Sample.disk Sample.album)).2 = [])
    by (vm_compute; reflexivity).
  rewrite Hm in Hmoved. rewrite Hl in Hlog. cbn in Hmoved, Hlog. subst news.
  discriminate Hlog.
Qed.

(** C10 (amended): when the audit database accepts the insertions, the
    rows added to the process log by a run are, in order, exactly the
    moves the file system completed during it, each row naming the moved
    file and the path it was moved to: for one file of phase 1
    (year/month, holding and quarantine folder, handler included), for
    the resort sweep, and for the two sweeps together. *)
Theorem every_move_is_logged (h : host) :
  sink_reliable h →
  (∀ p root ts un st r st',
     process_file h p root ts un st = (r, st') → logged st st') ∧
  (∀ ts root st r st',
     process_unsorted_files h ts root st = (r, st') → logged st st') ∧
  (∀ walk target st r st',
     main_sweeps h walk target st = (r, st') → logged st st').
Proof.
  intros Hs. split; [|split].
  - intros p root ts un st r st'. by apply process_file_logged.
  - intros ts root st r st'. by apply process_unsorted_files_logged.
  - intros walk target st r st'. unfold main_sweeps. unfold bind at 1.
    destruct (for_each _ (ensure_folder h) st) as [[[]|e] st1] eqn:E1.
    2: { intros [= <- <-]. eapply (for_each_preserves logged _ _ logged_refl logged_trans); [|exact E1].
         intros x s1 r1 s1'. apply ensure_folder_logged. }
    assert (L1 : logged st st1).
    { eapply (for_each_preserves logged _ _ logged_refl logged_trans); [|exact E1].
      intros x s1 r1 s1'. apply ensure_folder_logged. }
    unfold bind, try_except.
    destruct (primary_sweep h walk target st1) as [r2 st2] eqn:E2.
    assert (L2 : logged st1 st2).
    { eapply (for_each_preserves logged _ _ logged_refl logged_trans); [|exact E2].
      intros x s1 r1 s1'. by apply process_file_logged. }
    assert (H3 : ∀ st2' r3 st3,
               process_unsorted_files h (join target "to_sort") target st2'
                 = (r3, st3) → logged st2' st3).
    { intros st2' r3 st3. by apply process_unsorted_files_logged. }
    destruct r2 as [[]|e2]; cbn [Exception ret];
      destruct (process_unsorted_files h (join target "to_sort") target st2)
        as [[[]|e3] st3] eqn:E3;
      cbn [Exception ret]; intros [= <- <-];
      (eapply logged_trans; [exact L1|]); (eapply logged_trans; [exact L2|]);
      by eapply H3.
Qed.

Lemma every_move_is_logged_witness :
  logged (Sample.disk Sample.album)
    (main_sweeps Sample.quiet [["src"; "a.jpg"]] ["out"] (Sample.disk Sample.album)).2.
Proof.
  apply (proj2 (proj2 (every_move_is_logged Sample.quiet (fun n name => eq_refl)))
           [["src"; "a.jpg"]] ["out"] (Sample.disk Sample.album)
           (main_sweeps Sample.quiet [["src"; "a.jpg"]] ["out"]
              (Sample.disk Sample.album)).1).
  apply surjective_pairing.
Defined.

(** ** Relations that every statement keeps

    A relation between the state before and the state after that is
    reflexive and transitive, and that the four effectful calls keep for
    the moves and the names it allows, is kept by every function of the
    program that makes only such moves and writes rows only for such
    names, whatever raises on the way. *)

Section Frame.

Variable h : host.
Variable R : state → state → Prop.
Variable moves : path → path → Prop.
Variable names : string → Prop.
Hypothesis R_refl : ∀ st, R st st.
Hypothesis R_trans : ∀ st1 st2 st3, R st1 st2 → R st2 st3 → R st1 st3.
Hypothesis R_move : ∀ src dst, moves src dst → keeps R (shutil_move h src dst).
Hypothesis R_makedirs : ∀ folder, keeps R (os_makedirs h folder).
Hypothesis R_issue :
  ∀ name w e text, names name → keeps R (log_issue h name w e text).
Hypothesis R_process :
  ∀ name target, names name → keeps R (log_process h name target).

Lemma keeps_ret {A} (a : A) : keeps R (ret a).
Proof using R_refl. intros st r st' [= <- <-]. apply R_refl. Qed.

Lemma keeps_gets {A} (f : state → A) : keeps R (gets f).
Proof using R_refl. intros st r st' [= <- <-]. apply R_refl. Qed.

Lemma keeps_lift {A} (x : result A) : keeps R (lift x).
Proof using R_refl. intros st r st' [= <- <-]. apply R_refl. Qed.

(** The continuation need only be considered for the values the first
    statement returns. *)
Lemma keeps_bind {A B} (c : M A) (k : A → M B) :
  keeps R c → (∀ a st st1, c st = (Ok a, st1) → keeps R (k a)) →
  keeps R (bind c k).
Proof using R_trans.
  intros Hc Hk st r st'. unfold bind.
  destruct (c st) as [[a|e] st1] eqn:E.
  - intros H. eapply R_trans; [by eapply Hc|by eapply Hk].
  - intros [= <- <-]. by eapply Hc.
Qed.

Lemma keeps_try {A} (c : M A) (catches : exn → bool) (handler : exn → M A) :
  keeps R c → (∀ e, keeps R (handler e)) → keeps R (try_except c catches handler).
Proof using R_trans.
  intros Hc Hh st r st'. unfold try_except.
  destruct (c st) as [[a|e] st1] eqn:E.
  - intros [= <- <-]. by eapply Hc.
  - destruct (catches e).
    + intros H. eapply R_trans; [by eapply Hc|by eapply Hh].
    + intros [= <- <-]. by eapply Hc.
Qed.

Lemma keeps_for_each {A} (l : list A) (body : A → M unit) :
  (∀ x, x ∈ l → keeps R (body x)) → keeps R (for_each l body).
Proof using R_refl R_trans.
  induction l as [|x l IH]; intros Hbody; cbn [for_each]; [apply keeps_ret|].
  apply keeps_bind; [apply Hbody; left|].
  intros _ _ _ _. apply IH. intros y Hy. apply Hbody. by right.
Qed.

Lemma keeps_ensure_folder (folder : path) : keeps R (ensure_folder h folder).
Proof using R_refl R_trans R_makedirs.
  unfold ensure_folder. apply keeps_bind; [apply keeps_gets|].
  intros [] _ _ _; [apply keeps_ret|apply R_makedirs].
Qed.

Lemma keeps_process_file_try (p root ts un : path) :
  names (basename p) → (∀ folder, moves p (join folder (basename p))) →
  keeps R (process_file_try h p root ts un).
Proof using R_refl R_trans R_move R_makedirs R_issue R_process.
  intros Hn Hm. unfold process_file_try. cbv zeta. apply keeps_bind.
  - destruct (is_image_file h p); [|destruct (is_video_file h p)].
    + apply keeps_bind; [apply keeps_gets|intros; apply keeps_ret].
    + apply keeps_bind; [apply keeps_gets|intros; apply keeps_ret].
    + apply keeps_bind; [apply R_move, Hm|intros _ _ _ _].
      apply keeps_bind; [by apply R_process|intros _ _ _ _].
      apply keeps_bind; [by apply R_issue|intros _ _ _ _]. apply keeps_ret.
  - intros [[date_info file_type]|] _ _ _; [|apply keeps_ret].
    apply keeps_bind.
    + destruct date_info as [[year month]|].
      * apply keeps_bind; [apply keeps_ensure_folder|intros; apply keeps_ret].
      * apply keeps_bind; [by apply R_issue|intros; apply keeps_ret].
    + intros target s s1 Hret.
      assert (Ht : ∃ folder, target = join folder (basename p)).
      { destruct date_info as [[year month]|]; unfold bind, ret in Hret.
        - destruct (ensure_folder h _ s) as [[[]|e] s2]; [|discriminate Hret].
          injection Hret as <- _. by eexists.
        - destruct (log_issue h _ _ _ _ s) as [[[]|e] s2]; [|discriminate Hret].
          injection Hret as <- _. by eexists. }
      destruct Ht as [folder ->].
      apply keeps_bind; [apply R_move, Hm|intros _ _ _ _; by apply R_process].
Qed.

Lemma keeps_process_file (p root ts un : path) :
  names (basename p) → (∀ folder, moves p (join folder (basename p))) →
  keeps R (process_file h p root ts un).
Proof using R_refl R_trans R_move R_makedirs R_issue R_process.
  intros Hn Hm. unfold process_file.
  apply keeps_try; [by apply keeps_process_file_try|].
  intros e. unfold process_file_except. cbv zeta.
  apply keeps_bind; [|intros _ _ _ _; by apply R_issue].
  apply keeps_try; [|intros; by apply R_issue].
  apply keeps_bind; [apply R_move, Hm|intros _ _ _ _; by apply R_process].
Qed.

Lemma keeps_resort_entry (ts root : path) (name : string) :
  (∀ year month,
     extract_timestamp_from_filename h name = Ok (Some (year, month)) →
     names name ∧ moves (join ts name) (join (year_month root year month) name)) →
  keeps R (resort_entry h ts root name).
Proof using R_refl R_trans R_move R_makedirs R_issue R_process.
  intros Hdated. unfold resort_entry. cbv zeta. apply keeps_bind; [apply keeps_gets|].
  intros [] _ _ _; cbn [negb]; [|apply keeps_ret].
  apply keeps_bind; [apply keeps_lift|].
  intros [[year month]|] s s1 Hret; [|apply keeps_ret].
  unfold lift in Hret. injection Hret as Hret _.
  destruct (Hdated year month Hret) as [Hn Hm].
  apply keeps_bind; [apply keeps_ensure_folder|intros _ _ _ _].
  apply keeps_try; [|intros; by apply R_issue].
  apply keeps_bind; [by apply R_move|intros _ _ _ _].
  apply keeps_bind; [by apply R_process|intros _ _ _ _; by apply R_issue].
Qed.

Lemma keeps_process_unsorted_files (ts root : path) :
  (∀ name year month,
     extract_timestamp_from_filename h name = Ok (Some (year, month)) →
     names name ∧ moves (join ts name) (join (year_month root year month) name)) →
  keeps R (process_unsorted_files h ts root).
Proof using R_refl R_trans R_move R_makedirs R_issue R_process.
  intros Hdated. unfold process_unsorted_files.
  apply keeps_bind; [apply keeps_gets|].
  intros [] _ _ _; cbn [negb]; [|apply keeps_ret].
  apply keeps_bind; [apply keeps_gets|intros names' _ _ _].
  apply keeps_for_each. intros name _. apply keeps_resort_entry. apply Hdated.
Qed.

Lemma keeps_main_sweeps (walk : list path) (target : path) :
  (∀ src dst, moves src dst) → (∀ name, names name) →
  keeps R (main_sweeps h walk target).
Proof using R_refl R_trans R_move R_makedirs R_issue R_process.
  intros Hm Hn. unfold main_sweeps. cbv zeta.
  apply keeps_bind; [apply keeps_for_each; intros; apply keeps_ensure_folder|].
  intros _ _ _ _. apply keeps_bind.
  - apply keeps_try; [|intros; apply keeps_ret].
    unfold primary_sweep. apply keeps_for_each. intros p _.
    by apply keeps_process_file.
  - intros _ _ _ _. apply keeps_try; [|intros; apply keeps_ret].
    apply keeps_process_unsorted_files. intros. split; [apply Hn|apply Hm].
Qed.

End Frame.

(** ** Phase 2: the holding folder *)

Lemma resorted_same (h : host) (ts root : path) (st st' : state) :
  files st' = files st → moved st' = moved st →
  issues st' = issues st → process_log st' = process_log st →
  resorted h ts root st st'.
Proof.
  intros F M I P. split; [|split; [|split]].
  - intros q. left. by rewrite F.
  - exists []. by rewrite M, app_nil_r.
  - exists []. by rewrite I, app_nil_r.
  - exists []. by rewrite P, app_nil_r.
Qed.

Lemma resorted_trans (h : host) (ts root : path) (st1 st2 st3 : state) :
  resorted h ts root st1 st2 → resorted h ts root st2 st3 →
  resorted h ts root st1 st3.
Proof.
  intros (F1 & (m1 & M1 & D1) & (i1 & I1 & N1) & (p1 & P1 & Q1))
         (F2 & (m2 & M2 & D2) & (i2 & I2 & N2) & (p2 & P2 & Q2)).
  split; [|split; [|split]].
  - intros q. destruct (F2 q) as [E2|?]; [|by right].
    destruct (F1 q) as [E1|?]; [left; congruence|by right].
  - exists (m1 ++ m2)%list. rewrite M2, M1, app_assoc. split; [done|].
    by apply Forall_app.
  - exists (i1 ++ i2)%list. rewrite I2, I1, app_assoc. split; [done|].
    by apply Forall_app.
  - exists (p1 ++ p2)%list. rewrite P2, P1, app_assoc. split; [done|].
    by apply Forall_app.
Qed.

(** A move of the sweep, completed or not, touches its two ends only. *)
Lemma shutil_move_resorted (h : host) (ts root src dst : path) :
  dated_move h ts root (src, dst) →
  keeps (resorted h ts root) (shutil_move h src dst).
Proof.
  intros Hmove st r st' Hrun.
  destruct (shutil_move_cases h src dst st)
    as [(e & s1 & Hm & Hfail & _)|(f & _ & _ & Hm)];
    rewrite Hm in Hrun; injection Hrun as <- <-.
  - destruct Hfail as (_ & M1 & P1 & I1 & _ & _ & _ & Fother & _).
    split; [|split; [|split]].
    + intros q. destruct (decide (q = dst)) as [->|Hne].
      * right. exists (src, dst). split; [done|]. by right.
      * left. by apply Fother.
    + exists []. by rewrite M1, app_nil_r.
    + exists []. by rewrite I1, app_nil_r.
    + exists []. by rewrite P1, app_nil_r.
  - split; [|split; [|split]]; cbn.
    + intros q. destruct (decide (q = dst)) as [->|Hd].
      { right. exists (src, dst). split; [done|]. by right. }
      destruct (decide (q = src)) as [->|Hsrc].
      { right. exists (src, dst). split; [done|]. by left. }
      left. by rewrite lookup_insert_ne, lookup_delete_ne.
    + eexists [_]. split; [done|]. by constructor.
    + exists []. by rewrite app_nil_r.
    + exists []. by rewrite app_nil_r.
Qed.

Lemma os_makedirs_resorted (h : host) (ts root folder : path) :
  keeps (resorted h ts root) (os_makedirs h folder).
Proof.
  intros st r st'. unfold os_makedirs.
  destruct (io_fault h (io_tick st)); [|destruct (exists_ folder st)];
    intros [= <- <-]; by apply resorted_same.
Qed.

Lemma log_issue_resorted (h : host) (ts root : path) (name : string)
    (w e : option Z) (text : string) :
  dated_name h name → keeps (resorted h ts root) (log_issue h name w e text).
Proof.
  intros Hname st r st' Hrun.
  destruct (log_issue_any h name w e text st)
    as (r' & s1 & rows & Hrun' & (F & _ & M & _) & P & I & Rows & _).
  rewrite Hrun in Hrun'. injection Hrun' as -> ->.
  split; [|split; [|split]].
  - intros q. left. by rewrite F.
  - exists []. by rewrite M, app_nil_r.
  - exists rows. split; [done|]. eapply Forall_impl; [exact Rows|].
    by intros row ->.
  - exists []. by rewrite P, app_nil_r.
Qed.

Lemma log_process_resorted (h : host) (ts root : path) (name : string) (target : path) :
  dated_name h name → keeps (resorted h ts root) (log_process h name target).
Proof.
  intros Hname st r st' Hrun.
  destruct (log_process_any h name target st)
    as (r' & s1 & prows & irows & Hrun' & (F & _ & M & _) & P & PRows & I & IRows & _).
  rewrite Hrun in Hrun'. injection Hrun' as -> ->.
  split; [|split; [|split]].
  - intros q. left. by rewrite F.
  - exists []. by rewrite M, app_nil_r.
  - exists irows. split; [done|]. eapply Forall_impl; [exact IRows|].
    by intros row ->.
  - exists prows. split; [done|]. eapply Forall_impl; [exact PRows|].
    by intros row ->.
Qed.

Lemma process_unsorted_files_resorted (h : host) (ts root : path) (st : state)
    (r : result unit) (st' : state) :
  process_unsorted_files h ts root st = (r, st') → resorted h ts root st st'.
Proof.
  apply (keeps_process_unsorted_files h (resorted h ts root)
           (fun src dst => dated_move h ts root (src, dst)) (dated_name h)).
  - intros st0. by apply resorted_same.
  - apply resorted_trans.
  - intros src dst. apply shutil_move_resorted.
  - apply os_makedirs_resorted.
  - intros name w e text. apply log_issue_resorted.
  - intros name target. apply log_process_resorted.
  - intros name year month Hname. split; [by eexists|by exists name, year, month].
Qed.

Lemma join_inj (folder folder' : path) (name name' : string) :
  join folder name = join folder' name' → folder = folder' ∧ name = name'.
Proof. unfold join. intros H. apply app_inj_tail in H. done. Qed.

(** C9: in the resort sweep a file of the holding folder whose name yields
    no date is left as it is: its path keeps its content, no move starts
    from it or ends on it, and no issue and no process row is written for
    its name; every move of the sweep takes a file whose name yields
    evidence to the year/month folder of that evidence. *)
Theorem undated_files_stay_in_holding (h : host) (ts root : path) (st : state)
    (r : result unit) (st' : state) (name : string) :
  process_unsorted_files h ts root st = (r, st') →
  extract_timestamp_from_filename h name = Ok None →
  files st' !! join ts name = files st !! join ts name ∧
  (∃ moves,
     moved st' = (moved st ++ moves)%list ∧
     Forall (dated_move h ts root) moves ∧
     ∀ move, move ∈ moves → move.1 ≠ join ts name ∧ move.2 ≠ join ts name) ∧
  (∃ rows,
     issues st' = (issues st ++ rows)%list ∧
     ∀ row, row ∈ rows → i_filename row ≠ name) ∧
  (∃ rows,
     process_log st' = (process_log st ++ rows)%list ∧
     ∀ row, row ∈ rows → p_filename row ≠ name).
Proof.
  intros Hrun Hnone.
  apply process_unsorted_files_resorted in Hrun
    as (F & (moves & M & D) & (irows & I & N) & (prows & P & Q)).
  assert (Hends : ∀ move, dated_move h ts root move →
                          move.1 ≠ join ts name ∧ move.2 ≠ join ts name).
  { intros move (n & y & m & Hn & ->). cbn. split; intros Heq;
      apply join_inj in Heq as [_ ->]; congruence. }
  assert (Hnot : ¬ dated_name h name).
  { intros [ev Hev]. congruence. }
  split; [|split; [|split]].
  - destruct (F (join ts name)) as [E|(move & Hmove & [Hq|Hq])]; [done|..];
      exfalso; by destruct (Hends move Hmove).
  - exists moves. split; [done|]. split; [done|].
    intros move Hin. apply Hends. by eapply Forall_forall in D.
  - exists irows. split; [done|]. intros row Hin Heq.
    eapply Forall_forall in N; [|done]. by rewrite Heq in N.
  - exists prows. split; [done|]. intros row Hin Heq.
    eapply Forall_forall in Q; [|done]. by rewrite Heq in Q.
Qed.

Lemma undated_files_stay_in_holding_witness :
  files (process_unsorted_files Sample.quiet ["out"; "to_sort"] ["out"]
           (Sample.disk Sample.holding)).2 !! join ["out"; "to_sort"] "holiday.jpg"
  = files (Sample.disk Sample.holding) !! join ["out"; "to_sort"] "holiday.jpg".
Proof.
  apply (undated_files_stay_in_holding Sample.quiet ["out"; "to_sort"] ["out"]
           (Sample.disk Sample.holding)
           (process_unsorted_files Sample.quiet ["out"; "to_sort"] ["out"]
              (Sample.disk Sample.holding)).1
           (process_unsorted_files Sample.quiet ["out"; "to_sort"] ["out"]
              (Sample.disk Sample.holding)).2
           "holiday.jpg").
  - apply surjective_pairing.
  - reflexivity.
Defined.

(** * Further properties *)

(** ** Classifier *)

(** X3: no path is classified both as image and as video, and a path
    whose type cannot be guessed is neither. *)
Theorem image_and_video_exclude_each_other (h : host) (p : path) :
  (is_image_file h p = true → is_video_file h p = false) ∧
  (is_video_file h p = true → is_image_file h p = false) ∧
  (guess_type h p = None → is_image_file h p = false ∧ is_video_file h p = false).
Proof.
  unfold is_image_file, is_video_file, Py.startswith.
  destruct (guess_type h p) as [mime|]; [|by repeat split].
  destruct mime as [|c mime]; [by repeat split|]. cbn [String.prefix].
  destruct (ascii_dec "i" c) as [Hi|Hi]; destruct (ascii_dec "v" c) as [Hv|Hv];
    try (rewrite <- Hi in Hv; discriminate Hv);
    repeat split; intros; try done; discriminate.
Qed.

Lemma image_and_video_exclude_each_other_witness :
  is_video_file Sample.quiet ["src"; "a.jpg"] = false.
Proof.
  apply (proj1 (image_and_video_exclude_each_other Sample.quiet ["src"; "a.jpg"])).
  reflexivity.
Defined.

(** ** Audit sink *)



(** ** What every run keeps *)

Lemma conserved_refl (st : state) : conserved st st.
Proof. split; [by eauto|]. split; [lia|done]. Qed.

Lemma conserved_trans (st1 st2 st3 : state) :
  conserved st1 st2 → conserved st2 st3 → conserved st1 st3.
Proof.
  intros (F1 & S1 & D1) (F2 & S2 & D2). split; [|split].
  - intros q f Hq. apply F2 in Hq as [q' Hq']. by apply F1 in Hq'.
  - lia.
  - set_solver.
Qed.

(** What differs only in the audit tables is conserved. *)
Lemma conserved_same_disk (st st' : state) :
  files st' = files st → dirs st' = dirs st → conserved st st'.
Proof.
  intros F D. unfold conserved. rewrite F, D.
  split; [by eauto|]. split; [lia|done].
Qed.

Lemma shutil_move_conserved (h : host) (src dst : path) :
  moves_atomic h → keeps conserved (shutil_move h src dst).
Proof.
  intros Ha st r st' Hrun.
  destruct (shutil_move_cases h src dst st)
    as [(e & s1 & Hm & Hfail & _ & Hatom)|(f & _ & Hf & Hm)]; rewrite Hm in Hrun;
    injection Hrun as <- <-.
  { destruct Hfail as (D1 & _). apply conserved_same_disk; [|done]. apply Hatom, Ha. }
  split; [|split; [|done]]; cbn.
  - intros q g. destruct (decide (dst = q)) as [->|Hne].
    + rewrite lookup_insert_eq. intros [= <-]. by exists src.
    + rewrite lookup_insert_ne by done. intros Hq.
      apply lookup_delete_Some in Hq as [_ Hq]. by exists q.
  - rewrite map_size_insert.
    assert (Hd : size (delete src (files st)) = pred (size (files st)))
      by (apply map_size_delete_Some; by eexists).
    assert (Hs : size (files st) ≠ O)
      by (eapply map_size_ne_0_lookup_2; by eexists).
    destruct (delete src (files st) !! dst); simpl; lia.
Qed.

Lemma os_makedirs_conserved (h : host) (folder : path) :
  keeps conserved (os_makedirs h folder).
Proof.
  intros st r st'. unfold os_makedirs.
  destruct (io_fault h (io_tick st)); [intros [= <- <-]; by apply conserved_same_disk|].
  destruct (exists_ folder st); intros [= <- <-]; [by apply conserved_same_disk|].
  split; [by eauto|]. split; [cbn; lia|]. cbn. set_solver.
Qed.

Lemma log_issue_conserved (h : host) (name : string) (w e : option Z) (text : string) :
  keeps conserved (log_issue h name w e text).
Proof.
  intros st r st' Hrun.
  destruct (log_issue_any h name w e text st)
    as (r' & st2 & rows & Hrun' & (F & D & _) & _).
  rewrite Hrun in Hrun'. injection Hrun' as -> ->. by apply conserved_same_disk.
Qed.

Lemma log_process_conserved (h : host) (name : string) (target : path) :
  keeps conserved (log_process h name target).
Proof.
  intros st r st' Hrun.
  destruct (log_process_any h name target st)
    as (r' & st2 & prows & irows & Hrun' & (F & D & _) & _).
  rewrite Hrun in Hrun'. injection Hrun' as -> ->. by apply conserved_same_disk.
Qed.

(** X8: when the moves that fail leave nothing behind, the two sweeps
    never create or copy a file and never remove a folder, whatever else
    fails: every file on the disk afterwards was on the disk before, with
    the same content, the number of files has not grown, and the folders
    that existed still exist. *)
Theorem sweeps_conserve_the_disk (h : host) (walk : list path) (target : path)
    (st : state) :
  moves_atomic h →
  conserved st (main_sweeps h walk target st).2.
Proof.
  intros Ha.
  apply (keeps_main_sweeps h conserved (fun _ _ => True) (fun _ => True)
           conserved_refl conserved_trans
           (fun src dst _ => shutil_move_conserved h src dst Ha)
           (os_makedirs_conserved h)
           (fun name w e text _ => log_issue_conserved h name w e text)
           (fun name target _ => log_process_conserved h name target)
           walk target (fun _ _ => I) (fun _ => I)
           st (main_sweeps h walk target st).1).
  apply surjective_pairing.
Qed.

Lemma sweeps_conserve_the_disk_witness :
  conserved (Sample.disk Sample.twins)
    (main_sweeps Sample.readonly [["src"; "a"; "x.txt"]; ["src"; "b"; "x.txt"]] ["out"]
       (Sample.disk Sample.twins)).2.
Proof.
  apply (sweeps_conserve_the_disk Sample.readonly
           [["src"; "a"; "x.txt"]; ["src"; "b"; "x.txt"]] ["out"]
           (Sample.disk Sample.twins)).
  intros n. reflexivity.
Defined.

Lemma appended_refl (st : state) : appended st st.
Proof. repeat split; try (by exists []; rewrite app_nil_r); lia. Qed.

Lemma appended_trans (st1 st2 st3 : state) :
  appended st1 st2 → appended st2 st3 → appended st1 st3.
Proof.
  intros ([p1 P1] & [i1 I1] & [m1 M1] & T1 & U1)
         ([p2 P2] & [i2 I2] & [m2 M2] & T2 & U2).
  repeat split; try lia.
  - exists (p1 ++ p2)%list. by rewrite P2, P1, app_assoc.
  - exists (i1 ++ i2)%list. by rewrite I2, I1, app_assoc.
  - exists (m1 ++ m2)%list. by rewrite M2, M1, app_assoc.
Qed.

Lemma audit_only_appended (st st' : state) :
  audit_only st st' → (db_tick st ≤ db_tick st')%nat → appended st st'.
Proof.
  intros (_ & _ & M & T & P & I) U. repeat split; try done; try lia.
  exists []. by rewrite M, app_nil_r.
Qed.

Lemma shutil_move_appended (h : host) (src dst : path) :
  keeps appended (shutil_move h src dst).
Proof.
  intros st r st' Hrun.
  destruct (shutil_move_cases h src dst st)
    as [(e & s1 & Hm & Hfail & _)|(f & _ & Hf & Hm)]; rewrite Hm in Hrun;
    injection Hrun as <- <-.
  - destruct Hfail as (_ & M1 & P1 & I1 & T1 & U1 & _).
    repeat split; try (by exists []; rewrite ?M1, ?P1, ?I1, app_nil_r); lia.
  - repeat split; cbn; try (by exists []; rewrite app_nil_r); try lia.
    by eexists.
Qed.

Lemma os_makedirs_appended (h : host) (folder : path) :
  keeps appended (os_makedirs h folder).
Proof.
  intros st r st'. unfold os_makedirs.
  destruct (io_fault h (io_tick st)); [|destruct (exists_ folder st)];
    intros [= <- <-];
    repeat split; cbn; try (by exists []; rewrite app_nil_r); lia.
Qed.

Lemma log_issue_appended (h : host) (name : string) (w e : option Z) (text : string) :
  keeps appended (log_issue h name w e text).
Proof.
  intros st r st' Hrun.
  destruct (log_issue_any h name w e text st)
    as (r' & st2 & rows & Hrun' & A & _ & _ & _ & T & _).
  rewrite Hrun in Hrun'. injection Hrun' as -> ->. by apply audit_only_appended.
Qed.

Lemma log_process_appended (h : host) (name : string) (target : path) :
  keeps appended (log_process h name target).
Proof.
  intros st r st' Hrun.
  destruct (log_process_any h name target st)
    as (r' & st2 & prows & irows & Hrun' & A & _ & _ & _ & _ & T & _).
  rewrite Hrun in Hrun'. injection Hrun' as -> ->. by apply audit_only_appended.
Qed.

(** X9: the two tables are append-only: whatever the sweeps do and
    whatever fails, the rows of [process_log] and of [issues] that were
    there before are still there, in the same order, at the head of the
    tables. *)
Theorem sweeps_only_append_rows (h : host) (walk : list path) (target : path)
    (st : state) :
  appended st (main_sweeps h walk target st).2.
Proof.
  apply (keeps_main_sweeps h appended (fun _ _ => True) (fun _ => True)
           appended_refl appended_trans
           (fun src dst _ => shutil_move_appended h src dst)
           (os_makedirs_appended h)
           (fun name w e text _ => log_issue_appended h name w e text)
           (fun name target _ => log_process_appended h name target)
           walk target (fun _ _ => I) (fun _ => I)
           st (main_sweeps h walk target st).1).
  apply surjective_pairing.
Qed.

(** ** The audit database and the disk *)

Lemma same_ret {A} (a : A) : same_on_disk (ret a) (ret a).
Proof. by intros st st' H. Qed.

Lemma same_lift {A} (r : result A) : same_on_disk (lift r) (lift r).
Proof. by intros st st' H. Qed.

Lemma same_gets {A} (f f' : state → A) :
  (∀ st st', on_disk st = on_disk st' → f st = f' st') →
  same_on_disk (gets f) (gets f').
Proof. intros Hf st st' H. unfold gets. cbn. split; [f_equal; by apply Hf|done]. Qed.

Lemma same_bind {A B} (c c' : M A) (k k' : A → M B) :
  same_on_disk c c' → (∀ a, same_on_disk (k a) (k' a)) →
  same_on_disk (bind c k) (bind c' k').
Proof.
  intros Hc Hk st st' H. unfold bind. destruct (Hc st st' H) as [Hr Hd].
  destruct (c st) as [[a|e] st1], (c' st') as [[a'|e'] st1']; cbn in Hr, Hd;
    try discriminate Hr.
  - injection Hr as <-. by apply Hk.
  - injection Hr as <-. done.
Qed.

Lemma same_try {A} (c c' : M A) (catches : exn → bool) (hd hd' : exn → M A) :
  same_on_disk c c' → (∀ e, same_on_disk (hd e) (hd' e)) →
  same_on_disk (try_except c catches hd) (try_except c' catches hd').
Proof.
  intros Hc Hh st st' H. unfold try_except. destruct (Hc st st' H) as [Hr Hd].
  destruct (c st) as [[a|e] st1], (c' st') as [[a'|e'] st1']; cbn in Hr, Hd;
    try discriminate Hr.
  - injection Hr as <-. done.
  - injection Hr as <-. destruct (catches e); [by apply Hh|done].
Qed.

Lemma same_for_each {A} (l : list A) (body body' : A → M unit) :
  (∀ x, same_on_disk (body x) (body' x)) →
  same_on_disk (for_each l body) (for_each l body').
Proof.
  intros Hb. induction l as [|x l IH]; cbn [for_each]; [apply same_ret|].
  apply same_bind; [apply Hb|by intros _].
Qed.

(** With databases that fail only with [sqlite3.Error], the logging
    functions return normally and leave the disk alone, whatever they are
    asked to log. *)
Lemma same_log_issue (h h' : host) (name name' : string) (w e w' e' : option Z)
    (text text' : string) :
  sink_quiet h → sink_quiet h' →
  same_on_disk (log_issue h name w e text) (log_issue h' name' w' e' text').
Proof.
  intros Hq Hq' st st' H.
  destruct (log_issue_returns h name w e text st Hq)
    as (s1 & -> & (F & D & M & T & _) & _).
  destruct (log_issue_returns h' name' w' e' text' st' Hq')
    as (s2 & -> & (F' & D' & M' & T' & _) & _).
  cbn. split; [done|]. unfold on_disk in *. by rewrite F, D, M, T, F', D', M', T'.
Qed.

Lemma same_log_process (h h' : host) (name name' : string) (target target' : path) :
  sink_quiet h → sink_quiet h' →
  same_on_disk (log_process h name target) (log_process h' name' target').
Proof.
  intros Hq Hq' st st' H.
  destruct (log_process_returns h name target st Hq)
    as (s1 & -> & (F & D & M & T & _)).
  destruct (log_process_returns h' name' target' st' Hq')
    as (s2 & -> & (F' & D' & M' & T' & _)).
  cbn. split; [done|]. unfold on_disk in *. by rewrite F, D, M, T, F', D', M', T'.
Qed.

Section Database.

Variable h : host.
Variable db : nat → string → option exn.
Hypothesis quiet : sink_quiet h.
Hypothesis quiet' : sink_quiet (with_db h db).

Lemma same_shutil_move (src dst : path) :
  same_on_disk (shutil_move h src dst) (shutil_move (with_db h db) src dst).
Proof.
  intros st st' H. unfold on_disk in H. injection H as F D M T.
  unfold shutil_move. cbn [io_fault io_leftover with_db]. rewrite <- T, <- F.
  destruct (io_fault h (io_tick st)).
  - destruct (files st !! src); [|cbn; unfold on_disk; cbn; by rewrite F, D, M, T].
    destruct (bool_decide (src = dst)); [cbn; unfold on_disk; cbn; by rewrite F, D, M, T|].
    destruct (io_leftover h (io_tick st));
      cbn; unfold on_disk; cbn; by rewrite ?F, D, M, T.
  - destruct (files st !! src); cbn; unfold on_disk; cbn; by rewrite ?F, D, M, T.
Qed.

Lemma same_exists (folder : path) (st st' : state) :
  on_disk st = on_disk st' → exists_ folder st = exists_ folder st'.
Proof. intros H. injection H as F D M T. unfold exists_. by rewrite F, D. Qed.

Lemma same_os_makedirs (folder : path) :
  same_on_disk (os_makedirs h folder) (os_makedirs (with_db h db) folder).
Proof.
  intros st st' H. pose proof (same_exists folder st st' H) as E.
  unfold on_disk in H. injection H as F D M T.
  unfold os_makedirs. cbn [io_fault with_db]. rewrite <- T, <- E.
  destruct (io_fault h (io_tick st)); [cbn; unfold on_disk; cbn; by rewrite F, D, M, T|].
  destruct (exists_ folder st); cbn; unfold on_disk; cbn; by rewrite F, D, M, T.
Qed.

Lemma same_ensure_folder (folder : path) :
  same_on_disk (ensure_folder h folder) (ensure_folder (with_db h db) folder).
Proof.
  unfold ensure_folder. apply same_bind; [apply same_gets, same_exists|].
  intros []; [apply same_ret|apply same_os_makedirs].
Qed.

Lemma same_process_file_try (p root ts un : path) :
  same_on_disk (process_file_try h p root ts un)
               (process_file_try (with_db h db) p root ts un).
Proof.
  unfold process_file_try. cbv zeta.
  change (is_image_file (with_db h db) p) with (is_image_file h p).
  change (is_video_file (with_db h db) p) with (is_video_file h p).
  apply same_bind.
  - destruct (is_image_file h p); [|destruct (is_video_file h p)].
    + apply same_bind; [|intros; apply same_ret].
      apply same_gets. intros st st' H. injection H as F _ _ _. by rewrite F.
    + apply same_bind; [|intros; apply same_ret].
      apply same_gets. intros st st' H. injection H as F _ _ _. by rewrite F.
    + apply same_bind; [apply same_shutil_move|intros _].
      apply same_bind; [by apply same_log_process|intros _].
      apply same_bind; [by apply same_log_issue|intros _]. apply same_ret.
  - intros [[date_info file_type]|]; [|apply same_ret].
    apply same_bind.
    + destruct date_info as [[year month]|].
      * apply same_bind; [apply same_ensure_folder|intros; apply same_ret].
      * apply same_bind; [by apply same_log_issue|intros; apply same_ret].
    + intros target.
      apply same_bind; [apply same_shutil_move|intros _; by apply same_log_process].
Qed.

Lemma same_process_file (p root ts un : path) :
  same_on_disk (process_file h p root ts un)
               (process_file (with_db h db) p root ts un).
Proof.
  unfold process_file. apply same_try; [apply same_process_file_try|].
  intros e. unfold process_file_except. cbv zeta.
  apply same_bind; [|intros _; by apply same_log_issue].
  apply same_try; [|intros; by apply same_log_issue].
  apply same_bind; [apply same_shutil_move|intros _; by apply same_log_process].
Qed.

Lemma same_resort_entry (ts root : path) (name : string) :
  same_on_disk (resort_entry h ts root name)
               (resort_entry (with_db h db) ts root name).
Proof.
  unfold resort_entry. cbv zeta. apply same_bind.
  - apply same_gets. intros st st' H. injection H as F _ _ _.
    unfold isfile. by rewrite F.
  - intros []; cbn [negb]; [|apply same_ret].
    change (extract_timestamp_from_filename (with_db h db) name)
      with (extract_timestamp_from_filename h name).
    apply same_bind; [apply same_lift|].
    intros [[year month]|]; [|apply same_ret].
    apply same_bind; [apply same_ensure_folder|intros _].
    apply same_try; [|intros; by apply same_log_issue].
    apply same_bind; [apply same_shutil_move|intros _].
    apply same_bind; [by apply same_log_process|intros _; by apply same_log_issue].
Qed.

Lemma same_process_unsorted_files (ts root : path) :
  same_on_disk (process_unsorted_files h ts root)
               (process_unsorted_files (with_db h db) ts root).
Proof.
  unfold process_unsorted_files. apply same_bind; [apply same_gets, same_exists|].
  intros []; cbn [negb]; [|apply same_ret].
  apply same_bind.
  - apply same_gets. intros st st' H. injection H as F D _ _.
    unfold listdir. by rewrite F, D.
  - intros names. apply same_for_each. intros name. apply same_resort_entry.
Qed.

(** X2: failures of the audit database that are [sqlite3.Error]s change
    nothing on the disk: run from the same disk under two behaviours of
    the database that raise nothing else, the two sweeps make the same
    file-system calls with the same outcomes, end with the same files,
    folders and moves, and return or raise alike. *)
Theorem database_failures_do_not_reach_the_disk (walk : list path) (target : path) :
  same_on_disk (main_sweeps h walk target) (main_sweeps (with_db h db) walk target).
Proof.
  unfold main_sweeps. cbv zeta.
  apply same_bind; [apply same_for_each; intros; apply same_ensure_folder|].
  intros _. apply same_bind.
  - apply same_try; [|intros; apply same_ret].
    unfold primary_sweep. apply same_for_each. intros p. apply same_process_file.
  - intros _. apply same_try; [|intros; apply same_ret].
    apply same_process_unsorted_files.
Qed.

End Database.

Lemma database_failures_do_not_reach_the_disk_witness :
  same_on_disk
    (main_sweeps Sample.quiet [["src"; "IMG_20190518.jpg"]] ["out"])
    (main_sweeps (with_db Sample.quiet (fun _ _ => Some SqliteError))
       [["src"; "IMG_20190518.jpg"]] ["out"]).
Proof.
  refine (database_failures_do_not_reach_the_disk Sample.quiet
            (fun _ _ => Some SqliteError) _ _ [["src"; "IMG_20190518.jpg"]] ["out"]).
  - intros n name e H. discriminate H.
  - intros n name e H. injection H as <-. reflexivity.
Defined.

(** ** Phase 1: the paths through [process_file] *)

Lemma bind_Ok {A B} (c : M A) (k : A → M B) (st st1 : state) (a : A) :
  c st = (Ok a, st1) → bind c k st = k a st1.
Proof. intros H. unfold bind. by rewrite H. Qed.

Lemma bind_Raise {A B} (c : M A) (k : A → M B) (st st1 : state) (e : exn) :
  c st = (Raise e, st1) → bind c k st = (Raise e, st1).
Proof. intros H. unfold bind. by rewrite H. Qed.

Lemma shutil_move_Ok (h : host) (src dst : path) (st : state) (f : file) :
  io_fault h (io_tick st) = None → files st !! src = Some f →
  shutil_move h src dst st =
    (Ok tt, add_moved src dst
              (set_files (<[dst := f]> (delete src (files st))) (io_step st))).
Proof. intros Hio Hf. unfold shutil_move. by rewrite Hio, Hf. Qed.

Lemma ensure_folder_there (h : host) (folder : path) (st : state) :
  exists_ folder st = true → ensure_folder h folder st = (Ok tt, st).
Proof. intros E. unfold ensure_folder, bind, gets, ret. by rewrite E. Qed.

Lemma ensure_folder_made (h : host) (folder : path) (st : state) :
  exists_ folder st = false → io_fault h (io_tick st) = None →
  ensure_folder h folder st =
    (Ok tt, set_dirs (list_to_set (ancestors folder) ∪ dirs st) (io_step st)).
Proof.
  intros E Hio. unfold ensure_folder, bind, gets, ret, os_makedirs.
  by rewrite E, Hio, E.
Qed.

Lemma ensure_folder_fault (h : host) (folder : path) (st : state) (e : exn) :
  exists_ folder st = false → io_fault h (io_tick st) = Some e →
  ensure_folder h folder st = (Raise e, io_step st).
Proof.
  intros E Hio. unfold ensure_folder, bind, gets, ret, os_makedirs.
  by rewrite E, Hio.
Qed.

(** X4: with no failure of the host, an image or video for which the
    extractor finds (year, month) is moved to
    [target_root/year/month/name]; the folder and the folders above it
    are created when the folder does not exist yet and left alone when it
    does; one process row is written and no issue. *)
Theorem dated_media_are_organized (h : host) (p root ts un : path) (st : state)
    (f : file) (year month : string) :
  files st !! p = Some f →
  route h (files st) p = Organized year month →
  io_reliable h → sink_reliable h →
  ∃ st',
    process_file h p root ts un st = (Ok tt, st') ∧
    files st' = <[join (year_month root year month) (basename p) := f]>
                  (delete p (files st)) ∧
    dirs st' = (if exists_ (year_month root year month) st then dirs st
                else list_to_set (ancestors (year_month root year month)) ∪ dirs st) ∧
    process_log st' =
      (process_log st ++
       [process_event (p, join (year_month root year month) (basename p))])%list ∧
    issues st' = issues st.
Proof.
  intros Hf Hroute Hio Hs.
  assert (Hbranch :
    ∃ st',
      (target_path <-
         (ensure_folder h (year_month root year month) ;;
          ret (join (year_month root year month) (basename p))) ;;
       shutil_move h p target_path ;; log_process h (basename p) target_path) st
      = (Ok tt, st') ∧
      files st' = <[join (year_month root year month) (basename p) := f]>
                    (delete p (files st)) ∧
      dirs st' = (if exists_ (year_month root year month) st then dirs st
                  else list_to_set (ancestors (year_month root year month)) ∪ dirs st) ∧
      process_log st' =
        (process_log st ++
         [process_event (p, join (year_month root year month) (basename p))])%list ∧
      issues st' = issues st).
  { destruct (exists_ (year_month root year month) st) eqn:E.
    - erewrite bind_Ok; [|erewrite bind_Ok; [reflexivity|by apply ensure_folder_there]].
      erewrite bind_Ok; [|by apply shutil_move_Ok].
      rewrite log_process_reliable by done. by eexists.
    - erewrite bind_Ok;
        [|erewrite bind_Ok; [reflexivity|by apply ensure_folder_made]].
      erewrite bind_Ok; [|by apply shutil_move_Ok].
      rewrite log_process_reliable by done. by eexists. }
  destruct Hbranch as (st' & Hrun & Hfacts).
  exists st'. split; [|exact Hfacts].
  unfold process_file, try_except, process_file_try. cbv zeta.
  unfold route in Hroute.
  destruct (is_image_file h p); [|destruct (is_video_file h p); [|discriminate Hroute]].
  - unfold bind at 1. unfold bind at 1. unfold gets, ret at 1.
    destruct (get_image_date_taken h (files st) p) as [[y m]|]; [|discriminate Hroute].
    injection Hroute as -> ->. by rewrite Hrun.
  - unfold bind at 1. unfold bind at 1. unfold gets, ret at 1.
    destruct (get_video_date_created h (files st) p) as [[y m]|]; [|discriminate Hroute].
    injection Hroute as -> ->. by rewrite Hrun.
Qed.

Lemma dated_media_are_organized_witness :
  ∃ st',
    process_file Sample.quiet ["src"; "a.jpg"] ["out"] ["out"; "to_sort"]
      ["out"; "unprocessable"] (Sample.disk Sample.album) = (Ok tt, st') ∧
    files st' = <[join (year_month ["out"] "2021" "03") (basename ["src"; "a.jpg"])
                    := Sample.photo 1 "2021:03:15 10:00:00"]>
                  (delete ["src"; "a.jpg"] (files (Sample.disk Sample.album))) ∧
    dirs st' = (if exists_ (year_month ["out"] "2021" "03") (Sample.disk Sample.album)
                then dirs (Sample.disk Sample.album)
                else list_to_set (ancestors (year_month ["out"] "2021" "03"))
                     ∪ dirs (Sample.disk Sample.album)) ∧
    process_log st' =
      (process_log (Sample.disk Sample.album) ++
       [process_event (["src"; "a.jpg"],
                       join (year_month ["out"] "2021" "03")
                         (basename ["src"; "a.jpg"]))])%list ∧
    issues st' = issues (Sample.disk Sample.album).
Proof.
  apply (dated_media_are_organized Sample.quiet ["src"; "a.jpg"] ["out"]
           ["out"; "to_sort"] ["out"; "unprocessable"] (Sample.disk Sample.album)
           (Sample.photo 1 "2021:03:15 10:00:00") "2021" "03").
  - reflexivity.
  - reflexivity.
  - intros n. reflexivity.
  - intros n name. reflexivity.
Defined.

(** X5: with no failure of the host, an image or video for which the
    extractor finds nothing is moved to the holding folder under its own
    name; the warning NO_DATE_METADATA is written for it, and one process
    row. *)
Theorem undated_media_are_held (h : host) (p root ts un : path) (st : state)
    (f : file) :
  files st !! p = Some f →
  route h (files st) p = NeedsSort →
  io_reliable h → sink_reliable h →
  ∃ st' r,
    process_file h p root ts un st = (Ok tt, st') ∧
    files st' = <[join ts (basename p) := f]> (delete p (files st)) ∧
    dirs st' = dirs st ∧
    process_log st' = (process_log st ++ [process_event (p, join ts (basename p))])%list ∧
    issues st' = (issues st ++ [r])%list ∧
    warning_issue (basename p) WarningCodes.NO_DATE_METADATA r.
Proof.
  intros Hf Hroute Hio Hs.
  assert (Hbranch :
    ∀ kind : string, ∃ st' r,
      (target_path <-
         (log_issue h (basename p) (Some WarningCodes.NO_DATE_METADATA) None
            ("No date metadata found for " ++ kind ++ " file: " ++ basename p) ;;
          ret (join ts (basename p))) ;;
       shutil_move h p target_path ;; log_process h (basename p) target_path) st
      = (Ok tt, st') ∧
      files st' = <[join ts (basename p) := f]> (delete p (files st)) ∧
      dirs st' = dirs st ∧
      process_log st' =
        (process_log st ++ [process_event (p, join ts (basename p))])%list ∧
      issues st' = (issues st ++ [r])%list ∧
      warning_issue (basename p) WarningCodes.NO_DATE_METADATA r).
  { intros kind.
    erewrite bind_Ok;
      [|erewrite bind_Ok; [reflexivity|by apply log_issue_reliable]].
    erewrite bind_Ok; [|by apply shutil_move_Ok].
    rewrite log_process_reliable by done. by eexists _, _. }
  unfold process_file, try_except, process_file_try. cbv zeta.
  unfold route in Hroute.
  destruct (is_image_file h p); [|destruct (is_video_file h p); [|discriminate Hroute]].
  - unfold bind at 1. unfold bind at 1. unfold gets, ret at 1.
    destruct (get_image_date_taken h (files st) p) as [[y m]|]; [discriminate Hroute|].
    destruct (Hbranch "image") as (st' & r & Hrun & Hfacts).
    exists st', r. by rewrite Hrun.
  - unfold bind at 1. unfold bind at 1. unfold gets, ret at 1.
    destruct (get_video_date_created h (files st) p) as [[y m]|]; [discriminate Hroute|].
    destruct (Hbranch "video") as (st' & r & Hrun & Hfacts).
    exists st', r. by rewrite Hrun.
Qed.

Lemma undated_media_are_held_witness :
  ∃ st' r,
    process_file Sample.quiet ["src"; "d.jpg"] ["out"] ["out"; "to_sort"]
      ["out"; "unprocessable"] (Sample.disk undated) = (Ok tt, st') ∧
    files st' = <[join ["out"; "to_sort"] (basename ["src"; "d.jpg"]) := Sample.blank 7]>
                  (delete ["src"; "d.jpg"] (files (Sample.disk undated))) ∧
    dirs st' = dirs (Sample.disk undated) ∧
    process_log st' =
      (process_log (Sample.disk undated) ++
       [process_event (["src"; "d.jpg"],
                       join ["out"; "to_sort"] (basename ["src"; "d.jpg"]))])%list ∧
    issues st' = (issues (Sample.disk undated) ++ [r])%list ∧
    warning_issue (basename ["src"; "d.jpg"]) WarningCodes.NO_DATE_METADATA r.
Proof.
  apply (undated_media_are_held Sample.quiet ["src"; "d.jpg"] ["out"]
           ["out"; "to_sort"] ["out"; "unprocessable"] (Sample.disk undated)
           (Sample.blank 7)).
  - reflexivity.
  - reflexivity.
  - intros n. reflexivity.
  - intros n name. reflexivity.
Defined.



(** ** Folders *)

Lemma ancestors_self (folder : path) : folder ≠ [] → folder ∈ ancestors folder.
Proof.
  intros Hne. unfold ancestors. apply list_elem_of_fmap.
  exists (length folder). split; [by rewrite firstn_all|].
  apply elem_of_seq. destruct folder; [done|]. simpl. lia.
Qed.

(** X7: the folder check is idempotent: once it has returned, the folder
    exists, and checking again returns at once without calling the file
    system; it never touches a file, and never removes a folder. *)
Theorem ensure_folder_is_idempotent (h : host) (folder : path) (st st1 : state) :
  folder ≠ [] →
  ensure_folder h folder st = (Ok tt, st1) →
  exists_ folder st1 = true ∧
  ensure_folder h folder st1 = (Ok tt, st1) ∧
  files st1 = files st ∧ dirs st ⊆ dirs st1.
Proof.
  intros Hne. unfold ensure_folder at 1. unfold bind, gets, ret, os_makedirs.
  destruct (exists_ folder st) eqn:E.
  - intros [= <-]. split; [done|]. split; [by apply ensure_folder_there|]. done.
  - destruct (io_fault h (io_tick st)); [discriminate|]. rewrite E.
    intros [= <-].
    assert (E1 : exists_ folder
                   (set_dirs (list_to_set (ancestors folder) ∪ dirs st) (io_step st))
                 = true).
    { unfold exists_. cbn. apply orb_true_iff. right. apply bool_decide_eq_true.
      apply elem_of_union. left. apply elem_of_list_to_set. by apply ancestors_self. }
    split; [done|]. split; [by apply ensure_folder_there|].
    split; [done|]. cbn. set_solver.
Qed.

Lemma ensure_folder_is_idempotent_witness :
  exists_ ["out"; "2021"; "03"]
    (ensure_folder Sample.quiet ["out"; "2021"; "03"] (Sample.disk Sample.album)).2
  = true.
Proof.
  apply (ensure_folder_is_idempotent Sample.quiet ["out"; "2021"; "03"]
           (Sample.disk Sample.album)
           (ensure_folder Sample.quiet ["out"; "2021"; "03"] (Sample.disk Sample.album)).2).
  - discriminate.
  - reflexivity.
Defined.

(** ** Phase 2: the paths through the loop of [process_unsorted_files] *)

Lemma resort_entry_dated (h : host) (ts root : path) (name : string)
    (st : state) (f : file) (year month : string) :
  files st !! join ts name = Some f →
  extract_timestamp_from_filename h name = Ok (Some (year, month)) →
  resort_entry h ts root name st =
    (ensure_folder h (year_month root year month) ;;
     try_except
       (shutil_move h (join ts name) (join (year_month root year month) name) ;;
        log_process h name (join (year_month root year month) name) ;;
        log_issue h name (Some WarningCodes.NO_DATE_METADATA) None
          ("Moved based on filename timestamp: " ++ year ++ "-" ++ month))
       Exception
       (fun e =>
          log_issue h name None (Some ErrorCodes.MOVE_ERROR)
            ("Failed to move file from to_sort folder: " ++ message h e))) st.
Proof.
  intros Hf He. unfold resort_entry. cbv zeta. unfold bind at 1. unfold gets.
  unfold isfile. rewrite bool_decide_eq_true_2 by (by eexists). cbn [negb].
  unfold bind at 1. unfold lift. by rewrite He.
Qed.

(** X10: in the resort sweep, with no failure of the host, a file of the
    holding folder whose name yields (year, month) is moved to
    [target_root/year/month] under the same name; one process row and the
    warning that it was moved on the evidence of its name are written. *)
Theorem dated_names_are_resorted (h : host) (ts root : path) (name : string)
    (st : state) (f : file) (year month : string) :
  files st !! join ts name = Some f →
  extract_timestamp_from_filename h name = Ok (Some (year, month)) →
  io_reliable h → sink_reliable h →
  ∃ st',
    resort_entry h ts root name st = (Ok tt, st') ∧
    files st' = <[join (year_month root year month) name := f]>
                  (delete (join ts name) (files st)) ∧
    process_log st' =
      (process_log st ++
       [{| p_filename := name;
           p_target_folder := join (year_month root year month) name |}])%list ∧
    issues st' = (issues st ++ [resorted_issue name year month])%list.
Proof.
  intros Hf He Hio Hs. rewrite (resort_entry_dated h ts root name st f year month Hf He).
  destruct (exists_ (year_month root year month) st) eqn:E.
  - erewrite bind_Ok; [|by apply ensure_folder_there].
    unfold try_except.
    erewrite bind_Ok; [|by apply shutil_move_Ok].
    erewrite bind_Ok; [|by apply log_process_reliable].
    rewrite log_issue_reliable by done. by eexists.
  - erewrite bind_Ok; [|by apply ensure_folder_made].
    unfold try_except.
    erewrite bind_Ok; [|by apply shutil_move_Ok].
    erewrite bind_Ok; [|by apply log_process_reliable].
    rewrite log_issue_reliable by done. by eexists.
Qed.

Lemma dated_names_are_resorted_witness :
  ∃ st',
    resort_entry Sample.quiet ["out"; "to_sort"] ["out"] "IMG_20230714.jpg"
      (Sample.disk Sample.holding) = (Ok tt, st') ∧
    files st' = <[join (year_month ["out"] "2023" "07") "IMG_20230714.jpg"
                    := Sample.blank 6]>
                  (delete (join ["out"; "to_sort"] "IMG_20230714.jpg")
                     (files (Sample.disk Sample.holding))) ∧
    process_log st' =
      (process_log (Sample.disk Sample.holding) ++
       [{| p_filename := "IMG_20230714.jpg";
           p_target_folder :=
             join (year_month ["out"] "2023" "07") "IMG_20230714.jpg" |}])%list ∧
    issues st' = (issues (Sample.disk Sample.holding)
                  ++ [resorted_issue "IMG_20230714.jpg" "2023" "07"])%list.
Proof.
  apply (dated_names_are_resorted Sample.quiet ["out"; "to_sort"] ["out"]
           "IMG_20230714.jpg" (Sample.disk Sample.holding) (Sample.blank 6)
           "2023" "07").
  - reflexivity.
  - reflexivity.
  - intros n. reflexivity.
  - intros n name. reflexivity.
Defined.

Lemma shutil_move_faulted (h : host) (src dst : path) (st : state) (f : file)
    (e : exn) :
  io_fault h (io_tick st) = Some e → files st !! src = Some f →
  ∃ st1, shutil_move h src dst st = (Raise e, st1) ∧
         move_failed src dst st st1 ∧
         (io_leftover h (io_tick st) = Untouched → files st1 = files st).
Proof.
  intros Hio Hf.
  destruct (shutil_move_cases h src dst st)
    as [(e' & st1 & Hrun & Hm & _ & Hl)|(g & Hio' & _)]; [|congruence].
  exists st1. split; [|done].
  rewrite Hrun. f_equal. f_equal.
  unfold shutil_move in Hrun. rewrite Hio, Hf in Hrun.
  destruct (bool_decide (src = dst)); [congruence|].
  destruct (io_leftover h (io_tick st)); congruence.
Qed.

(** X11: when the move of a dated file fails in the resort sweep, the
    file stays in the holding folder; a copy of it, or a part, may be left
    at the destination, and nothing else on the disk changes (nothing at
    all when the failed move left nothing behind); the issue MOVE_ERROR is
    written for it with the message of the error, and no process row; the
    iteration returns normally, so the sweep goes on with the next name. *)
Theorem failed_resort_is_reported (h : host) (ts root : path) (name : string)
    (st : state) (f : file) (year month : string) (e : exn) :
  files st !! join ts name = Some f →
  extract_timestamp_from_filename h name = Ok (Some (year, month)) →
  exists_ (year_month root year month) st = true →
  io_fault h (io_tick st) = Some e →
  sink_reliable h →
  ∃ st',
    resort_entry h ts root name st = (Ok tt, st') ∧
    files st' !! join ts name = Some f ∧
    (∀ q, q ≠ join (year_month root year month) name →
          files st' !! q = files st !! q) ∧
    (io_leftover h (io_tick st) = Untouched → files st' = files st) ∧
    dirs st' = dirs st ∧ moved st' = moved st ∧
    process_log st' = process_log st ∧
    issues st' = (issues st ++ [resort_failed_issue h name e])%list.
Proof.
  intros Hf He E Hio Hs.
  rewrite (resort_entry_dated h ts root name st f year month Hf He).
  erewrite bind_Ok; [|by apply ensure_folder_there].
  unfold try_except.
  destruct (shutil_move_faulted h (join ts name)
              (join (year_month root year month) name) st f e Hio Hf)
    as (st1 & Hrun & (D & M & P & I & _ & _ & Fsrc & Fout & _) & Hl).
  erewrite bind_Raise; [|exact Hrun]. cbn [Exception].
  rewrite log_issue_reliable by done. eexists. split; [done|]. cbn.
  rewrite Fsrc, I. repeat split; try done.
Qed.

Lemma failed_resort_is_reported_witness :
  ∃ st',
    resort_entry Sample.sticky ["out"; "to_sort"] ["out"] "IMG_20230714.jpg"
      (set_dirs {[ ["out"; "2023"; "07"] ]} (Sample.disk Sample.holding))
    = (Ok tt, st') ∧
    files st' !! join ["out"; "to_sort"] "IMG_20230714.jpg" = Some (Sample.blank 6) ∧
    (∀ q, q ≠ join (year_month ["out"] "2023" "07") "IMG_20230714.jpg" →
          files st' !! q
          = files (set_dirs {[ ["out"; "2023"; "07"] ]} (Sample.disk Sample.holding))
              !! q) ∧
    (io_leftover Sample.sticky
       (io_tick (set_dirs {[ ["out"; "2023"; "07"] ]} (Sample.disk Sample.holding)))
     = Untouched →
     files st'
     = files (set_dirs {[ ["out"; "2023"; "07"] ]} (Sample.disk Sample.holding))) ∧
    dirs st' = dirs (set_dirs {[ ["out"; "2023"; "07"] ]} (Sample.disk Sample.holding)) ∧
    moved st' = moved (set_dirs {[ ["out"; "2023"; "07"] ]} (Sample.disk Sample.holding)) ∧
    process_log st'
    = process_log (set_dirs {[ ["out"; "2023"; "07"] ]} (Sample.disk Sample.holding)) ∧
    issues st'
    = (issues (set_dirs {[ ["out"; "2023"; "07"] ]} (Sample.disk Sample.holding))
       ++ [resort_failed_issue Sample.sticky "IMG_20230714.jpg" OSError])%list.
Proof.
  apply (failed_resort_is_reported Sample.sticky ["out"; "to_sort"]
           ["out"] "IMG_20230714.jpg"
           (set_dirs {[ ["out"; "2023"; "07"] ]} (Sample.disk Sample.holding))
           (Sample.blank 6) "2023" "07" OSError).
  - reflexivity.
  - reflexivity.
  - reflexivity.
  - reflexivity.
  - intros n name. reflexivity.
Defined.

(** X12: in the resort sweep the creation of the year/month folder is
    outside the [try]: when it fails the error leaves the loop, the file
    stays in the holding folder, no issue is written for it, and the names
    after it are not visited at all. *)
Theorem failed_folder_stops_the_resort (h : host) (ts root : path) (name : string)
    (rest : list string) (st : state) (f : file) (year month : string) (e : exn) :
  files st !! join ts name = Some f →
  extract_timestamp_from_filename h name = Ok (Some (year, month)) →
  exists_ (year_month root year month) st = false →
  io_fault h (io_tick st) = Some e →
  for_each (name :: rest) (resort_entry h ts root) st = (Raise e, io_step st).
Proof.
  intros Hf He E Hio. cbn [for_each].
  apply bind_Raise.
  rewrite (resort_entry_dated h ts root name st f year month Hf He).
  apply bind_Raise. by apply ensure_folder_fault.
Qed.

Lemma failed_folder_stops_the_resort_witness :
  for_each ["IMG_20230714.jpg"; "holiday.jpg"]
    (resort_entry Sample.readonly ["out"; "to_sort"] ["out"])
    (Sample.disk Sample.holding)
  = (Raise OSError, io_step (Sample.disk Sample.holding)).
Proof.
  apply (failed_folder_stops_the_resort Sample.readonly ["out"; "to_sort"] ["out"]
           "IMG_20230714.jpg" ["holiday.jpg"] (Sample.disk Sample.holding)
           (Sample.blank 6) "2023" "07" OSError); reflexivity.
Defined.

(** ** Video extractor: the order of the strategies *)

Lemma hachoir_first_field (f : file) (attrs : list (string * attr)) :
  container f = Metadata attrs →
  hachoir_strategy f =
    match first_field attrs with
    | Some (AttrDate date) => Ok (Some (date_evidence date))
    | Some AttrOther => Raise AttributeError
    | None => Ok None
    end.
Proof.
  intros Hc. unfold hachoir_strategy, first_field. rewrite Hc. cbn [for_first].
  destruct (getattr attrs "creation_date") as [[date|]|]; try done.
  destruct (getattr attrs "datetime_original") as [[date|]|]; try done.
  by destruct (getattr attrs "creation_datetime") as [[date|]|].
Qed.

(** X14: of the fields [creation_date], [datetime_original] and
    [creation_datetime] of the container metadata, the first that is
    there decides: when its value is a date, that date is the evidence,
    whatever ffprobe and the file times would say; when its value is not
    a date, the extractor answers [None] and tries nothing else. *)
Theorem first_metadata_field_decides (h : host) (fs : gmap path file) (p : path)
    (f : file) (attrs : list (string * attr)) :
  fs !! p = Some f →
  container f = Metadata attrs →
  (∀ date, first_field attrs = Some (AttrDate date) →
           get_video_date_created h fs p = Some (date_evidence date)) ∧
  (first_field attrs = Some AttrOther → get_video_date_created h fs p = None).
Proof.
  intros Hp Hc. unfold get_video_date_created, video_try. rewrite Hp.
  rewrite (hachoir_first_field f attrs Hc).
  split; [intros date Hd|intros Hd]; by rewrite Hd.
Qed.

Lemma first_metadata_field_decides_witness :
  get_video_date_created (probing None) tagged_clips ["src"; "e.mp4"]
  = Some ("2017", "02").
Proof.
  apply (proj1 (first_metadata_field_decides (probing None) tagged_clips
                  ["src"; "e.mp4"] (clip (Some two_fields) 0) two_fields
                  eq_refl eq_refl)
           {| dt_year := 2017; dt_month := 2; dt_valid := I |}).
  reflexivity.
Defined.

Lemma stat_strategy_file_times (f : file) : stat_strategy f = Ok (file_times f).
Proof.
  unfold stat_strategy, file_times. cbn [for_first].
  destruct (1980 <? dt_year (st_ctime f)); [done|].
  by destruct (1980 <? dt_year (st_mtime f)).
Qed.

(** X15: when ffprobe is installed and hachoir found no date, a run of
    ffprobe that exits with a non-zero code, or whose output is not JSON,
    is passed over and the file times decide: the creation time when its
    year is after 1980, else the modification time when its year is after
    1980, else nothing. *)
Theorem failed_probe_falls_back_to_file_times (h : host) (fs : gmap path file)
    (p : path) (f : file) (returncode : Z) (stdout : string) :
  fs !! p = Some f →
  hachoir_strategy f = Ok None →
  ffprobe_installed h = true →
  ffprobe f = Completed returncode stdout →
  returncode ≠ 0%Z ∨ json_loads h stdout = None →
  get_video_date_created h fs p = file_times f.
Proof.
  intros Hp Hh Hi Hf Hwhy.
  unfold get_video_date_created, video_try. rewrite Hp, Hh.
  unfold ffprobe_strategy, ffprobe_try. rewrite Hi, Hf.
  destruct (bool_decide (returncode = 0%Z)) eqn:E.
  - destruct Hwhy as [Hrc|Hjson].
    + apply bool_decide_eq_true in E. done.
    + rewrite Hjson. cbn [ffprobe_errors]. by rewrite stat_strategy_file_times.
  - by rewrite stat_strategy_file_times.
Qed.

Lemma failed_probe_falls_back_to_file_times_witness :
  get_video_date_created (probing None) bare_clips ["src"; "e.mp4"]
  = Some ("2019", "05").
Proof.
  apply (failed_probe_falls_back_to_file_times (probing None) bare_clips
           ["src"; "e.mp4"] (clip None 0) 0%Z "{}" eq_refl eq_refl eq_refl eq_refl).
  right. reflexivity.
Defined.

Lemma dict_get_in (items : list (string * json)) (key : string) (v : json) :
  dict_get items key = Some v → key ∈ items.*1.
Proof.
  induction items as [|[k x] items IH]; [done|]. cbn [dict_get].
  destruct (bool_decide (k = key)) eqn:E.
  - apply bool_decide_eq_true in E as ->. intros _. cbn. left.
  - intros H. cbn. right. by apply IH.
Qed.

Lemma py_in_dict (items : list (string * json)) (key : string) (v : json) :
  dict_get items key = Some v → py_in key (JDict items) = Ok true.
Proof.
  intros H. cbn [py_in]. by rewrite bool_decide_eq_true_2 by by eapply dict_get_in.
Qed.

Lemma py_getitem_dict (items : list (string * json)) (key : string) (v : json) :
  dict_get items key = Some v → py_getitem (JDict items) key = Ok v.
Proof. intros H. cbn [py_getitem]. by rewrite H. Qed.

(** X16: when hachoir found no date and ffprobe prints JSON whose
    [format] section has tags with a [creation_time], that value decides:
    if it is text, the first of the three formats that parses it gives the
    evidence; if it is not text, the extractor answers [None] and the file
    times are not consulted. *)
Theorem probe_creation_time_decides (h : host) (fs : gmap path file) (p : path)
    (f : file) (stdout : string) (items section tags : list (string * json))
    (value : json) :
  fs !! p = Some f →
  hachoir_strategy f = Ok None →
  ffprobe_installed h = true →
  ffprobe f = Completed 0 stdout →
  json_loads h stdout = Some (JDict items) →
  dict_get items "format" = Some (JDict section) →
  dict_get section "tags" = Some (JDict tags) →
  dict_get tags "creation_time" = Some value →
  (∀ s i fmt date,
     value = JStr s →
     formats !! i = Some fmt → strptime h s fmt = Some date →
     (∀ j fmt', (j < i)%nat → formats !! j = Some fmt' → strptime h s fmt' = None) →
     get_video_date_created h fs p = Some (date_evidence date)) ∧
  ((∀ s, value ≠ JStr s) → get_video_date_created h fs p = None).
Proof.
  intros Hp Hh Hi Hf Hjson Hformat Htags Htime.
  assert (Hscan : for_first (scan_section h (JDict items)) ["format"; "streams"]
                  = match parse_date h value with
                    | Ok None =>
                        for_first (scan_section h (JDict items)) ["format"; "streams"]
                    | r => r
                    end).
  { destruct (parse_date h value) as [[ev|]|e] eqn:E; [|done|].
    - cbn [for_first]. unfold scan_section at 1.
      rewrite (py_in_dict items "format" _ Hformat).
      rewrite (py_getitem_dict items "format" _ Hformat).
      cbn [for_first]. unfold scan_item.
      rewrite (py_in_dict section "tags" _ Htags).
      rewrite (py_getitem_dict section "tags" _ Htags).
      unfold scan_tags. cbn [for_first].
      rewrite (py_in_dict tags "creation_time" _ Htime).
      rewrite (py_getitem_dict tags "creation_time" _ Htime). by rewrite E.
    - cbn [for_first]. unfold scan_section at 1.
      rewrite (py_in_dict items "format" _ Hformat).
      rewrite (py_getitem_dict items "format" _ Hformat).
      cbn [for_first]. unfold scan_item.
      rewrite (py_in_dict section "tags" _ Htags).
      rewrite (py_getitem_dict section "tags" _ Htags).
      unfold scan_tags. cbn [for_first].
      rewrite (py_in_dict tags "creation_time" _ Htime).
      rewrite (py_getitem_dict tags "creation_time" _ Htime). by rewrite E. }
  unfold get_video_date_created, video_try. rewrite Hp, Hh.
  unfold ffprobe_strategy, ffprobe_try. rewrite Hi, Hf.
  rewrite bool_decide_eq_true_2 by done. rewrite Hjson, Hscan.
  split.
  - intros s i fmt date -> Hfmt Hparse Hearlier.
    assert (Hd : parse_date h (JStr s) = Ok (Some (date_evidence date))).
    { apply for_first_Some. exists i, fmt. split; [done|].
      split; [by rewrite Hparse|].
      intros j fmt' Hj Hfmt'. by rewrite (Hearlier j fmt' Hj Hfmt'). }
    by rewrite Hd.
  - intros Hnot.
    assert (Hd : parse_date h value = Raise TypeError).
    { unfold parse_date, formats. cbn [for_first].
      destruct value; try done. by destruct (Hnot s). }
    by rewrite Hd.
Qed.

Lemma probe_creation_time_decides_witness :
  get_video_date_created (probing (Some (probe_output (JStr "2018-11-03 09:30:00"))))
    bare_clips ["src"; "e.mp4"]
  = Some ("2018", "11").
Proof.
  apply (proj1 (probe_creation_time_decides
                  (probing (Some (probe_output (JStr "2018-11-03 09:30:00"))))
                  bare_clips ["src"; "e.mp4"] (clip None 0) "{}"
                  [("streams", JList []);
                   ("format", JDict [("filename", JStr "e.mp4");
                                     ("tags", JDict [("creation_time",
                                                      JStr "2018-11-03 09:30:00")])])]
                  [("filename", JStr "e.mp4");
                   ("tags", JDict [("creation_time", JStr "2018-11-03 09:30:00")])]
                  [("creation_time", JStr "2018-11-03 09:30:00")]
                  (JStr "2018-11-03 09:30:00")
                  eq_refl eq_refl eq_refl eq_refl eq_refl eq_refl eq_refl eq_refl)
           "2018-11-03 09:30:00" 1%nat "%Y-%m-%d %H:%M:%S"
           {| dt_year := 2018; dt_month := 11; dt_valid := I |} eq_refl eq_refl eq_refl).
  intros [|j] fmt' Hj Hfmt'; [|lia]. injection Hfmt' as <-. reflexivity.
Defined.

(** ** Names that carry a well-formed date *)

(** X17: a name in which one of the year-first patterns (all but
    [DD-MM-YYYY]) is the first to be accepted, its year and month written
    with the ASCII digits 0 to 9 and the year from 1000 on, is filed under
    the year and the month exactly as they are written in the name:
    converting them to numbers and back changes nothing.  (Digits of
    other scripts, which [\d] also matches, come back as ASCII digits.) *)
Theorem well_formed_name_is_read_back (h : host) (filename : string) (i : nat)
    (q : Re.pattern) (yyyy mm : string) :
  patterns !! i = Some q → q ≠ dmy_pattern →
  (∀ j q', (j < i)%nat → patterns !! j = Some q' → skipped h filename q') →
  Re.search q filename = Some [yyyy; mm] →
  is_digits 4 yyyy = true → is_digits 2 mm = true →
  not_future h (Py.int yyyy) (Py.int mm) = true →
  1000 ≤ Py.int yyyy →
  extract_timestamp_from_filename h filename = Ok (Some (yyyy, mm)).
Proof.
  intros Hi Hq Hearlier Hs Hy4 Hm2 Hn Hy.
  unfold extract_timestamp_from_filename. apply for_first_Some.
  exists i, q. split; [done|]. split.
  - apply try_pattern_Some. exists yyyy, mm. split; [done|]. split; [done|].
    by rewrite str_int_four_digits, fmt_int_two_digits.
  - intros j q' Hj Hq'. apply try_pattern_None. by eapply Hearlier.
Qed.

Lemma well_formed_name_is_read_back_witness :
  extract_timestamp_from_filename Sample.quiet "holiday_20230714.jpg"
    = Ok (Some ("2023", "07")).
Proof.
  apply (well_formed_name_is_read_back Sample.quiet "holiday_20230714.jpg" 2
           compact_pattern "2023" "07").
  - reflexivity.
  - discriminate.
  - intros [|[|j]] q' Hj Hq'; [| |lia]; injection Hq' as <-; left; reflexivity.
  - reflexivity.
  - reflexivity.
  - reflexivity.
  - reflexivity.
  - vm_compute. discriminate.
Defined.

(** ** The two sweeps together *)

Lemma try_except_Ok {A} (c : M A) (catches : exn → bool) (handler : exn → M A)
    (st st1 : state) (a : A) :
  c st = (Ok a, st1) → try_except c catches handler st = (Ok a, st1).
Proof. intros H. unfold try_except. by rewrite H. Qed.

Lemma filter_nil_elem {A} (P : A → Prop) `{∀ x, Decision (P x)} (l : list A) (x : A) :
  filter P l = [] → x ∈ l → ¬ P x.
Proof.
  intros Hnil Hx HP.
  assert (Hin : x ∈ filter P l) by (by apply list_elem_of_filter).
  rewrite Hnil in Hin. by apply elem_of_nil in Hin.
Qed.

Lemma NoDup_only {A} (l : list A) (x : A) :
  NoDup l → (∀ y, y ∈ l ↔ y = x) → l = [x].
Proof.
  intros Hnd H. destruct l as [|a l].
  - exfalso. apply (elem_of_nil x). by apply H.
  - assert (a = x) as -> by (apply H; left).
    destruct l as [|b l]; [done|].
    assert (b = x) as -> by (apply H; right; left).
    apply NoDup_cons in Hnd as [Hnd _]. exfalso. apply Hnd. left.
Qed.

(** The state after the no-date branch of [process_file]. *)
Lemma process_file_held_run (h : host) (p root ts un : path) (st : state) (f : file) :
  files st !! p = Some f →
  route h (files st) p = NeedsSort →
  io_reliable h → sink_reliable h →
  ∃ r,
    warning_issue (basename p) WarningCodes.NO_DATE_METADATA r ∧
    process_file h p root ts un st =
      (Ok tt,
       add_process (process_event (p, join ts (basename p)))
         (db_step
            (add_moved p (join ts (basename p))
               (set_files (<[join ts (basename p) := f]> (delete p (files st)))
                  (io_step (add_issue r (db_step st))))))).
Proof.
  intros Hf Hroute Hio Hs.
  assert (Hbranch :
    ∀ kind : string, ∃ r,
      warning_issue (basename p) WarningCodes.NO_DATE_METADATA r ∧
      (target_path <-
         (log_issue h (basename p) (Some WarningCodes.NO_DATE_METADATA) None
            ("No date metadata found for " ++ kind ++ " file: " ++ basename p) ;;
          ret (join ts (basename p))) ;;
       shutil_move h p target_path ;; log_process h (basename p) target_path) st
      = (Ok tt,
         add_process (process_event (p, join ts (basename p)))
           (db_step
              (add_moved p (join ts (basename p))
                 (set_files (<[join ts (basename p) := f]> (delete p (files st)))
                    (io_step (add_issue r (db_step st)))))))).
  { intros kind. eexists. split; [|
      erewrite bind_Ok;
        [|erewrite bind_Ok; [reflexivity|by apply log_issue_reliable]];
      erewrite bind_Ok; [|by apply shutil_move_Ok];
      rewrite log_process_reliable by done; reflexivity].
    done. }
  unfold process_file, try_except, process_file_try. cbv zeta.
  unfold route in Hroute.
  destruct (is_image_file h p); [|destruct (is_video_file h p); [|discriminate Hroute]].
  - unfold bind at 1. unfold bind at 1. unfold gets, ret at 1.
    destruct (get_image_date_taken h (files st) p) as [[y m]|]; [discriminate Hroute|].
    destruct (Hbranch "image") as (r & Hr & Hrun).
    exists r. split; [done|]. by rewrite Hrun.
  - unfold bind at 1. unfold bind at 1. unfold gets, ret at 1.
    destruct (get_video_date_created h (files st) p) as [[y m]|]; [discriminate Hroute|].
    destruct (Hbranch "video") as (r & Hr & Hrun).
    exists r. split; [done|]. by rewrite Hrun.
Qed.

(** The move of a dated name in the resort sweep, with what it leaves in
    the journal. *)
Lemma resort_entry_run (h : host) (ts root : path) (name : string)
    (st : state) (f : file) (year month : string) :
  files st !! join ts name = Some f →
  extract_timestamp_from_filename h name = Ok (Some (year, month)) →
  io_reliable h → sink_reliable h →
  ∃ st',
    resort_entry h ts root name st = (Ok tt, st') ∧
    files st' = <[join (year_month root year month) name := f]>
                  (delete (join ts name) (files st)) ∧
    moved st' = (moved st ++
                 [(join ts name, join (year_month root year month) name)])%list ∧
    process_log st' =
      (process_log st ++
       [{| p_filename := name;
           p_target_folder := join (year_month root year month) name |}])%list ∧
    issues st' = (issues st ++ [resorted_issue name year month])%list.
Proof.
  intros Hf He Hio Hs. rewrite (resort_entry_dated h ts root name st f year month Hf He).
  destruct (exists_ (year_month root year month) st) eqn:E.
  - erewrite bind_Ok; [|by apply ensure_folder_there].
    unfold try_except.
    erewrite bind_Ok; [|by apply shutil_move_Ok].
    erewrite bind_Ok; [|by apply log_process_reliable].
    rewrite log_issue_reliable by done. by eexists.
  - erewrite bind_Ok; [|by apply ensure_folder_made].
    unfold try_except.
    erewrite bind_Ok; [|by apply shutil_move_Ok].
    erewrite bind_Ok; [|by apply log_process_reliable].
    rewrite log_issue_reliable by done. by eexists.
Qed.

(** What [os.listdir] of an empty holding folder answers after one file
    was moved into it. *)
Lemma listdir_after_hold (ts p : path) (name : string) (f : file) (st st1 : state) :
  listdir ts st = [] →
  files st1 = <[join ts name := f]> (delete p (files st)) →
  dirs st1 = dirs st →
  listdir ts st1 = [name].
Proof.
  unfold listdir. intros Hempty Hfiles Hdirs.
  apply fmap_nil_inv in Hempty.
  rewrite (NoDup_only
             (filter (λ q : path, q ≠ [] ∧ dirname q = ts)
                     (elements (dom (files st1) ∪ dirs st1)))
             (join ts name)).
  - simpl. unfold basename, join. by rewrite last_last.
  - apply NoDup_filter, NoDup_elements.
  - intros q. rewrite list_elem_of_filter, elem_of_elements, Hfiles, Hdirs. split.
    + intros [HP Hin].
      destruct (decide (q = join ts name)) as [|Hne]; [done|]. exfalso.
      apply (filter_nil_elem _ _ q Hempty); [|done].
      apply elem_of_elements. apply elem_of_union in Hin as [Hin|Hin].
      * apply elem_of_union. left. apply elem_of_dom in Hin. apply elem_of_dom.
        rewrite lookup_insert_ne in Hin by done.
        destruct (decide (q = p)) as [->|Hqp].
        -- rewrite lookup_delete_eq in Hin. by destruct Hin.
        -- by rewrite lookup_delete_ne in Hin.
      * apply elem_of_union. by right.
    + intros ->. split; [split|].
      * unfold join. by destruct ts.
      * unfold dirname, join. apply removelast_last.
      * apply elem_of_union. left. apply elem_of_dom. rewrite lookup_insert_eq. eauto.
Qed.

(** X18: the two sweeps compose: in one run without failures, an image or
    video that has no date in its metadata but a dated name goes through
    the holding folder, which was empty, and ends in
    [target/year/month/name]; nothing else on the disk changes; two
    process rows (one per move) and two NO_DATE_METADATA warnings are
    written for it. *)
Theorem undated_media_with_dated_names_are_filed (h : host) (p target : path)
    (st : state) (f : file) (year month : string) :
  files st !! p = Some f →
  route h (files st) p = NeedsSort →
  extract_timestamp_from_filename h (basename p) = Ok (Some (year, month)) →
  io_reliable h → sink_reliable h →
  target ∈ dirs st → join target "to_sort" ∈ dirs st →
  join target "unprocessable" ∈ dirs st →
  listdir (join target "to_sort") st = [] →
  ∃ st' r,
    main_sweeps h [p] target st = (Ok tt, st') ∧
    files st' = <[join (year_month target year month) (basename p) := f]>
                  (delete p (files st)) ∧
    moved st' =
      (moved st ++
       [(p, join (join target "to_sort") (basename p));
        (join (join target "to_sort") (basename p),
         join (year_month target year month) (basename p))])%list ∧
    process_log st' =
      (process_log st ++
       [process_event (p, join (join target "to_sort") (basename p));
        {| p_filename := basename p;
           p_target_folder := join (year_month target year month) (basename p) |}])%list ∧
    issues st' = (issues st ++ [r; resorted_issue (basename p) year month])%list ∧
    warning_issue (basename p) WarningCodes.NO_DATE_METADATA r.
Proof.
  intros Hf Hroute Hname Hio Hs Ht Hts Hun Hempty.
  destruct (process_file_held_run h p target (join target "to_sort")
              (join target "unprocessable") st f Hf Hroute Hio Hs)
    as (r & Hr & Hrun1).
  remember (add_process (process_event (p, join (join target "to_sort") (basename p)))
              (db_step
                 (add_moved p (join (join target "to_sort") (basename p))
                    (set_files (<[join (join target "to_sort") (basename p) := f]>
                                  (delete p (files st)))
                       (io_step (add_issue r (db_step st))))))) as st1 eqn:Est1.
  assert (Hfiles1 : files st1 = <[join (join target "to_sort") (basename p) := f]>
                                  (delete p (files st))) by (by subst st1).
  assert (Hdirs1 : dirs st1 = dirs st) by (by subst st1).
  assert (Hmoved1 : moved st1 =
                    (moved st ++ [(p, join (join target "to_sort") (basename p))])%list)
    by (by subst st1).
  assert (Hlog1 : process_log st1 =
                  (process_log st ++
                   [process_event (p, join (join target "to_sort") (basename p))])%list)
    by (by subst st1).
  assert (Hissues1 : issues st1 = (issues st ++ [r])%list) by (by subst st1).
  clear Est1.
  assert (Hlook : files st1 !! join (join target "to_sort") (basename p) = Some f).
  { rewrite Hfiles1. apply lookup_insert_eq. }
  destruct (resort_entry_run h (join target "to_sort") target (basename p) st1 f
              year month Hlook Hname Hio Hs)
    as (st2 & Hrun2 & Hfiles2 & Hmoved2 & Hlog2 & Hissues2).
  assert (Hfresh : files st !! join (join target "to_sort") (basename p) = None).
  { destruct (files st !! join (join target "to_sort") (basename p)) as [g|] eqn:E;
      [|done]. exfalso.
    unfold listdir in Hempty. apply fmap_nil_inv in Hempty.
    apply (filter_nil_elem _ _ (join (join target "to_sort") (basename p)) Hempty).
    - apply elem_of_elements, elem_of_union. left. apply elem_of_dom. eauto.
    - split.
      + unfold join. by destruct (target ++ ["to_sort"])%list.
      + unfold dirname, join. apply removelast_last. }
  exists st2, r. split; [|split; [|split; [|split; [|split]]]].
  - unfold main_sweeps. cbv zeta. cbn [for_each].
    erewrite bind_Ok;
      [|erewrite bind_Ok;
          [erewrite bind_Ok;
             [erewrite bind_Ok; [reflexivity|]|]|];
        apply ensure_folder_there; unfold exists_;
        apply orb_true_iff; right; by apply bool_decide_eq_true].
    erewrite bind_Ok;
      [|apply try_except_Ok; unfold primary_sweep; cbv zeta; cbn [for_each];
        erewrite bind_Ok; [reflexivity|exact Hrun1]].
    apply try_except_Ok. unfold process_unsorted_files.
    unfold bind at 1. unfold gets at 1.
    assert (Hex : exists_ (join target "to_sort") st1 = true).
    { unfold exists_. apply orb_true_iff. right. apply bool_decide_eq_true.
      by rewrite Hdirs1. }
    rewrite Hex. cbn [negb]. unfold bind at 1. unfold gets at 1.
    rewrite (listdir_after_hold (join target "to_sort") p (basename p) f st st1
               Hempty Hfiles1 Hdirs1).
    cbn [for_each]. erewrite bind_Ok; [reflexivity|exact Hrun2].
  - rewrite Hfiles2, Hfiles1, delete_insert_eq.
    rewrite (delete_id (delete p (files st))); [done|].
    apply lookup_delete_None. by right.
  - by rewrite Hmoved2, Hmoved1, <- app_assoc.
  - by rewrite Hlog2, Hlog1, <- app_assoc.
  - by rewrite Hissues2, Hissues1, <- app_assoc.
  - done.
Qed.

Lemma undated_media_with_dated_names_are_filed_witness :
  ∃ st' r,
    main_sweeps Sample.quiet [["src"; "IMG_20230714.jpg"]] ["out"]
      (Sample.disk unsorted_photo) = (Ok tt, st') ∧
    files st' = <[join (year_month ["out"] "2023" "07")
                    (basename ["src"; "IMG_20230714.jpg"]) := Sample.blank 9]>
                  (delete ["src"; "IMG_20230714.jpg"]
                     (files (Sample.disk unsorted_photo))) ∧
    moved st' =
      (moved (Sample.disk unsorted_photo) ++
       [(["src"; "IMG_20230714.jpg"],
         join (join ["out"] "to_sort") (basename ["src"; "IMG_20230714.jpg"]));
        (join (join ["out"] "to_sort") (basename ["src"; "IMG_20230714.jpg"]),
         join (year_month ["out"] "2023" "07")
           (basename ["src"; "IMG_20230714.jpg"]))])%list ∧
    process_log st' =
      (process_log (Sample.disk unsorted_photo) ++
       [process_event (["src"; "IMG_20230714.jpg"],
                       join (join ["out"] "to_sort")
                         (basename ["src"; "IMG_20230714.jpg"]));
        {| p_filename := basename ["src"; "IMG_20230714.jpg"];
           p_target_folder :=
             join (year_month ["out"] "2023" "07")
               (basename ["src"; "IMG_20230714.jpg"]) |}])%list ∧
    issues st' = (issues (Sample.disk unsorted_photo) ++
                  [r; resorted_issue (basename ["src"; "IMG_20230714.jpg"])
                        "2023" "07"])%list ∧
    warning_issue (basename ["src"; "IMG_20230714.jpg"])
      WarningCodes.NO_DATE_METADATA r.
Proof.
  apply (undated_media_with_dated_names_are_filed Sample.quiet
           ["src"; "IMG_20230714.jpg"] ["out"] (Sample.disk unsorted_photo)
           (Sample.blank 9) "2023" "07").
  - reflexivity.
  - reflexivity.
  - reflexivity.
  - intros n. reflexivity.
  - intros n name. reflexivity.
  - vm_compute. set_solver.
  - vm_compute. set_solver.
  - vm_compute. set_solver.
  - vm_compute. reflexivity.
Defined.

(** ** Names that do not collide *)

Lemma basename_join (folder : path) (name : string) : basename (join folder name) = name.
Proof. unfold basename, join. apply last_last. Qed.

Lemma own_name_same (x : path) (st st' : state) :
  files st' = files st → own_name x st st'.
Proof.
  intros F. split; [|split].
  - intros q _. by rewrite F.
  - intros f Hf. left. by rewrite F.
  - done.
Qed.

Lemma own_name_trans (x : path) (st1 st2 st3 : state) :
  own_name x st1 st2 → own_name x st2 st3 → own_name x st1 st3.
Proof.
  intros (A1 & B1 & C1) (A2 & B2 & C2). split; [|split].
  - intros q Hq. by rewrite A2, A1.
  - intros f Hf. destruct (B1 f Hf) as [H1|(H1 & q & Hb & Hq)].
    + by apply B2.
    + right. rewrite (C2 H1). split; [done|]. by exists q.
  - intros Hn. by rewrite (C2 ltac:(by rewrite (C1 Hn))), (C1 Hn).
Qed.

Lemma shutil_move_own_name (h : host) (x src dst : path) :
  src = x ∧ basename dst = basename x →
  keeps (own_name x) (shutil_move h src dst).
Proof.
  intros [-> Hb] st r st' Hrun.
  destruct (shutil_move_cases h x dst st)
    as [(e & s1 & Hm & Hfail & _)|(f & _ & Hf & Hm)]; rewrite Hm in Hrun;
    injection Hrun as <- <-.
  - destruct Hfail as (_ & _ & _ & _ & _ & _ & Fsrc & Fout & Fnone).
    split; [|split]; [| |done].
    + intros q Hq. apply Fout. intros ->. by apply Hq.
    + intros f Hf. left. by rewrite Fsrc.
  - split; [|split]; cbn.
    + intros q Hq. rewrite lookup_insert_ne by (intros ->; by apply Hq).
      apply lookup_delete_ne. intros ->. by apply Hq.
    + intros g Hg. destruct (decide (dst = x)) as [->|Hne].
      * left. rewrite lookup_insert_eq. congruence.
      * right. rewrite lookup_insert_ne, lookup_delete_eq by done.
        split; [done|]. exists dst. split; [done|].
        rewrite lookup_insert_eq. congruence.
    + intros Hn. congruence.
Qed.

Lemma os_makedirs_own_name (h : host) (x folder : path) :
  keeps (own_name x) (os_makedirs h folder).
Proof.
  intros st r st'. unfold os_makedirs.
  destruct (io_fault h (io_tick st)); [|destruct (exists_ folder st)];
    intros [= <- <-]; by apply own_name_same.
Qed.

Lemma log_issue_own_name (h : host) (x : path) (name : string) (w e : option Z)
    (text : string) :
  keeps (own_name x) (log_issue h name w e text).
Proof.
  intros st r st' Hrun.
  destruct (log_issue_any h name w e text st)
    as (r' & st2 & rows & Hrun' & (F & _) & _).
  rewrite Hrun in Hrun'. injection Hrun' as -> ->. by apply own_name_same.
Qed.

Lemma log_process_own_name (h : host) (x : path) (name : string) (target : path) :
  keeps (own_name x) (log_process h name target).
Proof.
  intros st r st' Hrun.
  destruct (log_process_any h name target st)
    as (r' & st2 & prows & irows & Hrun' & (F & _) & _).
  rewrite Hrun in Hrun'. injection Hrun' as -> ->. by apply own_name_same.
Qed.

(** What one call of [process_file] does to the files, whatever fails
    and whether it returns or raises: it writes only to paths that carry
    the name of the file, and the file is kept under that name. *)
Lemma process_file_own_name (h : host) (x root ts un : path) :
  keeps (own_name x) (process_file h x root ts un).
Proof.
  apply (keeps_process_file h (own_name x)
           (fun src dst => src = x ∧ basename dst = basename x) (fun _ => True)
           (fun st => own_name_same x st st eq_refl) (own_name_trans x)
           (shutil_move_own_name h x)
           (os_makedirs_own_name h x)
           (fun name w e text _ => log_issue_own_name h x name w e text)
           (fun name target _ => log_process_own_name h x name target)
           x root ts un I).
  intros folder. split; [done|apply basename_join].
Qed.

Lemma sweep_keeps_names (h : host) (root ts un : path) (walk : list path) :
  NoDup (basename <$> walk) →
  ∀ st,
    (∀ p f, p ∈ walk → files st !! p = Some f →
       ∃ q, basename q = basename p ∧
            files (for_each walk (fun x => process_file h x root ts un) st).2 !! q
            = Some f) ∧
    (∀ q f, files st !! q = Some f → basename q ∉ basename <$> walk →
       files (for_each walk (fun x => process_file h x root ts un) st).2 !! q = Some f).
Proof.
  induction walk as [|x walk IH]; intros Hnd st.
  - split; [intros p f Hp; by apply elem_of_nil in Hp|]. intros q f Hq _. exact Hq.
  - rewrite fmap_cons in Hnd. apply NoDup_cons in Hnd as [Hx Hnd].
    destruct (process_file h x root ts un st) as [r st1] eqn:Hrun.
    destruct (process_file_own_name h x root ts un st r st1 Hrun) as (HA & HB & _).
    assert (Hother : ∀ q f, files st !! q = Some f → basename q ≠ basename x →
                            files st1 !! q = Some f).
    { intros q f Hq Hne. by rewrite HA. }
    assert (Hown : ∀ f, files st !! x = Some f →
                        ∃ q, basename q = basename x ∧ files st1 !! q = Some f).
    { intros f Hf. destruct (HB f Hf) as [H1|(_ & q & Hq1 & Hq2)];
        [by exists x|by exists q]. }
    assert (Hwalk : ∀ p, p ∈ walk → basename p ≠ basename x).
    { intros p Hp Heq. apply Hx. rewrite <- Heq. apply list_elem_of_fmap. by exists p. }
    cbn [for_each]. unfold bind. rewrite Hrun. destruct r as [[]|e].
    + destruct (IH Hnd st1) as [IHA IHB]. split.
      * intros p f Hp Hf. apply elem_of_cons in Hp as [->|Hp].
        -- destruct (Hown f Hf) as (q & Hb & Hq). exists q. split; [done|].
           apply IHB; [done|by rewrite Hb].
        -- apply IHA; [done|]. apply Hother; [done|by apply Hwalk].
      * intros q f Hq Hnot. rewrite fmap_cons in Hnot.
        apply not_elem_of_cons in Hnot as [Hne Hnot].
        apply IHB; [|done]. by apply Hother.
    + cbn [snd]. split.
      * intros p f Hp Hf. apply elem_of_cons in Hp as [->|Hp].
        -- by apply Hown.
        -- exists p. split; [done|]. apply Hother; [done|by apply Hwalk].
      * intros q f Hq Hnot. rewrite fmap_cons in Hnot.
        apply not_elem_of_cons in Hnot as [Hne _]. by apply Hother.
Qed.

(** X19: when the names of the enumerated files are pairwise distinct,
    the primary sweep loses none of them, whatever fails: each one is
    afterwards on the disk under its own name, with its content; and a
    file whose name is not the name of an enumerated file is where it
    was. *)
Theorem distinct_names_lose_no_file (h : host) (walk : list path) (target : path)
    (st : state) :
  NoDup (basename <$> walk) →
  (∀ p f, p ∈ walk → files st !! p = Some f →
     ∃ q, basename q = basename p ∧
          files (primary_sweep h walk target st).2 !! q = Some f) ∧
  (∀ q f, files st !! q = Some f → basename q ∉ basename <$> walk →
     files (primary_sweep h walk target st).2 !! q = Some f).
Proof.
  intros Hnd. unfold primary_sweep. cbv zeta. by apply sweep_keeps_names.
Qed.

Lemma distinct_names_lose_no_file_witness :
  ∃ q, basename q = basename ["src"; "a"; "x.txt"] ∧
       files (primary_sweep Sample.quiet
                [["src"; "a"; "x.txt"]; ["src"; "b"; "y.txt"]] ["out"]
                (Sample.disk two_notes)).2 !! q
       = Some (Sample.blank 1).
Proof.
  refine (proj1 (distinct_names_lose_no_file Sample.quiet
                   [["src"; "a"; "x.txt"]; ["src"; "b"; "y.txt"]] ["out"]
                   (Sample.disk two_notes) _)
            ["src"; "a"; "x.txt"] (Sample.blank 1) _ _).
  - apply NoDup_cons. split; [|apply NoDup_singleton].
    intros H. apply list_elem_of_singleton in H. vm_compute in H. discriminate H.
  - left.
  - reflexivity.
Defined.

(** ** Names with too few digits *)

Lemma digit_count_app (s t : string) :
  digit_count (s ++ t) = (digit_count s + digit_count t)%nat.
Proof.
  induction s as [|a s IH]; [done|]. rewrite append_cons. cbn [digit_count].
  rewrite IH. lia.
Qed.

Lemma take_rep_count_le (c : Re.cls) (n : nat) (s m rest : string) :
  Re.take_rep c n s = Some (m, rest) → (digit_count rest ≤ digit_count s)%nat.
Proof.
  intros H. apply take_rep_length in H as [_ ->]. rewrite digit_count_app. lia.
Qed.

Lemma take_rep_digit_count (n : nat) (s m rest : string) :
  Re.take_rep Re.Digit n s = Some (m, rest) →
  digit_count s = (n + digit_count rest)%nat.
Proof.
  revert s m rest. induction n as [|n IH]; intros s m rest; simpl.
  - by intros [= <- <-].
  - destruct s as [|a s]; [done|]. destruct (Py.is_digit a) eqn:D; [|done].
    destruct (Re.take_rep Re.Digit n s) as [[m' rest']|] eqn:E; [|done].
    intros [= <- <-]. apply IH in E. cbn [digit_count]. rewrite D. lia.
Qed.

Lemma take_body_digit_count (n : nat) (s m rest : string) :
  Re.take_body [(Re.Digit, n)] s = Some (m, rest) →
  digit_count s = (n + digit_count rest)%nat.
Proof.
  simpl. destruct (Re.take_rep Re.Digit n s) as [[m' rest']|] eqn:E; [|done].
  intros [= <- <-]. by eapply take_rep_digit_count.
Qed.

Ltac count_match H :=
  repeat match type of H with
  | context [Re.take_body [(Re.Digit, ?n)] ?s] =>
      let E := fresh "E" in
      destruct (Re.take_body [(Re.Digit, n)] s) as [[? ?]|] eqn:E; [|discriminate H];
      apply take_body_digit_count in E
  | context [Re.take_rep Re.Digit ?n ?s] =>
      let E := fresh "E" in
      destruct (Re.take_rep Re.Digit n s) as [[? ?]|] eqn:E; [|discriminate H];
      apply take_rep_digit_count in E
  | context [Re.take_rep ?c ?n ?s] =>
      let E := fresh "E" in
      destruct (Re.take_rep c n s) as [[? ?]|] eqn:E; [|discriminate H];
      apply take_rep_count_le in E
  end.

(** Every pattern consumes eight digits. *)
Lemma match_needs_eight_digits (q : Re.pattern) (s : string) (gs : list string) :
  q ∈ patterns → Re.match_here q s = Some gs → (8 ≤ digit_count s)%nat.
Proof.
  unfold patterns. rewrite !elem_of_cons, elem_of_nil.
  intros [->|[->|[->|[->|[->|[]]]]]] H;
    unfold ymd_pattern, dmy_pattern, compact_pattern, img_pattern, vid_pattern,
           Re.d, Re.sep, Re.g, Re.lit in H;
    cbn [Re.match_here] in H; count_match H; lia.
Qed.

(** X20: a name with fewer than eight decimal digits in it never yields a
    date, whatever the current month: no pattern can match it, so such a
    file is left in the holding folder by the resort sweep. *)
Theorem names_with_few_digits_are_undated (h : host) (filename : string) :
  (digit_count filename < 8)%nat →
  extract_timestamp_from_filename h filename = Ok None ∧
  ∀ q, q ∈ patterns → Re.search q filename = None.
Proof.
  intros Hfew.
  assert (Hnone : ∀ q, q ∈ patterns → Re.search q filename = None).
  { intros q Hq. destruct (Re.search q filename) as [gs|] eqn:E; [|done]. exfalso.
    apply search_Some in E as (before & after & -> & Hm).
    apply (match_needs_eight_digits q after gs Hq) in Hm.
    rewrite digit_count_app in Hfew. lia. }
  split; [|done].
  unfold extract_timestamp_from_filename. apply for_first_None.
  intros q Hq. unfold try_pattern. by rewrite (Hnone q Hq).
Qed.

Lemma names_with_few_digits_are_undated_witness :
  extract_timestamp_from_filename Sample.quiet "party_2023-7.jpg" = Ok None.
Proof.
  apply (names_with_few_digits_are_undated Sample.quiet "party_2023-7.jpg").
  vm_compute. lia.
Defined.
